(** * Telegram-IMDbot: the alert engine of [utils/movie.py] over the
      alert store of [utils/db.py]

    A shallow embedding of the subscribe path ([Alert.enable]), the
    unsubscribe path ([Alert.disable]) and the daily tick ([Alert.notify]),
    together with the parts of the Python runtime they lean on: [re.match]
    on the two date patterns, [datetime.strptime] on the two date formats,
    [datetime] comparison and [datetime + timedelta(days=7)].

    Conventions of the embedding.
    - Text is [string]; the character classes are those of Python's [re]
      on [str] for code points below 128.
    - An exception is a value [Raise e]; the [_catch_and_log] decorator of
      [movie.py] is [catch_and_log].
    - The sqlite table is the list of its rows in rowid order; statements
      on it do not fail (the decorator of [db.py] has nothing to catch).
    - The IMDb client is a record of functions that return a field map or
      raise; the clock is one [datetime] value per operation. *)

From Stdlib Require Import ZArith List String Ascii Bool Lia.
Local Open Scope string_scope.
Import ListNotations.
Local Open Scope list_scope.
Local Open Scope Z_scope.

(** ** Python values and exceptions *)

Module Py.

Inductive exn : Type :=
| KeyError
| ValueError
| OverflowError
| UnboundLocalError
| IMDbError.

Inductive result (A : Type) : Type :=
| Ok (a : A)
| Raise (e : exn).
Arguments Ok {A} a.
Arguments Raise {A} e.

(** Truth value of a [str] *)
Definition truthy_str (s : string) : bool :=
  match s with
  | EmptyString => false
  | String _ _ => true
  end.

(** Truth value of [d.get(key)] when the field holds a [str] *)
Definition truthy (o : option string) : bool :=
  match o with
  | None => false
  | Some s => truthy_str s
  end.

(** [s.replace(c, '')] for a one-character [c] *)
Fixpoint remove_char (c : ascii) (s : string) : string :=
  match s with
  | EmptyString => EmptyString
  | String a s' =>
      if Ascii.eqb a c then remove_char c s' else String a (remove_char c s')
  end.

Definition code (c : ascii) : Z := Z.of_N (N_of_ascii c).

(** [str(n)] for an [int] *)
Fixpoint digits_of_pos (fuel : nat) (n : Z) (acc : string) : string :=
  match fuel with
  | O => acc
  | S fuel' =>
      let acc' := String (ascii_of_N (Z.to_N (48 + n mod 10))) acc in
      if n / 10 =? 0 then acc' else digits_of_pos fuel' (n / 10) acc'
  end.

Definition str_of_int (n : Z) : string :=
  if n <? 0 then String "-" (digits_of_pos (Z.to_nat (- n)) (- n) "")
  else digits_of_pos (S (Z.to_nat n)) n "".

End Py.

(** ** Regular expressions: [re.match] on the patterns of [movie.py] *)

Module Re.

(** [\d], [\s], [\w] and [.] of a [str] pattern, on code points < 128 *)
Definition is_digit (c : ascii) : bool :=
  let n := Py.code c in (48 <=? n) && (n <=? 57).

Definition is_space (c : ascii) : bool :=
  let n := Py.code c in
  ((9 <=? n) && (n <=? 13)) || ((28 <=? n) && (n <=? 32)).

Definition is_word (c : ascii) : bool :=
  let n := Py.code c in
  ((48 <=? n) && (n <=? 57)) || ((65 <=? n) && (n <=? 90))
  || ((97 <=? n) && (n <=? 122)) || (n =? 95).

Definition is_any (c : ascii) : bool :=
  negb (Py.code c =? 10).

(** One item [cls{lo,hi}] of a pattern *)
Record item : Type := Item { cls : ascii -> bool; lo : nat; hi : nat }.

(** [cls{lo,hi}] followed by the continuation [k]: greedy, then shorter *)
Fixpoint match_rep (cls : ascii -> bool) (k : string -> bool)
         (lo hi : nat) (s : string) : bool :=
  match hi with
  | O => match lo with O => k s | S _ => false end
  | S hi' =>
      match s with
      | String c s' =>
          (cls c && match_rep cls k (Nat.pred lo) hi' s')
          || match lo with O => k s | S _ => false end
      | EmptyString => match lo with O => k s | S _ => false end
      end
  end.

(** [re.match(pattern, s)] is not [None]: the pattern matches a prefix *)
Fixpoint matches (p : list item) (s : string) : bool :=
  match p with
  | [] => true
  | i :: p' => match_rep (cls i) (matches p') (lo i) (hi i) s
  end.

(** [r'\d{1,2}\s\w{3,9}\s\d{4}'], movie.py line 150 *)
Definition movie_date_regex : list item :=
  [ Item is_digit 1 2; Item is_space 1 1; Item is_word 3 9;
    Item is_space 1 1; Item is_digit 4 4 ].

(** [r'\d{1,2}\s\w{3}.{0,1}\s\d{4}'], movie.py lines 184 and 220 *)
Definition episode_date_regex : list item :=
  [ Item is_digit 1 2; Item is_space 1 1; Item is_word 3 3;
    Item is_any 0 1; Item is_space 1 1; Item is_digit 4 4 ].

End Re.

(** ** [datetime]: values, order, ordinals, [strptime] *)

Module Datetime.

Record datetime : Type := mkDatetime {
  year : Z; month : Z; day : Z;
  hour : Z; minute : Z; second : Z; microsecond : Z
}.

Definition eqb (a b : datetime) : bool :=
  (year a =? year b) && (month a =? month b) && (day a =? day b)
  && (hour a =? hour b) && (minute a =? minute b)
  && (second a =? second b) && (microsecond a =? microsecond b).

Definition fields (a : datetime) : list Z :=
  [year a; month a; day a; hour a; minute a; second a; microsecond a].

(** Tuple comparison, as [datetime._cmp] does *)
Fixpoint lex_ltb (x y : list Z) : bool :=
  match x, y with
  | a :: x', b :: y' => (a <? b) || ((a =? b) && lex_ltb x' y')
  | [], _ :: _ => true
  | _, [] => false
  end.

Definition ltb (a b : datetime) : bool := lex_ltb (fields a) (fields b).
Definition gtb (a b : datetime) : bool := ltb b a.

(** [d.replace(hour=0, minute=0, second=0, microsecond=0)] *)
Definition replace_midnight (d : datetime) : datetime :=
  mkDatetime (year d) (month d) (day d) 0 0 0 0.

Definition at_midnight (d : datetime) : bool :=
  (hour d =? 0) && (minute d =? 0) && (second d =? 0)
  && (microsecond d =? 0).

Definition is_leap (y : Z) : bool :=
  (y mod 4 =? 0) && (negb (y mod 100 =? 0) || (y mod 400 =? 0)).

Definition DAYS_IN_MONTH : list Z :=
  [-1; 31; 28; 31; 30; 31; 30; 31; 31; 30; 31; 30; 31].

Definition DAYS_BEFORE_MONTH : list Z :=
  [-1; 0; 31; 59; 90; 120; 151; 181; 212; 243; 273; 304; 334].

Definition index (l : list Z) (i : Z) : Z := nth (Z.to_nat i) l (-1).

Definition days_before_year (y : Z) : Z :=
  let y1 := y - 1 in y1 * 365 + y1 / 4 - y1 / 100 + y1 / 400.

Definition days_in_month (y m : Z) : Z :=
  if (m =? 2) && is_leap y then 29 else index DAYS_IN_MONTH m.

Definition days_before_month (y m : Z) : Z :=
  index DAYS_BEFORE_MONTH m + (if (2 <? m) && is_leap y then 1 else 0).

Definition ymd2ord (y m d : Z) : Z :=
  days_before_year y + days_before_month y m + d.

Definition DI400Y : Z := 146097.
Definition DI100Y : Z := 36524.
Definition DI4Y : Z := 1461.
Definition MAXORDINAL : Z := 3652059.

Definition ord2ymd (n0 : Z) : Z * Z * Z :=
  let n := n0 - 1 in
  let n400 := n / DI400Y in
  let n := n mod DI400Y in
  let y := n400 * 400 + 1 in
  let n100 := n / DI100Y in
  let n := n mod DI100Y in
  let n4 := n / DI4Y in
  let n := n mod DI4Y in
  let n1 := n / 365 in
  let n := n mod 365 in
  let y := y + n100 * 100 + n4 * 4 + n1 in
  if (n1 =? 4) || (n100 =? 4) then (y - 1, 12, 31)
  else
    let leapyear := (n1 =? 3) && (negb (n4 =? 24) || (n100 =? 3)) in
    let m := Z.shiftr (n + 50) 5 in
    let preceding :=
      index DAYS_BEFORE_MONTH m + (if (2 <? m) && leapyear then 1 else 0) in
    if n <? preceding then
      let m' := m - 1 in
      let preceding' :=
        preceding
        - (index DAYS_IN_MONTH m'
           + (if (m' =? 2) && leapyear then 1 else 0)) in
      (y, m', n - preceding' + 1)
    else (y, m, n - preceding + 1).

Definition toordinal (d : datetime) : Z := ymd2ord (year d) (month d) (day d).

(** [d + timedelta(days=n)]: the sum is normalised as a timedelta of
    days, seconds and microseconds, then split again *)
Definition add_days (d : datetime) (n : Z) : Py.result datetime :=
  let days := toordinal d + n in
  let seconds := hour d * 3600 + minute d * 60 + second d in
  let hh := seconds / 3600 in
  let rem := seconds mod 3600 in
  let mm := rem / 60 in
  let ss := rem mod 60 in
  if (0 <? days) && (days <=? MAXORDINAL) then
    let '(y, m, dd) := ord2ymd days in
    Py.Ok (mkDatetime y m dd hh mm ss (microsecond d))
  else Py.Raise Py.OverflowError.

(** The constructor's range check on the date part *)
Definition valid_date (y m d : Z) : bool :=
  (1 <=? y) && (y <=? 9999) && (1 <=? m) && (m <=? 12)
  && (1 <=? d) && (d <=? days_in_month y m).

(** *** [strptime]

    [_strptime] turns the format into a regular expression, matched
    case-insensitively at the start of the text: [%d] is
    [3[0-1]|[1-2]\d|0[1-9]|[1-9]| [1-9]], blanks of the format are [\s+],
    [%B] and [%b] are the alternation of the month names, [%Y] is
    [\d\d\d\d]. Text left after the match is an error, and so is a date
    the constructor rejects. *)

Definition month_names : list string :=
  ["january"; "february"; "march"; "april"; "may"; "june"; "july";
   "august"; "september"; "october"; "november"; "december"].

Definition month_abbrs : list string :=
  ["jan"; "feb"; "mar"; "apr"; "may"; "jun"; "jul";
   "aug"; "sep"; "oct"; "nov"; "dec"].

Definition lower (c : ascii) : ascii :=
  let n := Py.code c in
  if (65 <=? n) && (n <=? 90) then ascii_of_N (Z.to_N (n + 32)) else c.

(** The text after [name] when [s] starts with it, ignoring case *)
Fixpoint strip_prefix_ci (name s : string) : option string :=
  match name, s with
  | EmptyString, _ => Some s
  | String a name', String c s' =>
      if Ascii.eqb a (lower c) then strip_prefix_ci name' s' else None
  | String _ _, EmptyString => None
  end.

Definition digit_val (c : ascii) : Z := Py.code c - 48.

Definition in_range (a b : Z) (c : ascii) : bool :=
  (a <=? Py.code c) && (Py.code c <=? b).

Definition first_some {A : Type} (x y : option A) : option A :=
  match x with Some _ => x | None => y end.

(** The alternatives of [%d], in the order of the expression *)
Definition day_alternatives (s : string) : list (Z * string) :=
  match s with
  | String a (String b r) =>
      (if Ascii.eqb a "3" && in_range 48 49 b
       then [(30 + digit_val b, r)] else [])
      ++ (if in_range 49 50 a && Re.is_digit b
          then [(10 * digit_val a + digit_val b, r)] else [])
      ++ (if Ascii.eqb a "0" && in_range 49 57 b
          then [(digit_val b, r)] else [])
      ++ (if in_range 49 57 a then [(digit_val a, String b r)] else [])
      ++ (if Ascii.eqb a " " && in_range 49 57 b
          then [(digit_val b, r)] else [])
  | String a EmptyString =>
      if in_range 49 57 a then [(digit_val a, EmptyString)] else []
  | EmptyString => []
  end.

Section Backtracking.
Context {A : Type}.

(** [\s*] then [k], longest first *)
Fixpoint space_star (k : string -> option A) (s : string) : option A :=
  match s with
  | String c s' =>
      if Re.is_space c then first_some (space_star k s') (k s) else k s
  | EmptyString => k s
  end.

(** [\s+] then [k] *)
Definition space_plus (k : string -> option A) (s : string) : option A :=
  match s with
  | String c s' => if Re.is_space c then space_star k s' else None
  | EmptyString => None
  end.

(** First alternative that lets the rest of the expression match *)
Fixpoint first_alt {B : Type} (k : B -> string -> option A)
         (alts : list (B * string)) : option A :=
  match alts with
  | [] => None
  | (b, r) :: alts' => first_some (k b r) (first_alt k alts')
  end.
End Backtracking.

(** Month names sorted by length, longest first, each with its number;
    the sort is stable: [x] comes from before the names of [l] and stays
    before those of its length *)
Fixpoint insert_by_length (x : Z * string) (l : list (Z * string))
  : list (Z * string) :=
  match l with
  | [] => [x]
  | y :: l' =>
      if (String.length (snd y) <=? String.length (snd x))%nat
      then x :: l else y :: insert_by_length x l'
  end.

Fixpoint number_from (i : Z) (names : list string) : list (Z * string) :=
  match names with
  | [] => []
  | n :: names' => (i, n) :: number_from (i + 1) names'
  end.

Definition month_alternation (names : list string) : list (Z * string) :=
  fold_right insert_by_length [] (number_from 1 names).

Definition month_alternatives (names : list string) (s : string)
  : list (Z * string) :=
  flat_map (fun '(i, n) =>
              match strip_prefix_ci n s with
              | Some r => [(i, r)]
              | None => []
              end)
           (month_alternation names).

Definition year_digits (s : string) : option (Z * string) :=
  match s with
  | String a (String b (String c (String d r))) =>
      if Re.is_digit a && Re.is_digit b && Re.is_digit c && Re.is_digit d
      then Some (1000 * digit_val a + 100 * digit_val b
                 + 10 * digit_val c + digit_val d, r)
      else None
  | _ => None
  end.

(** The match of [%d\s+<month>\s+%Y]: day, month, year and the text left *)
Definition strptime_match (names : list string) (s : string)
  : option (Z * Z * Z * string) :=
  first_alt
    (fun d => space_plus (fun s1 =>
       first_alt
         (fun m => space_plus (fun s2 =>
            match year_digits s2 with
            | Some (y, r) => Some (d, m, y, r)
            | None => None
            end))
         (month_alternatives names s1)))
    (day_alternatives s).

Definition strptime_dmy (names : list string) (s : string)
  : Py.result datetime :=
  match strptime_match names s with
  | Some (d, m, y, EmptyString) =>
      if valid_date y m d then Py.Ok (mkDatetime y m d 0 0 0 0)
      else Py.Raise Py.ValueError
  | _ => Py.Raise Py.ValueError
  end.

(** [datetime.strptime(s, '%d %B %Y')] *)
Definition strptime_d_B_Y : string -> Py.result datetime :=
  strptime_dmy month_names.

(** [datetime.strptime(s, '%d %b %Y')] *)
Definition strptime_d_b_Y : string -> Py.result datetime :=
  strptime_dmy month_abbrs.

(** *** Vocabulary of the calendar lemmas *)

(** A check of [p] on [fuel] consecutive integers from [z] *)
Fixpoint holds_from (p : Z -> bool) (fuel : nat) (z : Z) : bool :=
  match fuel with
  | O => true
  | S fuel' => p z && holds_from p fuel' (z + 1)
  end.

Definition ordinal_of (t : Z * Z * Z) : Z :=
  let '(y, m, d) := t in ymd2ord y m d.

Definition shift_years (k : Z) (t : Z * Z * Z) : Z * Z * Z :=
  let '(y, m, d) := t in (y + 400 * k, m, d).

(** The date of ordinal [n] has ordinal [n] *)
Definition roundtrip_at (n : Z) : bool := ordinal_of (ord2ymd n) =? n.

End Datetime.

(** ** The alert store, [utils/db.py] *)

Module Db.

(** One row of [imdb_alerts] *)
Record row : Type := mkRow {
  user_id : string;
  user_name : string;
  title_id : string;
  title_name : option string;
  title_episode_id : option string;
  title_release : Datetime.datetime
}.

Definition table : Type := list row.

Definition key (r : row) : string * string := (user_id r, title_id r).

Definition has_key (u t : string) (r : row) : bool :=
  String.eqb (user_id r) u && String.eqb (title_id r) t.

(** [CREATE TABLE IF NOT EXISTS]: a table that exists is left as it is *)
Definition create_table (db : table) : table * bool := (db, true).

Definition query_title_name (u : string) (db : table)
  : list (option string) :=
  map title_name (filter (fun r => String.eqb (user_id r) u) db).

Definition query_title_id (u : string) (db : table) : list string :=
  map title_id (filter (fun r => String.eqb (user_id r) u) db).

(** [fetchone()]: the first matching row, or [None] *)
Definition query_user_alert (u t : string) (db : table)
  : option (option string) :=
  match filter (has_key u t) db with
  | [] => None
  | r :: _ => Some (title_name r)
  end.

Definition query_released (today : Datetime.datetime) (db : table)
  : list (string * string * option string) :=
  map (fun r => (user_id r, title_id r, title_episode_id r))
      (filter (fun r => Datetime.eqb (title_release r) today) db).

Definition insert (values : row) (db : table) : table * string :=
  (db ++ [values], "Alert enabled.").

(** [values = (title_episode_id, title_release, user_id, title_id)] *)
Definition update (values : string * Datetime.datetime * string * string)
           (db : table) : table :=
  let '(e, d, u, t) := values in
  map (fun r =>
         if has_key u t r
         then mkRow (user_id r) (user_name r) (title_id r) (title_name r)
                    (Some e) d
         else r)
      db.

Definition delete (u t : string) (db : table) : table * string :=
  (filter (fun r => negb (has_key u t r)) db, "Alert disabled.").

End Db.

(** ** The IMDb client as the engine sees it *)

Module IMDb.

(** The fields of a [Movie] object that the engine reads *)
Record Movie : Type := mkMovie {
  getID : string;
  long_imdb_title : option string;
  seasons : option (list string);
  original_air_date : option string;
  next_episode : option string
}.

(** One entry of ['raw release dates'] *)
Record release : Type := mkRelease {
  country : string;
  date : string;
  notes : option string
}.

(** Season key, then episode number, in the order of the dictionaries *)
Definition episodes : Type := list (Z * list (Z * Movie)).

Record api : Type := mkApi {
  get_movie : string -> Py.result Movie;
  (** [get_movie_release_info(id)['data'].get('raw release dates')] *)
  get_movie_release_info : string -> Py.result (option (list release));
  (** [get_movie_episodes(id)['data'].get('episodes')] *)
  get_movie_episodes : string -> Py.result (option episodes);
  get_episode : string -> Py.result Movie
}.

End IMDb.

(** ** The engine, [utils/movie.py] *)

Module Alert.

Import Py Datetime IMDb.

(** A computation on the store that returns or raises; what was written
    before an exception stays written (every statement is committed) *)
Definition M (A : Type) : Type := Db.table -> result A * Db.table.

Definition ret {A : Type} (a : A) : M A := fun db => (Ok a, db).

Definition raise {A : Type} (e : exn) : M A := fun db => (Raise e, db).

Definition bind {A B : Type} (m : M A) (f : A -> M B) : M B :=
  fun db =>
    match m db with
    | (Ok a, db') => f a db'
    | (Raise e, db') => (Raise e, db')
    end.

(** A call that does not touch the store *)
Definition call {A : Type} (r : result A) : M A := fun db => (r, db).

Notation "x <- m ;; k" := (bind m (fun x => k))
  (at level 61, m at next level, right associativity).
Notation "m ;;; k" := (bind m (fun _ => k))
  (at level 61, right associativity).

Definition error_message : string := "Unexpected error occured.".

(** The decorator: the function's value, or the error text in its place
    ([as_value] says how the text sits in the function's return type) *)
Definition catch_and_log {A : Type} (as_value : string -> A) (m : M A)
  : M A :=
  fun db =>
    match m db with
    | (Ok a, db') => (Ok a, db')
    | (Raise _, db') => (Ok (as_value error_message), db')
    end.

Definition db_insert (values : Db.row) : M string :=
  fun db => let '(db', message) := Db.insert values db in (Ok message, db').

Definition db_update (values : string * datetime * string * string)
  : M unit :=
  fun db => (Ok tt, Db.update values db).

Definition db_delete (user_id title_id : string) : M string :=
  fun db =>
    let '(db', message) := Db.delete user_id title_id db in (Ok message, db').

Definition db_query_released (today : datetime)
  : M (list (string * string * option string)) :=
  fun db => (Ok (Db.query_released today db), db).

Definition newline : string := String (ascii_of_N 10) EmptyString.

(** [value and match(date_regex, value)] *)
Definition usable (date_regex : list Re.item) (value : option string)
  : option string :=
  match value with
  | Some s => if truthy_str s && Re.matches date_regex s then Some s else None
  | None => None
  end.

(** Date resolution of the movie path (lines 157-159): the pattern check,
    then the strict parse of the long-month format; [None] when the
    check fails *)
Definition movie_date (value : string) : option (result datetime) :=
  if Re.matches Re.movie_date_regex value
  then Some (strptime_d_B_Y value) else None.

(** Date resolution of the series path (lines 191-193): the check, the
    removal of periods, the strict parse of the short-month format; the
    text that was parsed comes with the result *)
Definition episode_date (value : option string)
  : option (string * result datetime) :=
  match usable Re.episode_date_regex value with
  | Some ep_release_date =>
      let ep_release_date := remove_char "." ep_release_date in
      Some (ep_release_date, strptime_d_b_Y ep_release_date)
  | None => None
  end.

(** Date resolution of the tick (lines 226-229): the check, the removal
    of commas, the strict parse of the short-month format *)
Definition next_episode_date (value : option string)
  : option (result datetime) :=
  match usable Re.episode_date_regex value with
  | Some next_release_date =>
      Some (strptime_d_b_Y (remove_char "," next_release_date))
  | None => None
  end.

(** The dates of the USA entries without notes (lines 154-156) *)
Definition usa_release_date (release_dates : list release) : list string :=
  map date
      (filter (fun i => String.eqb (country i) ("USA" ++ newline)%string
                        && negb (truthy (notes i)))
              release_dates).

Definition alert : Type := string * string.

Section Engine.

(** [self.imdb_api], [datetime.now()], and the text
    [reply_message(get_fields(data))] (both functions are decorated,
    so the text is always there) *)
Variable imdb_api : api.
Variable now : datetime.
Variable title_details : Movie -> string.

Definition _get_movie_release_date
           (user_id user_name title_id : string)
           (title_name : option string) : M string :=
  catch_and_log id
    (release_dates <- call (get_movie_release_info imdb_api title_id) ;;
     match release_dates with
     | Some ((_ :: _) as release_dates) =>
         match usa_release_date release_dates with
         | date0 :: _ =>
             match movie_date date0 with
             | Some parsed =>
                 release_date <- call parsed ;;
                 if gtb release_date now then
                   db_insert (Db.mkRow user_id user_name title_id
                                       title_name None release_date)
                 else ret ("Released on " ++ date0 ++ " in USA")%string
             | None => ret "Unable to find USA release date"
             end
         | [] => ret "Unable to find USA release date"
         end
     | _ => ret "No release date found"
     end).

(** The [for] loop of [_get_episode_release_date]; [message] is [None]
    while the variable is unbound *)
Fixpoint episode_loop (user_id user_name title_id : string)
         (title_name : option string) (current_season len : Z)
         (items : list (Z * Movie)) (message : option string)
  : M string :=
  match items with
  | [] =>
      match message with
      | Some m => ret m
      | None => raise UnboundLocalError
      end
  | (ep_no, ep_data) :: items' =>
      match episode_date (original_air_date ep_data) with
      | Some (ep_release_date, parsed) =>
          release_date <- call parsed ;;
          if ltb release_date now then
            if ep_no =? len then
              ret ("Season " ++ str_of_int current_season
                   ++ " finale aired " ++ ep_release_date)%string
            else
              episode_loop user_id user_name title_id title_name
                           current_season len items' message
          else
            db_insert (Db.mkRow user_id user_name title_id title_name
                                (Some (getID ep_data)) release_date)
      | None =>
          episode_loop user_id user_name title_id title_name
                       current_season len items'
                       (Some "Unable to get episode release date")
      end
  end.

Definition _get_episode_release_date
           (user_id user_name title_id : string)
           (title_name : option string) : M string :=
  catch_and_log id
    (title_episodes <- call (get_movie_episodes imdb_api title_id) ;;
     match title_episodes with
     | Some ((current_season, latest_episodes) :: _) =>
         episode_loop user_id user_name title_id title_name
                      current_season
                      (Z.of_nat (List.length latest_episodes))
                      latest_episodes None
     | _ => ret "Unable to get series episodes"
     end).

Definition _update_episode (user_id title_id : string)
           (current_episode_data : Movie) : M (option string) :=
  catch_and_log Some
    (let next_episode_id := next_episode current_episode_data in
     if truthy next_episode_id then
       let next_episode_id :=
         match next_episode_id with Some i => i | None => "" end in
       next_episode_data <- call (get_episode imdb_api next_episode_id) ;;
       values <-
         match next_episode_date (original_air_date next_episode_data) with
         | Some parsed =>
             release_date <- call parsed ;;
             ret (next_episode_id, release_date)
         | None =>
             next_week_date <- call (add_days now 7) ;;
             ret (getID current_episode_data,
                  replace_midnight next_week_date)
         end ;;
       let '(next_episode_id, release_date) := values in
       db_update (next_episode_id, release_date, user_id, title_id) ;;;
       ret (Some next_episode_id)
     else
       db_delete user_id title_id ;;;
       ret next_episode_id).

Definition enable (user_id user_name title_id : string) : M string :=
  catch_and_log id
    (imdb_data <- call (get_movie imdb_api title_id) ;;
     let title_name := long_imdb_title imdb_data in
     match seasons imdb_data with
     | Some (_ :: _) =>
         _get_episode_release_date user_id user_name title_id title_name
     | _ =>
         _get_movie_release_date user_id user_name title_id title_name
     end).

Definition disable (user_id title_id : string) : M string :=
  catch_and_log id (db_delete user_id title_id).

(** The body of the [for] loop of [notify] *)
Definition notify_row (today : datetime)
           (row : string * string * option string)
           (alerts : list alert) : M (list alert) :=
  let '(user_id, title_id, title_episode_id) := row in
  if truthy title_episode_id then
    let title_episode_id :=
      match title_episode_id with Some i => i | None => "" end in
    current_episode <- call (get_episode imdb_api title_episode_id) ;;
    current_release <-
      match original_air_date current_episode with
      | Some s => ret (remove_char "," s)
      | None => raise KeyError
      end ;;
    current_release_date <- call (strptime_d_b_Y current_release) ;;
    next_episode_id <- _update_episode user_id title_id current_episode ;;
    if negb (truthy next_episode_id) then
      ret (alerts ++ [(user_id,
                       ("Series finale episode!(alert disabled)"
                        ++ newline ++ newline
                        ++ title_details current_episode)%string)])
    else if Datetime.eqb current_release_date today then
      ret (alerts ++ [(user_id,
                       ("Episode is out!!" ++ newline ++ newline
                        ++ title_details current_episode)%string)])
    else ret alerts
  else
    title_data <- call (get_movie imdb_api title_id) ;;
    let message :=
      ("Movie is out!" ++ newline ++ newline
       ++ title_details title_data)%string in
    db_delete user_id title_id ;;;
    ret (alerts ++ [(user_id, message)]).

Fixpoint notify_loop (today : datetime)
         (rows : list (string * string * option string))
         (alerts : list alert) : M (list alert) :=
  match rows with
  | [] => ret alerts
  | row :: rows' =>
      alerts' <- notify_row today row alerts ;;
      notify_loop today rows' alerts'
  end.

(** [notify] returns the list of alerts ([inl]) or, through the
    decorator, the error text ([inr]) *)
Definition notify : M (list alert + string) :=
  catch_and_log inr
    (let today := replace_midnight now in
     rows <- db_query_released today ;;
     alerts <- notify_loop today rows [] ;;
     ret (inl alerts)).

End Engine.

(** *** Vocabulary of the statements below *)

(** An episode without a usable air date: the field is missing, empty,
    or fails the pattern check *)
Definition unusable (item : Z * Movie) : bool :=
  match episode_date (original_air_date (snd item)) with
  | None => true
  | Some _ => false
  end.

(** An episode that does not end the scan: it is unusable, or it has
    aired and its number is not the length of the season *)
Definition passed_over (now : datetime) (len : Z) (item : Z * Movie)
  : bool :=
  match episode_date (original_air_date (snd item)) with
  | None => true
  | Some (_, Ok release_date) =>
      ltb release_date now && negb (fst item =? len)
  | Some (_, Raise _) => false
  end.

Definition unable_message : string := "Unable to get episode release date".

(** At most one row for each pair of user and title *)
Definition unique_keys (db : Db.table) : Prop := NoDup (map Db.key db).

(** Every stored release date is a day at 00:00:00.000000 *)
Definition all_midnight (db : Db.table) : Prop :=
  Forall (fun r => at_midnight (Db.title_release r) = true) db.

(** What the tick writes: updates of one key to a date at midnight, and
    deletions of one key, any number of them *)
Inductive tick_writes : Db.table -> Db.table -> Prop :=
| writes_nothing (db : Db.table) : tick_writes db db
| writes_update (e u t : string) (d : datetime) (db db' : Db.table) :
    at_midnight d = true ->
    tick_writes (Db.update (e, d, u, t) db) db' ->
    tick_writes db db'
| writes_delete (u t : string) (db db' : Db.table) :
    tick_writes (fst (Db.delete u t db)) db' ->
    tick_writes db db'.

(** What [enable] writes: nothing, or one row of its key, appended, with
    a release date at midnight *)
Definition appends_one (user_id title_id : string) (db db' : Db.table)
  : Prop :=
  db' = db
  \/ exists row, db' = db ++ [row]
                 /\ Db.key row = (user_id, title_id)
                 /\ at_midnight (Db.title_release row) = true.

Definition same_day (a b : datetime) : bool :=
  (year a =? year b) && (month a =? month b) && (day a =? day b).

Definition episode_out_message (title_details : Movie -> string)
           (current_episode : Movie) : string :=
  ("Episode is out!!" ++ newline ++ newline
   ++ title_details current_episode)%string.

End Alert.

(** ** A small world to run the engine in *)

Module Demo.

Import Py Datetime IMDb.

(** The clock: 1 June 2024, 09:30, the time of the daily job *)
Definition now : datetime := mkDatetime 2024 6 1 9 30 0 0.
Definition today : datetime := replace_midnight now.

Definition title_details (m : Movie) : string := getID m.

Definition episode (id : string) (air next : option string) : Movie :=
  mkMovie id None None air next.

Definition usa : string := String "U" (String "S" (String "A" Alert.newline)).

Definition get_movie (title_id : string) : result Movie :=
  if String.eqb title_id "tt404" then Raise IMDbError
  else if String.eqb title_id "tt200" || String.eqb title_id "tt201"
          || String.eqb title_id "tt202"
       then Ok (mkMovie title_id (Some "A Series (2020- )")
                        (Some ["1"; "2"]) None None)
       else Ok (mkMovie title_id (Some "A Film (2024)") None None None).

Definition get_movie_release_info (title_id : string)
  : result (option (list release)) :=
  if String.eqb title_id "tt001" then
    Ok (Some [ mkRelease "UK" "1 June 2024" None;
               mkRelease usa "10 June 2024" (Some "(premiere)");
               mkRelease usa "15 June 2024" None ])
  else if String.eqb title_id "tt002" then
    Ok (Some [ mkRelease usa "15 May 2024" None ])
  else if String.eqb title_id "tt031" then
    Ok (Some [ mkRelease usa "31 February 2025" None ])
  else Ok None.

Definition get_movie_episodes (title_id : string) : result (option episodes) :=
  if String.eqb title_id "tt200" then
    Ok (Some [ (2, [ (1, episode "ep201" (Some "20 May 2024") None);
                     (2, episode "ep202" None None);
                     (3, episode "ep203" (Some "10 Jun. 2024") None) ]);
               (1, [ (1, episode "ep101" (Some "3 Jan. 2023") None) ]) ])
  else if String.eqb title_id "tt201" then
    Ok (Some [ (2, [ (1, episode "ep211" (Some "20 May 2024") None);
                     (2, episode "ep212" (Some "TBA") None);
                     (3, episode "ep213" None None) ]) ])
  else if String.eqb title_id "tt202" then
    Ok (Some [ (1, [ (1, episode "ep221" (Some "20 May 2024") None);
                     (2, episode "ep222" (Some "27 May 2024") None);
                     (4, episode "ep224" (Some "30 May 2024") None) ]) ])
  else Ok None.

Definition get_episode (episode_id : string) : result Movie :=
  if String.eqb episode_id "ep301" then
    Ok (episode "ep301" (Some "1 Jun 2024") (Some "ep302"))
  else if String.eqb episode_id "ep302" then
    Ok (episode "ep302" (Some "8 Jun 2024") (Some "ep303"))
  else if String.eqb episode_id "ep303" then
    Ok (episode "ep303" None None)
  else if String.eqb episode_id "ep401" then
    Ok (episode "ep401" (Some "1 Jun 2024") (Some "ep402"))
  else if String.eqb episode_id "ep402" then
    Ok (episode "ep402" (Some "8 Jun. 2024") None)
  else if String.eqb episode_id "ep501" then
    Ok (episode "ep501" (Some "1 Jun 2024") (Some "ep502"))
  else if String.eqb episode_id "ep502" then
    Ok (episode "ep502" (Some "TBA") None)
  else if String.eqb episode_id "ep601" then
    Ok (episode "ep601" (Some "25 May 2024") (Some "ep602"))
  else if String.eqb episode_id "ep602" then
    Ok (episode "ep602" (Some "15 Jun 2024") None)
  else Raise IMDbError.

Definition api : IMDb.api :=
  mkApi get_movie get_movie_release_info get_movie_episodes get_episode.

Definition movie_row (user title : string) (d : datetime) : Db.row :=
  Db.mkRow user "Ann" title (Some "A Film (2024)") None d.

Definition episode_row (user title ep : string) (d : datetime) : Db.row :=
  Db.mkRow user "Ann" title (Some "A Series (2020- )") (Some ep) d.

End Demo.

(** ** The listings of the engine, [utils/movie.py] lines 275-301 *)

Module Listing.

Import Py Datetime IMDb Alert.

(** [sep.join(items)]; [None] when an item is not a [str], where Python
    raises TypeError *)
Fixpoint join (sep : string) (items : list (option string)) : option string :=
  match items with
  | [] => Some EmptyString
  | None :: _ => None
  | Some s :: items' =>
      match items' with
      | [] => Some s
      | _ :: _ =>
          match join sep items' with
          | Some r => Some (s ++ sep ++ r)%string
          | None => None
          end
      end
  end.

(** The decorator around a body that only reads the store: the body's
    value, or the error text when the body raised ([None]) *)
Definition caught {A : Type} (as_value : string -> A) (body : option A)
  : M A :=
  ret (match body with
       | Some v => v
       | None => as_value error_message
       end).

Definition no_alerts_message : string :=
  ("No alerts enabled." ++ newline ++ newline
   ++ "Type /help for info on enabling alerts.")%string.

Definition alerts_header : string :=
  ("<b>Alerts enabled for:</b>" ++ newline ++ newline)%string.

Definition title_name (user_id : string) : M string :=
  fun db =>
    caught id
      (let results := Db.query_title_name user_id db in
       match results with
       | [] => Some no_alerts_message
       | _ :: _ =>
           match join newline results with
           | Some text => Some (alerts_header ++ text)%string
           | None => None
           end
       end) db.

(** The list of title ids ([inl]); the error text would be [inr] *)
Definition title_id (user_id : string) : M (list string + string) :=
  catch_and_log inr
    (fun db => (Ok (inl (Db.query_title_id user_id db)), db)).

End Listing.

(** ** The bot's glue around the engine, [imdbot.py] *)

Module Bot.

Import Py Datetime IMDb Alert.

Fixpoint starts_with (p s : string) : bool :=
  match p, s with
  | EmptyString, _ => true
  | String a p', String c s' => Ascii.eqb a c && starts_with p' s'
  | String _ _, EmptyString => false
  end.

(** [p in s] for two [str] *)
Fixpoint contains (p s : string) : bool :=
  match s with
  | EmptyString => starts_with p EmptyString
  | String _ s' => starts_with p s || contains p s'
  end.

(** [s.split(sep)] for a one-character [sep] *)
Fixpoint split (sep : ascii) (s : string) : list string :=
  match s with
  | EmptyString => [EmptyString]
  | String c s' =>
      if Ascii.eqb c sep then EmptyString :: split sep s'
      else match split sep s' with
           | piece :: pieces => String c piece :: pieces
           | [] => [String c EmptyString]
           end
  end.

(** [result_id]: the random UUID text is an argument *)
Definition result_id (uuid4_str title_id : string) : string :=
  (uuid4_str ++ "-" ++ title_id)%string.

(** [context.user_data]: a dictionary from user ids to the chosen title *)
Definition user_data : Type := Z -> option string.

(** [chosen_result]: [user_data[user_id] = resultid.split('-')[-1]] *)
Definition chosen_result (resultid : string) (user_id : Z)
           (data : user_data) : user_data :=
  let title_id := last (split "-" resultid) EmptyString in
  fun k => if k =? user_id then Some title_id else data k.

Inductive button : Type :=
| EnableAlert
| DisableAlert
| Dismiss.

(** What a result shows below its text: one IMDb link button, or a row
    of callback buttons *)
Inductive reply_markup : Type :=
| UrlButton (text url : string)
| Keyboard (row : list button).

Definition imdb_url_button (title_id message : string) : reply_markup :=
  UrlButton (message ++ " (IMDb link)")%string
            ("https://www.imdb.com/title/tt" ++ title_id)%string.

(** The fields of a search result that [create_reply_markup] reads *)
Record title : Type := mkTitle {
  kind : string;
  end_year : option Z;
  year : option Z;
  id : string
}.

(** Truth value of a field that holds an [int] or [None] *)
Definition truthy_int (o : option Z) : bool :=
  match o with
  | Some n => negb (n =? 0)
  | None => false
  end.

(** [x in user_titles]: membership in the list, or, when the engine
    answered with the error text, a substring test *)
Definition in_titles (x : string) (user_titles : list string + string)
  : bool :=
  match user_titles with
  | inl titles => existsb (String.eqb x) titles
  | inr text => contains x text
  end.

Definition create_reply_markup (t : title) (current_year : Z)
           (user_titles : list string + string) : reply_markup :=
  let keyboard :=
    if in_titles (id t) user_titles
    then Keyboard [DisableAlert; Dismiss]
    else Keyboard [EnableAlert; Dismiss] in
  if contains "series" (kind t) then
    match end_year t with
    | Some y =>
        if truthy_int (end_year t)
        then imdb_url_button (id t) ("Series ended in " ++ str_of_int y)%string
        else keyboard
    | None => keyboard
    end
  else
    match year t with
    | Some y =>
        if truthy_int (year t) && (y <? current_year)
        then imdb_url_button (id t)
                             ("Movie released in " ++ str_of_int y)%string
        else keyboard
    | None => keyboard
    end.

Section Job.

Variable imdb_api : api.
Variable now : datetime.
Variable title_details : Movie -> string.

(** [context.bot.send_message(chat_id, text)]: [true] when it returns,
    [false] when it raises *)
Variable send_message : string -> string -> bool.

(** How the job ends *)
Inductive job_end : Type :=
| Returned
| Raised.

(** The [for] loop of [notify_users] over a list of alerts: the alerts
    sent, in order, up to the first send that raises *)
Fixpoint send_all (results : list alert) : list alert * job_end :=
  match results with
  | [] => ([], Returned)
  | (user_id, message) :: results' =>
      if send_message user_id message then
        let '(sent, e) := send_all results' in ((user_id, message) :: sent, e)
      else ([], Raised)
  end.

(** [notify_users]: over the error text the loop takes its first
    character, and [result[1]] raises IndexError *)
Definition notify_users (db : Db.table)
  : list alert * job_end * Db.table :=
  match notify imdb_api now title_details db with
  | (Ok (inl results), db') => (send_all results, db')
  | (Ok (inr EmptyString), db') => (([], Returned), db')
  | (Ok (inr (String _ _)), db') => (([], Raised), db')
  | (Raise _, db') => (([], Raised), db')
  end.

End Job.

End Bot.

(** ** Vocabulary of the further statements *)

Module Frame.

Import Py Datetime IMDb Alert.

(** Writes of the tick that touch the rows of the given keys only *)
Inductive writes_at (keys : list (string * string))
  : Db.table -> Db.table -> Prop :=
| at_nothing (db : Db.table) : writes_at keys db db
| at_update (e u t : string) (d : datetime) (db db' : Db.table) :
    In (u, t) keys ->
    writes_at keys (Db.update (e, d, u, t) db) db' ->
    writes_at keys db db'
| at_delete (u t : string) (db db' : Db.table) :
    In (u, t) keys ->
    writes_at keys (fst (Db.delete u t db)) db' ->
    writes_at keys db db'.

Definition due_key (row : string * string * option string)
  : string * string :=
  (fst (fst row), snd (fst row)).

Definition due_user (row : string * string * option string) : string :=
  fst (fst row).

(** The table without the rows of the given keys *)
Definition without (keys : list (string * string)) (db : Db.table)
  : Db.table :=
  filter (fun r => negb (existsb (fun k => Db.has_key (fst k) (snd k) r) keys))
         db.

(** The two ways [enable] ends: with the success text and one row of
    the caller's user, name and title appended; or with another text and
    the table as it was *)
Definition enabled_iff_written (user_id user_name title_id : string)
           (db : Db.table) (r : result string * Db.table) : Prop :=
  (fst r = Ok "Alert enabled."
   /\ exists row, snd r = db ++ [row]
                  /\ Db.user_id row = user_id
                  /\ Db.user_name row = user_name
                  /\ Db.title_id row = title_id)
  \/ ((exists s, fst r = Ok s /\ s <> "Alert enabled.") /\ snd r = db).

Definition movie_out_message (title_details : Movie -> string)
           (title_data : Movie) : string :=
  ("Movie is out!" ++ newline ++ newline ++ title_details title_data)%string.

(** A due record that is a movie record whose title IMDb returns *)
Definition movie_due (imdb_api : api)
           (row : string * string * option string) : Prop :=
  truthy (snd row) = false
  /\ exists title_data, get_movie imdb_api (snd (fst row)) = Ok title_data.

(** The "Movie is out!" alert of a due record *)
Definition movie_alert (imdb_api : api) (title_details : Movie -> string)
           (a : alert) (row : string * string * option string) : Prop :=
  fst a = due_user row
  /\ exists title_data,
       get_movie imdb_api (snd (fst row)) = Ok title_data
       /\ snd a = movie_out_message title_details title_data.

Definition finale_message (title_details : Movie -> string)
           (current_episode : Movie) : string :=
  ("Series finale episode!(alert disabled)" ++ newline ++ newline
   ++ title_details current_episode)%string.

End Frame.

(** ** A second small world, for the further statements *)

Module Demo2.

Import Py Datetime IMDb.

(** [tt300] is a series whose season 3 has aired to its last episode;
    [tt301] is a series without an episode list *)
Definition get_movie (title_id : string) : result Movie :=
  if String.eqb title_id "tt300" || String.eqb title_id "tt301"
  then Ok (mkMovie title_id (Some "Another Series (2019- )")
                   (Some ["3"]) None None)
  else Demo.get_movie title_id.

Definition get_movie_episodes (title_id : string)
  : result (option episodes) :=
  if String.eqb title_id "tt300" then
    Ok (Some [ (3, [ (1, Demo.episode "e31" (Some "13 May 2024") None);
                     (2, Demo.episode "e32" (Some "20 May. 2024") None) ]) ])
  else Ok None.

Definition api : IMDb.api :=
  mkApi get_movie Demo.get_movie_release_info get_movie_episodes
        Demo.get_episode.

(** Sends to user 2 fail *)
Definition send_message (user_id message : string) : bool :=
  negb (String.eqb user_id "2").

End Demo2.

(** ** Dates as IMDb writes them *)

Module Written.

Import Py Datetime.

Definition short_months : list string :=
  ["Jan"; "Feb"; "Mar"; "Apr"; "May"; "Jun"; "Jul";
   "Aug"; "Sep"; "Oct"; "Nov"; "Dec"].

Definition long_months : list string :=
  ["January"; "February"; "March"; "April"; "May"; "June"; "July";
   "August"; "September"; "October"; "November"; "December"].

Definition month_text (names : list string) (m : Z) : string :=
  nth (Z.to_nat (m - 1)) names EmptyString.

(** A year of four digits and its value *)
Definition year_text (a b c d : ascii) : string :=
  String a (String b (String c (String d EmptyString))).

Definition year_value (a b c d : ascii) : Z :=
  1000 * digit_val a + 100 * digit_val b + 10 * digit_val c + digit_val d.

(** Day, month name, an optional mark after it, year *)
Definition written (d : Z) (month mark : string) (a b c e : ascii)
  : string :=
  (str_of_int d ++ String " " (month ++ mark ++ String " " (year_text a b c e)))%string.

Fixpoint all_chars (cls : ascii -> bool) (s : string) : bool :=
  match s with
  | EmptyString => true
  | String c s' => cls c && all_chars cls s'
  end.

End Written.

(** ** A third small world: a current episode written with a period *)

Module Demo3.

Import Py Datetime IMDb.

(** [ep701] aired on the day of the clock and IMDb writes its date with a
    period after the month; its next episode has no date yet *)
Definition get_episode (episode_id : string) : result Movie :=
  if String.eqb episode_id "ep701" then
    Ok (Demo.episode "ep701" (Some "1 Jun. 2024") (Some "ep702"))
  else if String.eqb episode_id "ep702" then
    Ok (Demo.episode "ep702" (Some "TBA") None)
  else Demo.get_episode episode_id.

Definition api : IMDb.api :=
  mkApi Demo.get_movie Demo.get_movie_release_info Demo.get_movie_episodes
        get_episode.

(** Three records due on the day of the clock: a movie record, the
    record of user 7 for an episode of a series, a movie record *)
Definition tick_table (title_id episode_id : string) : Db.table :=
  [ Demo.movie_row "1" "tt001" Demo.today;
    Demo.episode_row "7" title_id episode_id Demo.today;
    Demo.movie_row "3" "tt002" Demo.today ].

Definition movie_out (user_id title_id : string) : Alert.alert :=
  (user_id, ("Movie is out!" ++ Alert.newline ++ Alert.newline
             ++ title_id)%string).

End Demo3.

(** ** Vocabulary of the further calendar lemmas *)

Module Calendar.

Import Datetime.

(** The date of ordinal [n] is a day of a month of one of the first four
    hundred years *)
Definition in_calendar_at (n : Z) : bool :=
  let '(y, m, d) := ord2ymd n in
  (1 <=? y) && (y <=? 400) && (1 <=? m) && (m <=? 12)
  && (1 <=? d) && (d <=? days_in_month y m).

(** The day of the year, from 1 *)
Definition day_of_year (y m d : Z) : Z := days_before_month y m + d.

Definition days_in_year (y : Z) : Z := if is_leap y then 366 else 365.

End Calendar.

Import Py Datetime IMDb Alert.

(** * Date resolution *)

Lemma strptime_dmy_ok (names : list string) (s : string) (d : datetime) :
  strptime_dmy names s = Ok d ->
  at_midnight d = true
  /\ valid_date (year d) (month d) (day d) = true.
Proof.
  unfold strptime_dmy.
  destruct (strptime_match names s) as [[[[dd m] y] r]|]; [|discriminate].
  destruct r; [|discriminate].
  destruct (valid_date y m dd) eqn:V; [|discriminate].
  intros H; injection H as <-. split; [reflexivity | exact V].
Qed.

Lemma movie_date_not_found (s : string) :
  Re.matches Re.movie_date_regex s = false -> movie_date s = None.
Proof. unfold movie_date. intros ->. reflexivity. Qed.

Lemma movie_date_checked_first (s : string) (r : result datetime) :
  movie_date s = Some r ->
  Re.matches Re.movie_date_regex s = true /\ r = strptime_d_B_Y s.
Proof.
  unfold movie_date. destruct (Re.matches Re.movie_date_regex s).
  - intros H; injection H as <-. split; reflexivity.
  - discriminate.
Qed.

Lemma usable_some (rx : list Re.item) (v : option string) (s : string) :
  usable rx v = Some s <->
  v = Some s /\ truthy_str s = true /\ Re.matches rx s = true.
Proof.
  unfold usable. destruct v as [t|].
  - destruct (truthy_str t) eqn:T, (Re.matches rx t) eqn:R; simpl; split.
    all: try discriminate.
    + intros H; injection H as <-. auto.
    + intros (H & _); injection H as <-. reflexivity.
    + intros (H & _ & H'); injection H as <-. congruence.
    + intros (H & H' & _); injection H as <-. congruence.
    + intros (H & H' & _); injection H as <-. congruence.
  - split; [discriminate | intros (H & _); discriminate].
Qed.

Lemma usable_none (rx : list Re.item) (v : option string) :
  usable rx v = None <->
  v = None \/ exists s, v = Some s /\
                        (truthy_str s = false \/ Re.matches rx s = false).
Proof.
  unfold usable. destruct v as [t|].
  - destruct (truthy_str t) eqn:T, (Re.matches rx t) eqn:R; simpl; split.
    all: try discriminate; eauto.
    intros [H | (s & H & [H' | H'])]; [discriminate | injection H as <- ..];
      congruence.
  - split; auto.
Qed.

Lemma episode_date_not_found (v : option string) :
  usable Re.episode_date_regex v = None ->
  episode_date v = None /\ next_episode_date v = None.
Proof.
  unfold episode_date, next_episode_date. intros ->. split; reflexivity.
Qed.

(** C8: ["15 June 2024"] resolves to 2024-06-15 in the long-month family
    (the movie path), ["12 Jun 2024"] resolves to 2024-06-12 in the
    short-month family (the series path and the tick), and ["TBA"] is not
    found in either family. *)
Theorem C8_date_resolver_scenarios :
  movie_date "15 June 2024" = Some (Ok (mkDatetime 2024 6 15 0 0 0 0))
  /\ episode_date (Some "12 Jun 2024")
     = Some ("12 Jun 2024", Ok (mkDatetime 2024 6 12 0 0 0 0))
  /\ next_episode_date (Some "12 Jun 2024")
     = Some (Ok (mkDatetime 2024 6 12 0 0 0 0))
  /\ movie_date "TBA" = None
  /\ episode_date (Some "TBA") = None
  /\ next_episode_date (Some "TBA") = None.
Proof. repeat split; vm_compute; reflexivity. Qed.

(** The check turns malformed text away before the strict parser sees it *)
Example malformed_text_not_found :
  movie_date "" = None /\ movie_date "June 2024" = None
  /\ episode_date (Some "") = None /\ episode_date None = None
  /\ next_episode_date (Some "Jun 2024") = None.
Proof. repeat split; vm_compute; reflexivity. Qed.

(** C6: the pattern check does not keep every unparsable text from the
    strict parser. A date that is not in the calendar, a short month name
    on the movie path, a long one on the series path and a month followed
    by a period on the tick all pass the check and make [strptime] raise;
    on the subscribe path the decorator then answers with the error text. *)
Theorem C6_checked_text_can_fail_to_parse :
  Re.matches Re.movie_date_regex "31 February 2025" = true
  /\ movie_date "31 February 2025" = Some (Raise ValueError)
  /\ movie_date "12 Jun 2024" = Some (Raise ValueError)
  /\ episode_date (Some "12 June 2024")
     = Some ("12 June 2024", Raise ValueError)
  /\ episode_date (Some "8 Jun. 2024")
     = Some ("8 Jun 2024", Ok (mkDatetime 2024 6 8 0 0 0 0))
  /\ next_episode_date (Some "8 Jun. 2024") = Some (Raise ValueError)
  /\ enable Demo.api Demo.now "42" "Ann" "tt031" [] = (Ok error_message, []).
Proof. repeat split; vm_compute; reflexivity. Qed.

(** * The decorator *)

Lemma catch_and_log_returns {A : Type} (as_value : string -> A) (m : M A)
      (db : Db.table) :
  exists a, fst (catch_and_log as_value m db) = Ok a.
Proof.
  unfold catch_and_log. destruct (m db) as [[a|e] db']; simpl; eauto.
Qed.

Lemma catch_and_log_store {A : Type} (as_value : string -> A) (m : M A)
      (db : Db.table) :
  snd (catch_and_log as_value m db) = snd (m db).
Proof.
  unfold catch_and_log. destruct (m db) as [[a|e] db']; reflexivity.
Qed.

Lemma catch_and_log_of_ok {A : Type} (as_value : string -> A) (m : M A)
      (db db' : Db.table) (a : A) :
  m db = (Ok a, db') -> catch_and_log as_value m db = (Ok a, db').
Proof. unfold catch_and_log. intros ->. reflexivity. Qed.

Lemma catch_and_log_of_raise {A : Type} (as_value : string -> A) (m : M A)
      (db db' : Db.table) (e : exn) :
  m db = (Raise e, db') ->
  catch_and_log as_value m db = (Ok (as_value error_message), db').
Proof. unfold catch_and_log. intros ->. reflexivity. Qed.

(** No operation of the engine lets an exception out. *)
Lemma engine_never_raises (imdb_api : api) (now : datetime)
      (title_details : Movie -> string) (db : Db.table) :
  (forall u n t, exists s, fst (enable imdb_api now u n t db) = Ok s)
  /\ (forall u t, exists s, fst (disable u t db) = Ok s)
  /\ (exists r, fst (notify imdb_api now title_details db) = Ok r).
Proof.
  repeat split; intros; apply catch_and_log_returns.
Qed.

(** * The unsubscribe path *)

Lemma filter_idempotent {A : Type} (f : A -> bool) (l : list A) :
  filter f (filter f l) = filter f l.
Proof.
  induction l as [|a l IH]; simpl; [reflexivity|].
  destruct (f a) eqn:E; simpl; [rewrite E, IH|]; auto.
Qed.

Lemma filter_none {A : Type} (f : A -> bool) (l : list A) :
  filter f (filter (fun a => negb (f a)) l) = [].
Proof.
  induction l as [|a l IH]; simpl; [reflexivity|].
  destruct (f a) eqn:E; simpl; [|rewrite E]; auto.
Qed.

Lemma disable_run (user_id title_id : string) (db : Db.table) :
  disable user_id title_id db
  = (Ok "Alert disabled.",
     filter (fun r => negb (Db.has_key user_id title_id r)) db).
Proof. reflexivity. Qed.

(** C9: on every store, [disable] returns its confirmation and leaves the
    table without the rows of the key; a lookup of the key then finds
    nothing, and a second [disable] returns the confirmation again and
    changes nothing. *)
Theorem C9_disable_idempotent_total (user_id title_id : string)
        (db : Db.table) :
  let db' := snd (disable user_id title_id db) in
  fst (disable user_id title_id db) = Ok "Alert disabled."
  /\ db' = filter (fun r => negb (Db.has_key user_id title_id r)) db
  /\ Db.query_user_alert user_id title_id db' = None
  /\ disable user_id title_id db' = (Ok "Alert disabled.", db').
Proof.
  cbv zeta. rewrite !disable_run. cbn [fst snd].
  repeat split.
  - unfold Db.query_user_alert. now rewrite filter_none.
  - now rewrite filter_idempotent.
Qed.

(** * The subscribe path: movies *)

(** C4: for a title without seasons whose first USA entry without notes
    passes the pattern check and parses to [release_date], [enable] appends
    exactly one row, with no episode id and with [release_date], and
    returns the success text when [release_date] is later than the clock;
    otherwise it leaves the table as it is and returns
    ["Released on <date> in USA"]. *)
Theorem C4_movie_subscription
        (imdb_api : api) (now : datetime)
        (user_id user_name title_id : string) (db : Db.table)
        (imdb_data : Movie) (release_dates : list release)
        (date0 : string) (others : list string) (release_date : datetime) :
  get_movie imdb_api title_id = Ok imdb_data ->
  seasons imdb_data = None \/ seasons imdb_data = Some [] ->
  get_movie_release_info imdb_api title_id = Ok (Some release_dates) ->
  usa_release_date release_dates = date0 :: others ->
  Re.matches Re.movie_date_regex date0 = true ->
  strptime_d_B_Y date0 = Ok release_date ->
  enable imdb_api now user_id user_name title_id db
  = if gtb release_date now
    then (Ok "Alert enabled.",
          db ++ [Db.mkRow user_id user_name title_id
                          (long_imdb_title imdb_data) None release_date])
    else (Ok ("Released on " ++ date0 ++ " in USA")%string, db).
Proof.
  intros Hmovie Hseasons Hinfo Husa Hcheck Hparse.
  assert (Hinner :
    _get_movie_release_date imdb_api now user_id user_name title_id
                            (long_imdb_title imdb_data) db
    = if gtb release_date now
      then (Ok "Alert enabled.",
            db ++ [Db.mkRow user_id user_name title_id
                            (long_imdb_title imdb_data) None release_date])
      else (Ok ("Released on " ++ date0 ++ " in USA")%string, db)).
  { unfold _get_movie_release_date, catch_and_log, bind, call.
    rewrite Hinfo.
    destruct release_dates as [|r0 rs]; [discriminate Husa|].
    rewrite Husa. unfold movie_date. rewrite Hcheck, Hparse.
    destruct (gtb release_date now); reflexivity. }
  unfold enable, catch_and_log, bind, call. rewrite Hmovie.
  destruct Hseasons as [-> | ->]; rewrite Hinner;
    destruct (gtb release_date now); reflexivity.
Qed.

Lemma C4_movie_subscription_witness :
  enable Demo.api Demo.now "42" "Ann" "tt001" []
  = (Ok "Alert enabled.",
     [Db.mkRow "42" "Ann" "tt001" (Some "A Film (2024)") None
               (mkDatetime 2024 6 15 0 0 0 0)])
  /\ enable Demo.api Demo.now "42" "Ann" "tt002" []
     = (Ok "Released on 15 May 2024 in USA", []).
Proof.
  split.
  - apply (C4_movie_subscription Demo.api Demo.now "42" "Ann" "tt001" []
             (mkMovie "tt001" (Some "A Film (2024)") None None None)
             [ mkRelease "UK" "1 June 2024" None;
               mkRelease Demo.usa "10 June 2024" (Some "(premiere)");
               mkRelease Demo.usa "15 June 2024" None ]
             "15 June 2024" [] (mkDatetime 2024 6 15 0 0 0 0));
      solve [reflexivity | left; reflexivity].
  - apply (C4_movie_subscription Demo.api Demo.now "42" "Ann" "tt002" []
             (mkMovie "tt002" (Some "A Film (2024)") None None None)
             [ mkRelease Demo.usa "15 May 2024" None ]
             "15 May 2024" [] (mkDatetime 2024 5 15 0 0 0 0));
      solve [reflexivity | left; reflexivity].
Defined.

(** * The subscribe path: series *)

Section EpisodeScan.

Variable now : datetime.
Variables user_id user_name title_id : string.
Variable title_name : option string.
Variables current_season len : Z.

Let scan := episode_loop now user_id user_name title_id title_name
                         current_season len.

(** An unusable episode only sets the pending text; the scan goes on. *)
Lemma episode_loop_unusable (item : Z * Movie) (items : list (Z * Movie))
      (message : option string) (db : Db.table) :
  unusable item = true ->
  scan (item :: items) message db = scan items (Some unable_message) db.
Proof.
  unfold unusable, scan. destruct item as [ep_no ep_data]. simpl.
  destruct (episode_date (original_air_date ep_data)); [discriminate|].
  reflexivity.
Qed.

Lemma episode_loop_passed_over (items : list (Z * Movie))
      (message : string) (db : Db.table) :
  Forall (fun i => passed_over now len i = true) items ->
  scan items (Some message) db = (Ok message, db)
  \/ scan items (Some message) db = (Ok unable_message, db).
Proof.
  intros H. revert message. induction H as [|item items Hitem _ IH].
  - intros message. left. reflexivity.
  - intros message. destruct item as [ep_no ep_data].
    unfold passed_over in Hitem. unfold scan in *. simpl in *.
    destruct (episode_date (original_air_date ep_data))
      as [[text [release_date|e]]|]; try discriminate.
    + apply andb_prop in Hitem as [Hlt Hno].
      unfold bind, call. rewrite Hlt.
      destruct (ep_no =? len); [discriminate|]. apply IH.
    + right. destruct (IH unable_message) as [H | H]; exact H.
Qed.

Lemma episode_loop_prefix (before items : list (Z * Movie))
      (message : option string) (db : Db.table) :
  Forall (fun i => passed_over now len i = true) before ->
  exists message',
    scan (before ++ items) message db = scan items message' db.
Proof.
  intros H. revert message. induction H as [|item before Hitem _ IH].
  - intros message. exists message. reflexivity.
  - intros message. destruct item as [ep_no ep_data].
    unfold passed_over in Hitem. unfold scan in *. simpl in *.
    destruct (episode_date (original_air_date ep_data))
      as [[text [release_date|e]]|]; try discriminate.
    + apply andb_prop in Hitem as [Hlt Hno].
      unfold bind, call. rewrite Hlt.
      destruct (ep_no =? len); [discriminate|]. apply IH.
    + apply IH.
Qed.

Lemma episode_loop_unable (before after : list (Z * Movie))
      (bad : Z * Movie) (message : option string) (db : Db.table) :
  Forall (fun i => passed_over now len i = true) before ->
  unusable bad = true ->
  Forall (fun i => passed_over now len i = true) after ->
  scan (before ++ bad :: after) message db = (Ok unable_message, db).
Proof.
  intros Hbefore Hbad Hafter.
  destruct (episode_loop_prefix before (bad :: after) message db Hbefore)
    as [message' ->].
  rewrite episode_loop_unusable by exact Hbad.
  destruct (episode_loop_passed_over after unable_message db Hafter)
    as [-> | ->]; reflexivity.
Qed.

End EpisodeScan.

(** A season whose episodes have all aired and none of which is numbered
    as the last leaves [message] unbound; the decorator answers. *)
Example enable_unbound_message :
  enable Demo.api Demo.now "42" "Ann" "tt202" [] = (Ok error_message, []).
Proof. vm_compute. reflexivity. Qed.

(** The decorator around a decorated computation changes nothing. *)
Lemma catch_and_log_twice {A : Type} (as_value : string -> A) (m : M A)
      (db : Db.table) :
  catch_and_log as_value (catch_and_log as_value m) db
  = catch_and_log as_value m db.
Proof. unfold catch_and_log. destruct (m db) as [[a|e] db']; reflexivity. Qed.

(** [enable] on a series with an episode map is the decorated scan of
    the current season. *)
Lemma enable_is_the_scan (imdb_api : api) (now : datetime)
      (user_id user_name title_id : string) (db : Db.table)
      (imdb_data : Movie) (season : string) (more_seasons : list string)
      (current_season : Z) (latest_episodes : list (Z * Movie))
      (older : episodes) :
  get_movie imdb_api title_id = Ok imdb_data ->
  seasons imdb_data = Some (season :: more_seasons) ->
  get_movie_episodes imdb_api title_id
  = Ok (Some ((current_season, latest_episodes) :: older)) ->
  enable imdb_api now user_id user_name title_id db
  = catch_and_log id
      (episode_loop now user_id user_name title_id
                    (long_imdb_title imdb_data) current_season
                    (Z.of_nat (List.length latest_episodes))
                    latest_episodes None) db.
Proof.
  intros Hmovie Hseasons Hepisodes.
  unfold enable.
  rewrite <- (catch_and_log_twice id
                (episode_loop now user_id user_name title_id
                              (long_imdb_title imdb_data) current_season
                              (Z.of_nat (List.length latest_episodes))
                              latest_episodes None) db).
  unfold catch_and_log at 1 3, bind at 1, call at 1.
  rewrite Hmovie, Hseasons.
  unfold _get_episode_release_date, catch_and_log at 1 2,
    bind at 1, call at 1.
  rewrite Hepisodes. reflexivity.
Qed.

(** C1, as the code has it: an episode without a usable air date does not
    end the scan of the current season; it only sets the pending status
    and the scan goes on with the later episodes. For a season that holds
    such an episode after episodes the scan passes over: what [enable]
    answers and writes is what the scan of the later episodes answers and
    writes, started with the pending status "Unable to get episode release
    date"; so when a later episode is the first whose air date is not
    before the clock, [enable] subscribes to that episode; and when every
    later episode is passed over too (unusable, or aired and not numbered
    as the last), [enable] returns the "unable" status and writes
    nothing. *)
Theorem C1_unusable_episode_is_skipped
        (imdb_api : api) (now : datetime)
        (user_id user_name title_id : string) (db : Db.table)
        (imdb_data : Movie) (season : string) (more_seasons : list string)
        (current_season : Z) (before after : list (Z * Movie))
        (bad : Z * Movie) (older : episodes) :
  let latest_episodes := before ++ bad :: after in
  let len := Z.of_nat (List.length latest_episodes) in
  get_movie imdb_api title_id = Ok imdb_data ->
  seasons imdb_data = Some (season :: more_seasons) ->
  get_movie_episodes imdb_api title_id
  = Ok (Some ((current_season, latest_episodes) :: older)) ->
  Forall (fun i => passed_over now len i = true) before ->
  unusable bad = true ->
  enable imdb_api now user_id user_name title_id db
  = catch_and_log id
      (episode_loop now user_id user_name title_id
                    (long_imdb_title imdb_data) current_season len
                    after (Some unable_message)) db
  /\ (forall (mid rest : list (Z * Movie)) (ep_no : Z) (ep_data : Movie)
             (text : string) (release_date : datetime),
        after = mid ++ (ep_no, ep_data) :: rest ->
        Forall (fun i => passed_over now len i = true) mid ->
        episode_date (original_air_date ep_data)
        = Some (text, Ok release_date) ->
        ltb release_date now = false ->
        enable imdb_api now user_id user_name title_id db
        = (Ok "Alert enabled.",
           db ++ [Db.mkRow user_id user_name title_id
                           (long_imdb_title imdb_data)
                           (Some (getID ep_data)) release_date]))
  /\ (Forall (fun i => passed_over now len i = true) after ->
      enable imdb_api now user_id user_name title_id db
      = (Ok unable_message, db)).
Proof.
  intros latest_episodes len. subst latest_episodes len.
  set (len := Z.of_nat (List.length (before ++ bad :: after))).
  intros Hmovie Hseasons Hepisodes Hbefore Hbad.
  assert (Hscan :
    enable imdb_api now user_id user_name title_id db
    = catch_and_log id
        (episode_loop now user_id user_name title_id
                      (long_imdb_title imdb_data) current_season len
                      after (Some unable_message)) db).
  { rewrite (enable_is_the_scan imdb_api now user_id user_name title_id db
               imdb_data season more_seasons current_season
               (before ++ bad :: after) older Hmovie Hseasons Hepisodes).
    fold len. unfold catch_and_log.
    destruct (episode_loop_prefix now user_id user_name title_id
                (long_imdb_title imdb_data) current_season len before
                (bad :: after) None db Hbefore) as [message ->].
    now rewrite episode_loop_unusable by exact Hbad. }
  split; [exact Hscan|]. split.
  - intros mid rest ep_no ep_data text release_date -> Hmid Hdate Hupcoming.
    rewrite Hscan. apply catch_and_log_of_ok.
    destruct (episode_loop_prefix now user_id user_name title_id
                (long_imdb_title imdb_data) current_season len mid
                ((ep_no, ep_data) :: rest) (Some unable_message) db Hmid)
      as [message ->].
    cbn [episode_loop]. rewrite Hdate. unfold bind, call.
    rewrite Hupcoming. reflexivity.
  - intros Hafter. rewrite Hscan. apply catch_and_log_of_ok.
    destruct (episode_loop_passed_over now user_id user_name title_id
                (long_imdb_title imdb_data) current_season len after
                unable_message db Hafter) as [H | H]; exact H.
Qed.

Lemma C1_unusable_episode_is_skipped_witness :
  enable Demo.api Demo.now "42" "Ann" "tt201" [] = (Ok unable_message, [])
  /\ enable Demo.api Demo.now "42" "Ann" "tt200" []
     = (Ok "Alert enabled.",
        [Db.mkRow "42" "Ann" "tt200" (Some "A Series (2020- )")
                  (Some "ep203") (mkDatetime 2024 6 10 0 0 0 0)]).
Proof.
  split.
  - apply (C1_unusable_episode_is_skipped Demo.api Demo.now "42" "Ann" "tt201"
             [] (mkMovie "tt201" (Some "A Series (2020- )")
                         (Some ["1"; "2"]) None None)
             "1" ["2"] 2
             [(1, Demo.episode "ep211" (Some "20 May 2024") None)]
             [(3, Demo.episode "ep213" None None)]
             (2, Demo.episode "ep212" (Some "TBA") None) []);
      try reflexivity; repeat constructor.
  - apply (proj1 (proj2
             (C1_unusable_episode_is_skipped
                Demo.api Demo.now "42" "Ann" "tt200"
                [] (mkMovie "tt200" (Some "A Series (2020- )")
                            (Some ["1"; "2"]) None None)
                "1" ["2"] 2
                [(1, Demo.episode "ep201" (Some "20 May 2024") None)]
                [(3, Demo.episode "ep203" (Some "10 Jun. 2024") None)]
                (2, Demo.episode "ep202" None None)
                [(1, [(1, Demo.episode "ep101" (Some "3 Jan. 2023") None)])]
                eq_refl eq_refl eq_refl
                (Forall_cons
                   (1, Demo.episode "ep201" (Some "20 May 2024") None)
                   eq_refl (Forall_nil _))
                eq_refl))
             [] [] 3 (Demo.episode "ep203" (Some "10 Jun. 2024") None)
             "10 Jun 2024" (mkDatetime 2024 6 10 0 0 0 0)
             eq_refl (Forall_nil _) eq_refl eq_refl).
Defined.

(** The claim as written fails: in season 2 of [tt200] the second episode
    has no air date and comes before the only future-dated episode, and
    [enable] still reaches the third episode and subscribes to it. *)
Lemma C1_counterexample :
  get_movie_episodes Demo.api "tt200"
  = Ok (Some [ (2, [ (1, Demo.episode "ep201" (Some "20 May 2024") None);
                     (2, Demo.episode "ep202" None None);
                     (3, Demo.episode "ep203" (Some "10 Jun. 2024") None) ]);
               (1, [ (1, Demo.episode "ep101" (Some "3 Jan. 2023") None) ]) ])
  /\ unusable (2, Demo.episode "ep202" None None) = true
  /\ enable Demo.api Demo.now "42" "Ann" "tt200" []
     = (Ok "Alert enabled.",
        [Db.mkRow "42" "Ann" "tt200" (Some "A Series (2020- )")
                  (Some "ep203") (mkDatetime 2024 6 10 0 0 0 0)])
  /\ enable Demo.api Demo.now "42" "Ann" "tt200" []
     <> (Ok unable_message, []).
Proof.
  repeat split; try (vm_compute; reflexivity).
  vm_compute. discriminate.
Qed.

(** * Calendar arithmetic *)

Lemma holds_from_spec (p : Z -> bool) (fuel : nat) (z : Z) :
  holds_from p fuel z = true ->
  forall k, z <= k < z + Z.of_nat fuel -> p k = true.
Proof.
  revert z. induction fuel as [|fuel IH]; intros z H k Hk.
  - simpl in Hk. lia.
  - simpl in H. apply andb_prop in H as [Hz Hrest].
    destruct (Z.eq_dec k z) as [->|Hne]; [exact Hz|].
    apply (IH (z + 1) Hrest). lia.
Qed.

Lemma is_leap_period (y k : Z) : is_leap (y + 400 * k) = is_leap y.
Proof.
  unfold is_leap.
  replace (y + 400 * k) with (y + (100 * k) * 4) at 1 by ring.
  replace (y + 400 * k) with (y + (4 * k) * 100) at 1 by ring.
  replace (y + 400 * k) with (y + k * 400) by ring.
  rewrite !Z_mod_plus_full. reflexivity.
Qed.

Lemma days_before_year_period (y k : Z) :
  days_before_year (y + 400 * k) = days_before_year y + DI400Y * k.
Proof.
  unfold days_before_year, DI400Y. cbv zeta.
  replace (y + 400 * k - 1) with (y - 1 + (100 * k) * 4) at 2 by ring.
  replace (y + 400 * k - 1) with (y - 1 + (4 * k) * 100) at 2 by ring.
  replace (y + 400 * k - 1) with (y - 1 + k * 400) at 2 by ring.
  rewrite !Z_div_plus_full by lia. ring.
Qed.

Lemma ymd2ord_period (y m d k : Z) :
  ymd2ord (y + 400 * k) m d = ymd2ord y m d + DI400Y * k.
Proof.
  unfold ymd2ord, days_before_month.
  rewrite days_before_year_period, is_leap_period. ring.
Qed.

Lemma ord2ymd_period (n : Z) :
  ord2ymd n
  = shift_years ((n - 1) / DI400Y) (ord2ymd ((n - 1) mod DI400Y + 1)).
Proof.
  assert (Hr : 0 <= (n - 1) mod DI400Y < DI400Y)
    by (apply Z.mod_pos_bound; reflexivity).
  unfold ord2ymd. cbv zeta.
  replace ((n - 1) mod DI400Y + 1 - 1) with ((n - 1) mod DI400Y) by ring.
  rewrite (Z.div_small ((n - 1) mod DI400Y) DI400Y) by exact Hr.
  rewrite (Z.mod_small ((n - 1) mod DI400Y) DI400Y) by exact Hr.
  set (r := (n - 1) mod DI400Y).
  set (q := (n - 1) / DI400Y).
  destruct ((r mod DI100Y mod DI4Y / 365 =? 4) || (r / DI100Y =? 4)).
  - unfold shift_years. f_equal. f_equal. ring.
  - match goal with
    | |- context [if ?c then _ else _] => destruct c
    end; unfold shift_years; f_equal; f_equal; ring.
Qed.

Lemma roundtrip_first_cycle :
  holds_from roundtrip_at (Z.to_nat DI400Y) 1 = true.
Proof. vm_compute. reflexivity. Qed.

(** The date of an ordinal has that ordinal. *)
Lemma ymd2ord_ord2ymd (n : Z) : ordinal_of (ord2ymd n) = n.
Proof.
  assert (Hr : 0 <= (n - 1) mod DI400Y < DI400Y)
    by (apply Z.mod_pos_bound; reflexivity).
  rewrite ord2ymd_period.
  pose proof (holds_from_spec roundtrip_at (Z.to_nat DI400Y) 1
                roundtrip_first_cycle ((n - 1) mod DI400Y + 1)) as Hbase.
  unfold roundtrip_at in Hbase.
  destruct (ord2ymd ((n - 1) mod DI400Y + 1)) as [[y m] d].
  unfold shift_years, ordinal_of in *.
  rewrite ymd2ord_period.
  rewrite Z2Nat.id in Hbase by (unfold DI400Y; lia).
  apply Z.eqb_eq in Hbase; [|lia]. rewrite Hbase.
  pose proof (Z.div_mod (n - 1) DI400Y ltac:(unfold DI400Y; lia)). lia.
Qed.

(** Adding days moves the ordinal by that many days and keeps the time. *)
Lemma add_days_ordinal (d d' : datetime) (n : Z) :
  add_days d n = Ok d' -> toordinal d' = toordinal d + n.
Proof.
  unfold add_days. cbv zeta.
  destruct ((0 <? toordinal d + n) && (toordinal d + n <=? MAXORDINAL));
    [|discriminate].
  pose proof (ymd2ord_ord2ymd (toordinal d + n)) as H.
  destruct (ord2ymd (toordinal d + n)) as [[y m] dd].
  intros E; injection E as <-. exact H.
Qed.

(** Truncating to the day and adding days commute. *)
Lemma add_days_midnight (d d' : datetime) (n : Z) :
  add_days d n = Ok d' ->
  add_days (replace_midnight d) n = Ok (replace_midnight d').
Proof.
  unfold add_days, toordinal. cbn [year month day hour minute second
                                    microsecond replace_midnight].
  destruct ((0 <? ymd2ord (year d) (month d) (day d) + n)
            && (ymd2ord (year d) (month d) (day d) + n <=? MAXORDINAL));
    [|discriminate].
  destruct (ord2ymd (ymd2ord (year d) (month d) (day d) + n)) as [[y m] dd].
  intros E; injection E as <-. reflexivity.
Qed.

Lemma index_days_before_month_bounds (m : Z) :
  1 <= m <= 12 -> 0 <= index DAYS_BEFORE_MONTH m <= 334.
Proof.
  intros H.
  assert (m = 1 \/ m = 2 \/ m = 3 \/ m = 4 \/ m = 5 \/ m = 6 \/ m = 7
          \/ m = 8 \/ m = 9 \/ m = 10 \/ m = 11 \/ m = 12) as Hm by lia.
  repeat (destruct Hm as [-> | Hm]; [vm_compute; split; discriminate|]).
  subst m. vm_compute; split; discriminate.
Qed.

Lemma days_in_month_le (y m : Z) : days_in_month y m <= 31.
Proof.
  unfold days_in_month.
  destruct ((m =? 2) && is_leap y); [lia|].
  unfold index, DAYS_IN_MONTH.
  destruct (Z.to_nat m) as [|[|[|[|[|[|[|[|[|[|[|[|[|k]]]]]]]]]]]]];
    simpl; try lia.
  destruct k; simpl; lia.
Qed.

(** A week from any date before the year 9999 is a date. *)
Lemma add_days_week_defined (d : datetime) :
  valid_date (year d) (month d) (day d) = true ->
  year d < 9999 ->
  exists d', add_days d 7 = Ok d'.
Proof.
  intros Hvalid Hyear. unfold valid_date in Hvalid.
  repeat (apply andb_prop in Hvalid as [Hvalid ?]).
  repeat match goal with
         | H : (_ <=? _) = true |- _ => apply Z.leb_le in H
         end.
  assert (Hord : 1 <= toordinal d <= MAXORDINAL - 7).
  { unfold toordinal, ymd2ord, days_before_month, days_before_year, MAXORDINAL.
    pose proof (index_days_before_month_bounds (month d) ltac:(lia)).
    pose proof (days_in_month_le (year d) (month d)).
    cbv zeta.
    destruct ((2 <? month d) && is_leap (year d));
      Z.div_mod_to_equations; lia. }
  unfold add_days. cbv zeta.
  replace ((0 <? toordinal d + 7) && (toordinal d + 7 <=? MAXORDINAL))
    with true by (symmetry; apply andb_true_intro; split; lia).
  destruct (ord2ymd (toordinal d + 7)) as [[y m] dd]. eauto.
Qed.

(** * The store *)

Lemma db_update_keys (e u t : string) (d : datetime) (db : Db.table) :
  map Db.key (Db.update (e, d, u, t) db) = map Db.key db.
Proof.
  unfold Db.update. rewrite map_map. apply map_ext.
  intros r. destruct (Db.has_key u t r); reflexivity.
Qed.

Lemma db_update_row (e u t : string) (d : datetime) (db : Db.table)
        (r : Db.row) :
  In r (Db.update (e, d, u, t) db) ->
  Db.has_key u t r = true ->
  Db.title_episode_id r = Some e /\ Db.title_release r = d.
Proof.
  unfold Db.update. intros Hin Hkey.
  apply in_map_iff in Hin as (r0 & <- & _).
  destruct (Db.has_key u t r0) eqn:E; [split; reflexivity | congruence].
Qed.

Lemma db_update_present (e u t : string) (d : datetime) (db : Db.table)
        (r : Db.row) :
  In r db ->
  Db.has_key u t r = true ->
  In (Db.mkRow (Db.user_id r) (Db.user_name r) (Db.title_id r)
               (Db.title_name r) (Some e) d)
     (Db.update (e, d, u, t) db).
Proof.
  unfold Db.update. intros Hin Hkey. apply in_map_iff.
  exists r. rewrite Hkey. auto.
Qed.

(** * Running computations on the store *)

Lemma bind_ok {A B : Type} (m : M A) (f : A -> M B) (db db' : Db.table)
      (a : A) :
  m db = (Ok a, db') -> bind m f db = f a db'.
Proof. unfold bind. intros ->. reflexivity. Qed.

Lemma bind_raise {A B : Type} (m : M A) (f : A -> M B) (db db' : Db.table)
      (e : exn) :
  m db = (Raise e, db') -> bind m f db = (Raise e, db').
Proof. unfold bind. intros ->. reflexivity. Qed.

Lemma bind_assoc {A B C : Type} (m : M A) (f : A -> M B) (g : B -> M C)
      (db : Db.table) :
  bind (bind m f) g db = bind m (fun a => bind (f a) g) db.
Proof. unfold bind. destruct (m db) as [[a|e] db']; reflexivity. Qed.

Lemma bind_ext {A B : Type} (m : M A) (f g : A -> M B) (db : Db.table) :
  (forall a db', f a db' = g a db') -> bind m f db = bind m g db.
Proof.
  intros H. unfold bind. destruct (m db) as [[a|e] db']; [apply H|reflexivity].
Qed.

(** * The daily tick *)

Section Tick.

Variable imdb_api : api.
Variable now : datetime.
Variable title_details : Movie -> string.

Let today := replace_midnight now.
Let row_step := notify_row imdb_api now title_details today.
Let loop := notify_loop imdb_api now title_details today.

Lemma notify_loop_app (before after : list (string * string * option string))
      (alerts : list alert) (db : Db.table) :
  loop (before ++ after) alerts db
  = bind (loop before alerts) (fun alerts' => loop after alerts') db.
Proof.
  revert alerts db. induction before as [|row before IH]; intros alerts db.
  - reflexivity.
  - unfold loop in *. simpl. rewrite bind_assoc. apply bind_ext.
    intros alerts' db'. apply IH.
Qed.

(** The loop stops at the first record whose processing raises. *)
Lemma notify_loop_raise (before after : list (string * string * option string))
      (row : string * string * option string)
      (alerts alerts1 : list alert) (db db1 db2 : Db.table) (e : exn) :
  loop before alerts db = (Ok alerts1, db1) ->
  row_step row alerts1 db1 = (Raise e, db2) ->
  loop (before ++ row :: after) alerts db = (Raise e, db2).
Proof.
  intros Hbefore Hrow. rewrite notify_loop_app.
  rewrite (bind_ok _ _ _ _ _ Hbefore). unfold loop. simpl.
  apply bind_raise. exact Hrow.
Qed.

(** Faults inside [_update_episode] stay inside it. *)
Lemma update_episode_returns (user_id title_id : string)
      (current_episode : Movie) (db : Db.table) :
  exists v, fst (_update_episode imdb_api now user_id title_id
                                 current_episode db) = Ok v.
Proof. apply catch_and_log_returns. Qed.

(** The tick on a next episode whose air date resolves *)
Lemma update_episode_next (user_id title_id next_id : string)
      (current_episode next_episode_data : Movie)
      (release_date : datetime) (db : Db.table) :
  next_episode current_episode = Some next_id ->
  truthy_str next_id = true ->
  get_episode imdb_api next_id = Ok next_episode_data ->
  next_episode_date (original_air_date next_episode_data)
  = Some (Ok release_date) ->
  _update_episode imdb_api now user_id title_id current_episode db
  = (Ok (Some next_id),
     Db.update (next_id, release_date, user_id, title_id) db).
Proof.
  intros Hnext Htruthy Hget Hdate.
  unfold _update_episode, catch_and_log, bind, call.
  rewrite Hnext. simpl. rewrite Htruthy, Hget, Hdate. reflexivity.
Qed.

(** The tick on a next episode without a usable air date *)
Lemma update_episode_placeholder (user_id title_id next_id : string)
      (current_episode next_episode_data : Movie)
      (next_week_date : datetime) (db : Db.table) :
  next_episode current_episode = Some next_id ->
  truthy_str next_id = true ->
  get_episode imdb_api next_id = Ok next_episode_data ->
  usable Re.episode_date_regex (original_air_date next_episode_data)
  = None ->
  add_days now 7 = Ok next_week_date ->
  _update_episode imdb_api now user_id title_id current_episode db
  = (Ok (Some (getID current_episode)),
     Db.update (getID current_episode, replace_midnight next_week_date,
                user_id, title_id) db).
Proof.
  intros Hnext Htruthy Hget Hdate Hweek.
  unfold _update_episode, catch_and_log, bind, call.
  rewrite Hnext. simpl. rewrite Htruthy, Hget.
  unfold next_episode_date. rewrite Hdate, Hweek. reflexivity.
Qed.

(** Where the processing of a record can raise: on the fetch of the
    current episode, on its missing air date, on the parse of that date,
    or on the fetch of the movie; nothing has been written by then. *)
Lemma notify_row_raise (user_id title_id : string)
      (title_episode_id : option string) (alerts : list alert)
      (db db' : Db.table) (e : exn) :
  row_step (user_id, title_id, title_episode_id) alerts db = (Raise e, db') ->
  db' = db
  /\ match title_episode_id with
     | Some (String c i) =>
         get_episode imdb_api (String c i) = Raise e
         \/ exists current_episode,
              get_episode imdb_api (String c i) = Ok current_episode
              /\ match original_air_date current_episode with
                 | None => e = KeyError
                 | Some text => strptime_d_b_Y (remove_char "," text) = Raise e
                 end
     | _ => get_movie imdb_api title_id = Raise e
     end.
Proof.
  unfold row_step, notify_row.
  destruct title_episode_id as [[|c i]|]; simpl.
  1, 3: unfold bind, call, db_delete, ret;
    destruct (get_movie imdb_api title_id) as [title_data|e0];
    simpl; intros H; inversion H; subst; auto.
  unfold bind at 1, call at 1.
  destruct (get_episode imdb_api (String c i)) as [current_episode|e0];
    [|intros H; inversion H; subst; auto].
  unfold bind at 1.
  destruct (original_air_date current_episode) as [text|] eqn:Hair;
    [|intros H; inversion H; subst; split; [reflexivity|];
      right; exists current_episode; rewrite Hair; auto].
  unfold ret at 1. unfold bind at 1, call at 1.
  destruct (strptime_d_b_Y (remove_char "," text)) as [d|e0] eqn:Hparse;
    [|intros H; inversion H; subst; split; [reflexivity|];
      right; exists current_episode; rewrite Hair; auto].
  unfold bind.
  destruct (update_episode_returns user_id title_id current_episode db)
    as [v Hv].
  destruct (_update_episode imdb_api now user_id title_id current_episode db)
    as [[v'|e0] db1]; simpl in Hv; [|discriminate Hv].
  destruct (negb (truthy v')); [discriminate|].
  destruct (Datetime.eqb d today); discriminate.
Qed.

(** C2, as the code has it: the records of a tick are not processed
    independently. When the processing of one due record raises, the tick
    ends there: [notify] returns the error text in place of the alerts
    gathered so far, and the table is the one the records before it left,
    so neither that record nor a later one has been processed. *)
Theorem C2_fault_ends_the_tick
        (before after : list (string * string * option string))
        (row : string * string * option string)
        (alerts : list alert) (db db1 db2 : Db.table) (e : exn) :
  Db.query_released today db = before ++ row :: after ->
  loop before [] db = (Ok alerts, db1) ->
  row_step row alerts db1 = (Raise e, db2) ->
  notify imdb_api now title_details db = (Ok (inr error_message), db1).
Proof.
  intros Hdue Hbefore Hrow.
  assert (db2 = db1) as ->.
  { destruct row as [[user_id title_id] title_episode_id].
    exact (proj1 (notify_row_raise _ _ _ _ _ _ _ Hrow)). }
  unfold notify. apply (catch_and_log_of_raise _ _ db db1 e).
  rewrite (bind_ok _ _ db db (Db.query_released today db))
    by reflexivity.
  rewrite Hdue. apply bind_raise.
  exact (notify_loop_raise before after row [] alerts db db1 db1 e
           Hbefore Hrow).
Qed.

(** The loop body on a due series record whose next-episode link leads
    to an episode with a resolvable air date: the rows of the key are
    rewritten with the next episode's id and date, and an "Episode is
    out!!" alert is added exactly when the air date of the current
    episode, fetched again, equals today. *)
Lemma notify_row_next
        (user_id title_id episode_id next_id text : string)
        (current_episode next_episode_data : Movie)
        (current_release_date next_release_date : datetime)
        (alerts : list alert) (db : Db.table) :
  truthy_str episode_id = true ->
  get_episode imdb_api episode_id = Ok current_episode ->
  original_air_date current_episode = Some text ->
  strptime_d_b_Y (remove_char "," text) = Ok current_release_date ->
  next_episode current_episode = Some next_id ->
  truthy_str next_id = true ->
  get_episode imdb_api next_id = Ok next_episode_data ->
  next_episode_date (original_air_date next_episode_data)
  = Some (Ok next_release_date) ->
  let db' := Db.update (next_id, next_release_date, user_id, title_id) db in
  row_step (user_id, title_id, Some episode_id) alerts db
  = (Ok (if Datetime.eqb current_release_date today
         then alerts ++ [(user_id,
                          episode_out_message title_details current_episode)]
         else alerts),
     db')
  /\ map Db.key db' = map Db.key db
  /\ (forall r, In r db' -> Db.has_key user_id title_id r = true ->
                Db.title_episode_id r = Some next_id
                /\ Db.title_release r = next_release_date).
Proof.
  intros Htruthy Hget Hair Hparse Hnext Hnext_truthy Hget_next Hdate db'.
  split; [|split].
  - unfold row_step, notify_row. simpl. rewrite Htruthy.
    rewrite (bind_ok _ _ db db current_episode)
      by (unfold call; now rewrite Hget).
    rewrite Hair.
    rewrite (bind_ok _ _ db db (remove_char "," text)) by reflexivity.
    rewrite (bind_ok _ _ db db current_release_date)
      by (unfold call; now rewrite Hparse).
    rewrite (bind_ok _ _ _ _ _
               (update_episode_next user_id title_id next_id
                  current_episode next_episode_data next_release_date db
                  Hnext Hnext_truthy Hget_next Hdate)).
    simpl. rewrite Hnext_truthy. simpl.
    destruct (Datetime.eqb current_release_date today); reflexivity.
  - apply db_update_keys.
  - intros r. apply db_update_row.
Qed.

(** The placeholder step inside the loop body of [notify], which reaches
    it when the current episode is fetched and its own air date parses *)
Lemma notify_row_placeholder
      (user_id title_id episode_id next_id text : string)
      (current_episode next_episode_data : Movie)
      (current_release_date next_week_date : datetime)
      (alerts : list alert) (db : Db.table) :
  truthy_str episode_id = true ->
  get_episode imdb_api episode_id = Ok current_episode ->
  original_air_date current_episode = Some text ->
  strptime_d_b_Y (remove_char "," text) = Ok current_release_date ->
  next_episode current_episode = Some next_id ->
  truthy_str next_id = true ->
  get_episode imdb_api next_id = Ok next_episode_data ->
  usable Re.episode_date_regex (original_air_date next_episode_data) = None ->
  add_days now 7 = Ok next_week_date ->
  snd (row_step (user_id, title_id, Some episode_id) alerts db)
  = Db.update (getID current_episode, replace_midnight next_week_date,
               user_id, title_id) db.
Proof.
  intros Htruthy Hget Hair Hparse Hnext Hnext_truthy Hget_next Hdate Hweek.
  unfold row_step, notify_row. simpl. rewrite Htruthy.
  rewrite (bind_ok _ _ db db current_episode)
    by (unfold call; now rewrite Hget).
  rewrite Hair.
  rewrite (bind_ok _ _ db db (remove_char "," text)) by reflexivity.
  rewrite (bind_ok _ _ db db current_release_date)
    by (unfold call; now rewrite Hparse).
  rewrite (bind_ok _ _ _ _ _
             (update_episode_placeholder user_id title_id next_id
                current_episode next_episode_data next_week_date db
                Hnext Hnext_truthy Hget_next Hdate Hweek)).
  simpl.
  destruct (negb (truthy_str (getID current_episode)));
    [|destruct (Datetime.eqb current_release_date today)]; reflexivity.
Qed.

(** The update step on a next episode without a usable air date: the
    rows of the key get the id of the current episode and the date seven
    days after today, at midnight. *)
Lemma update_episode_week
        (user_id title_id next_id : string)
        (current_episode next_episode_data : Movie) (db : Db.table) :
  valid_date (year now) (month now) (day now) = true ->
  year now < 9999 ->
  next_episode current_episode = Some next_id ->
  truthy_str next_id = true ->
  get_episode imdb_api next_id = Ok next_episode_data ->
  usable Re.episode_date_regex (original_air_date next_episode_data) = None ->
  exists release_date,
    let db' := snd (_update_episode imdb_api now user_id title_id
                                    current_episode db) in
    add_days today 7 = Ok release_date
    /\ toordinal release_date = toordinal today + 7
    /\ at_midnight release_date = true
    /\ db' = Db.update (getID current_episode, release_date,
                        user_id, title_id) db
    /\ map Db.key db' = map Db.key db
    /\ (forall r, In r db' -> Db.has_key user_id title_id r = true ->
                  Db.title_episode_id r = Some (getID current_episode)
                  /\ Db.title_release r = release_date).
Proof.
  intros Hvalid Hyear Hnext Hnext_truthy Hget_next Hdate.
  destruct (add_days_week_defined now Hvalid Hyear) as [next_week_date Hweek].
  exists (replace_midnight next_week_date). cbv zeta.
  rewrite (update_episode_placeholder user_id title_id next_id
             current_episode next_episode_data next_week_date db
             Hnext Hnext_truthy Hget_next Hdate Hweek).
  cbn [snd].
  pose proof (add_days_midnight now next_week_date 7 Hweek) as Htoday.
  fold today in Htoday.
  split; [exact Htoday|].
  split; [exact (add_days_ordinal _ _ _ Htoday)|].
  split; [reflexivity|].
  split; [reflexivity|].
  split; [apply db_update_keys|].
  intros r. apply db_update_row.
Qed.

End Tick.

Lemma C2_fault_ends_the_tick_witness :
  notify Demo.api Demo.now Demo.title_details
         [ Demo.movie_row "1" "tt001" Demo.today;
           Demo.movie_row "2" "tt404" Demo.today;
           Demo.movie_row "3" "tt001" Demo.today ]
  = (Ok (inr error_message),
     [ Demo.movie_row "2" "tt404" Demo.today;
       Demo.movie_row "3" "tt001" Demo.today ]).
Proof.
  apply (C2_fault_ends_the_tick Demo.api Demo.now Demo.title_details
           [("1", "tt001", None)] [("3", "tt001", None)] ("2", "tt404", None)
           [("1", ("Movie is out!" ++ newline ++ newline ++ "tt001")%string)]
           _
           [ Demo.movie_row "2" "tt404" Demo.today;
             Demo.movie_row "3" "tt001" Demo.today ]
           [ Demo.movie_row "2" "tt404" Demo.today;
             Demo.movie_row "3" "tt001" Demo.today ]
           IMDbError);
    reflexivity.
Defined.

(** The claim as written fails: of three due records the second raises
    (IMDb has no answer for [tt404]); the tick returns the error text and
    no alert, not even the one gathered for the first record, and the third
    record, which a tick of its own processes, is still in the table. *)
Lemma C2_counterexample :
  Db.query_released Demo.today
                    [ Demo.movie_row "1" "tt001" Demo.today;
                      Demo.movie_row "2" "tt404" Demo.today;
                      Demo.movie_row "3" "tt001" Demo.today ]
  = [("1", "tt001", None); ("2", "tt404", None); ("3", "tt001", None)]
  /\ notify Demo.api Demo.now Demo.title_details
            [ Demo.movie_row "1" "tt001" Demo.today;
              Demo.movie_row "2" "tt404" Demo.today;
              Demo.movie_row "3" "tt001" Demo.today ]
     = (Ok (inr error_message),
        [ Demo.movie_row "2" "tt404" Demo.today;
          Demo.movie_row "3" "tt001" Demo.today ])
  /\ notify Demo.api Demo.now Demo.title_details
            [ Demo.movie_row "3" "tt001" Demo.today ]
     = (Ok (inl [("3", ("Movie is out!" ++ newline ++ newline
                        ++ "tt001")%string)]), [])
  /\ ~ (exists alerts,
          fst (notify Demo.api Demo.now Demo.title_details
                      [ Demo.movie_row "1" "tt001" Demo.today;
                        Demo.movie_row "2" "tt404" Demo.today;
                        Demo.movie_row "3" "tt001" Demo.today ])
          = Ok (inl alerts)).
Proof.
  repeat split; try (vm_compute; reflexivity).
  intros [alerts H]. vm_compute in H. discriminate H.
Qed.

(** The claim as written fails: the record of user 7 is due, its episode
    aired today, the next episode airs a week later. The tick moves the
    record to the next episode and sends "Episode is out!!", although the
    new release date is in the future and so is not today. *)
Lemma C3_counterexample :
  notify Demo.api Demo.now Demo.title_details
         [Demo.episode_row "7" "tt300" "ep301" Demo.today]
  = (Ok (inl [("7", episode_out_message
                      Demo.title_details
                      (Demo.episode "ep301" (Some "1 Jun 2024")
                                    (Some "ep302")))]),
     [Demo.episode_row "7" "tt300" "ep302" (mkDatetime 2024 6 8 0 0 0 0)])
  /\ gtb (mkDatetime 2024 6 8 0 0 0 0) Demo.now = true
  /\ Datetime.eqb (mkDatetime 2024 6 8 0 0 0 0) Demo.today = false
  /\ ~ (fst (notify Demo.api Demo.now Demo.title_details
                    [Demo.episode_row "7" "tt300" "ep301" Demo.today])
        <> Ok (inl [])
        <-> Datetime.eqb (mkDatetime 2024 6 8 0 0 0 0) Demo.today = true).
Proof.
  split; [|split; [|split]]; try (vm_compute; reflexivity).
  intros [Hsent _].
  assert (Hnew : Datetime.eqb (mkDatetime 2024 6 8 0 0 0 0) Demo.today = true).
  { apply Hsent. vm_compute. discriminate. }
  vm_compute in Hnew. discriminate Hnew.
Qed.

(** * Invariants of the store *)

Lemma tick_writes_trans (db1 db2 db3 : Db.table) :
  tick_writes db1 db2 -> tick_writes db2 db3 -> tick_writes db1 db3.
Proof.
  intros H12 H23.
  induction H12 as [db | e u t d db db' Hd _ IH | u t db db' _ IH].
  - exact H23.
  - exact (writes_update e u t d db db3 Hd (IH H23)).
  - exact (writes_delete u t db db3 (IH H23)).
Qed.

(** Dropping rows keeps the keys apart. *)
Lemma unique_keys_filter (keep : Db.row -> bool) (db : Db.table) :
  unique_keys db -> unique_keys (filter keep db).
Proof.
  unfold unique_keys. induction db as [|r db IH]; intros Hdb; [exact Hdb|].
  simpl in Hdb. apply NoDup_cons_iff in Hdb as [Hfresh Hrest].
  simpl. destruct (keep r); [|exact (IH Hrest)].
  simpl. apply NoDup_cons; [|exact (IH Hrest)].
  intros Hin. apply Hfresh.
  apply in_map_iff in Hin as (r' & Hkey & Hin).
  apply filter_In in Hin as [Hin _].
  rewrite <- Hkey. now apply in_map.
Qed.

Lemma unique_keys_update (e u t : string) (d : datetime) (db : Db.table) :
  unique_keys db -> unique_keys (Db.update (e, d, u, t) db).
Proof. unfold unique_keys. now rewrite db_update_keys. Qed.

Lemma unique_keys_delete (u t : string) (db : Db.table) :
  unique_keys db -> unique_keys (fst (Db.delete u t db)).
Proof. simpl. apply unique_keys_filter. Qed.

Lemma all_midnight_update (e u t : string) (d : datetime) (db : Db.table) :
  at_midnight d = true ->
  all_midnight db -> all_midnight (Db.update (e, d, u, t) db).
Proof.
  unfold all_midnight, Db.update. intros Hd H.
  apply Forall_map. apply (Forall_impl _ (P := fun r =>
    at_midnight (Db.title_release r) = true)); [|exact H].
  intros r Hr. destruct (Db.has_key u t r); [exact Hd | exact Hr].
Qed.

Lemma all_midnight_delete (u t : string) (db : Db.table) :
  all_midnight db -> all_midnight (fst (Db.delete u t db)).
Proof.
  unfold all_midnight. simpl. intros H.
  apply Forall_forall. intros r Hin. apply filter_In in Hin as [Hin _].
  exact (proj1 (Forall_forall _ _) H r Hin).
Qed.

Lemma tick_writes_unique_keys (db db' : Db.table) :
  tick_writes db db' -> unique_keys db -> unique_keys db'.
Proof.
  induction 1 as [db | e u t d db db' Hd _ IH | u t db db' _ IH]; intros H.
  - exact H.
  - apply IH, unique_keys_update, H.
  - apply IH, unique_keys_delete, H.
Qed.

Lemma tick_writes_all_midnight (db db' : Db.table) :
  tick_writes db db' -> all_midnight db -> all_midnight db'.
Proof.
  induction 1 as [db | e u t d db db' Hd _ IH | u t db db' _ IH]; intros H.
  - exact H.
  - apply IH, all_midnight_update; assumption.
  - apply IH, all_midnight_delete, H.
Qed.

Section Effects.

Variable imdb_api : api.
Variable now : datetime.
Variable title_details : Movie -> string.

Lemma movie_path_effect (user_id user_name title_id : string)
      (title_name : option string) (db : Db.table) :
  appends_one user_id title_id db
    (snd (_get_movie_release_date imdb_api now user_id user_name title_id
                                  title_name db)).
Proof.
  unfold _get_movie_release_date. rewrite catch_and_log_store.
  unfold bind, call, ret.
  destruct (get_movie_release_info imdb_api title_id) as [[[|r rs]|]|e];
    simpl; try (left; reflexivity).
  destruct (usa_release_date (r :: rs)) as [|date0 others];
    [left; reflexivity|].
  destruct (movie_date date0) as [parsed|] eqn:Hdate; [|left; reflexivity].
  apply movie_date_checked_first in Hdate as [_ ->].
  destruct (strptime_d_B_Y date0) as [release_date|e] eqn:Hparse;
    [|left; reflexivity].
  destruct (gtb release_date now); [|left; reflexivity].
  right. eexists. split; [reflexivity|]. split; [reflexivity|].
  exact (proj1 (strptime_dmy_ok _ _ _ Hparse)).
Qed.

Lemma episode_loop_effect (user_id user_name title_id : string)
      (title_name : option string) (current_season len : Z)
      (items : list (Z * Movie)) (message : option string)
      (db : Db.table) :
  appends_one user_id title_id db
    (snd (episode_loop now user_id user_name title_id title_name
                       current_season len items message db)).
Proof.
  revert message. induction items as [|[ep_no ep_data] items IH];
    intros message.
  - simpl. destruct message; left; reflexivity.
  - simpl. unfold episode_date.
    destruct (usable Re.episode_date_regex (original_air_date ep_data))
      as [text|]; [|apply IH].
    unfold bind, call.
    destruct (strptime_d_b_Y (remove_char "." text))
      as [release_date|e] eqn:Hparse; [|left; reflexivity].
    destruct (ltb release_date now).
    + destruct (ep_no =? len); [left; reflexivity | apply IH].
    + right. eexists. split; [reflexivity|]. split; [reflexivity|].
      exact (proj1 (strptime_dmy_ok _ _ _ Hparse)).
Qed.

Lemma enable_effect (user_id user_name title_id : string) (db : Db.table) :
  appends_one user_id title_id db
    (snd (enable imdb_api now user_id user_name title_id db)).
Proof.
  unfold enable. rewrite catch_and_log_store. unfold bind, call.
  destruct (get_movie imdb_api title_id) as [imdb_data|e];
    [|left; reflexivity].
  destruct (seasons imdb_data) as [[|season more]|];
    try apply movie_path_effect.
  unfold _get_episode_release_date. rewrite catch_and_log_store.
  unfold bind, call.
  destruct (get_movie_episodes imdb_api title_id)
    as [[[|[current_season latest_episodes] older]|]|e];
    try (left; reflexivity).
  apply episode_loop_effect.
Qed.

Lemma update_episode_writes (user_id title_id : string)
      (current_episode : Movie) (db : Db.table) :
  tick_writes db (snd (_update_episode imdb_api now user_id title_id
                                       current_episode db)).
Proof.
  unfold _update_episode. rewrite catch_and_log_store.
  destruct (truthy (next_episode current_episode)).
  - unfold bind, call, ret, db_update.
    destruct (get_episode imdb_api _) as [next_episode_data|e];
      [|apply writes_nothing].
    unfold next_episode_date.
    destruct (usable Re.episode_date_regex
                     (original_air_date next_episode_data)) as [text|].
    + destruct (strptime_d_b_Y (remove_char "," text))
        as [release_date|e] eqn:Hparse; [|apply writes_nothing].
      simpl. eapply writes_update; [|apply writes_nothing].
      exact (proj1 (strptime_dmy_ok _ _ _ Hparse)).
    + destruct (add_days now 7) as [next_week_date|e];
        [|apply writes_nothing].
      simpl. eapply writes_update; [|apply writes_nothing]. reflexivity.
  - unfold bind, db_delete, ret. simpl.
    eapply writes_delete. apply writes_nothing.
Qed.

Lemma notify_row_writes (today : datetime)
      (row : string * string * option string) (alerts : list alert)
      (db : Db.table) :
  tick_writes db
    (snd (notify_row imdb_api now title_details today row alerts db)).
Proof.
  destruct row as [[user_id title_id] title_episode_id].
  unfold notify_row. destruct (truthy title_episode_id).
  - unfold bind at 1, call at 1.
    destruct (get_episode imdb_api _) as [current_episode|e];
      [|apply writes_nothing].
    unfold bind at 1.
    destruct (original_air_date current_episode) as [text|];
      [|apply writes_nothing].
    unfold ret at 1. unfold bind at 1, call at 1.
    destruct (strptime_d_b_Y (remove_char "," text)) as [d|e];
      [|apply writes_nothing].
    pose proof (update_episode_writes user_id title_id current_episode db)
      as Hwrites.
    unfold bind.
    destruct (_update_episode imdb_api now user_id title_id
                              current_episode db) as [[v|e] db'];
      simpl in *; [|exact Hwrites].
    destruct (negb (truthy v)); [exact Hwrites|].
    destruct (Datetime.eqb d today); exact Hwrites.
  - unfold bind, call, db_delete, ret.
    destruct (get_movie imdb_api title_id) as [title_data|e];
      [|apply writes_nothing].
    simpl. eapply writes_delete. apply writes_nothing.
Qed.

Lemma notify_loop_writes (today : datetime)
      (rows : list (string * string * option string)) (alerts : list alert)
      (db : Db.table) :
  tick_writes db
    (snd (notify_loop imdb_api now title_details today rows alerts db)).
Proof.
  revert alerts db. induction rows as [|row rows IH]; intros alerts db.
  - apply writes_nothing.
  - simpl. unfold bind.
    pose proof (notify_row_writes today row alerts db) as Hrow.
    destruct (notify_row imdb_api now title_details today row alerts db)
      as [[alerts'|e] db']; simpl in *; [|exact Hrow].
    exact (tick_writes_trans _ _ _ Hrow (IH alerts' db')).
Qed.

Lemma notify_writes (db : Db.table) :
  tick_writes db (snd (notify imdb_api now title_details db)).
Proof.
  unfold notify. rewrite catch_and_log_store.
  unfold bind at 1, db_query_released.
  pose proof (notify_loop_writes (replace_midnight now)
                (Db.query_released (replace_midnight now) db) [] db) as H.
  unfold bind.
  destruct (notify_loop imdb_api now title_details (replace_midnight now)
              (Db.query_released (replace_midnight now) db) [] db)
    as [[alerts|e] db']; exact H.
Qed.

End Effects.

Lemma has_key_iff (u t : string) (r : Db.row) :
  Db.has_key u t r = true <-> Db.key r = (u, t).
Proof.
  unfold Db.has_key, Db.key. rewrite andb_true_iff, !String.eqb_eq.
  split; [intros [-> ->]; reflexivity | intros H; injection H; auto].
Qed.

Lemma query_user_alert_none (u t : string) (db : Db.table) :
  Db.query_user_alert u t db = None <-> ~ In (u, t) (map Db.key db).
Proof.
  unfold Db.query_user_alert. induction db as [|r db IH]; simpl.
  - tauto.
  - destruct (Db.has_key u t r) eqn:E.
    + apply has_key_iff in E. split; [discriminate | intros H; tauto].
    + rewrite IH. split; [|tauto].
      intros H [Hr | Hin]; [|tauto].
      apply has_key_iff in Hr. congruence.
Qed.

Lemma unique_keys_appends_one (u t : string) (db db' : Db.table) :
  appends_one u t db db' ->
  Db.query_user_alert u t db = None ->
  unique_keys db -> unique_keys db'.
Proof.
  intros [-> | (row & -> & Hkey & _)] Hnone Hunique; [exact Hunique|].
  unfold unique_keys in *. rewrite map_app. simpl. rewrite Hkey.
  apply NoDup_app.
  - exact Hunique.
  - repeat constructor. intros [].
  - intros k Hin [<-|[]]. apply query_user_alert_none in Hnone. tauto.
Qed.

Lemma all_midnight_appends_one (u t : string) (db db' : Db.table) :
  appends_one u t db db' -> all_midnight db -> all_midnight db'.
Proof.
  intros [-> | (row & -> & _ & Hrow)] H; [exact H|].
  unfold all_midnight in *. apply Forall_app. split; [exact H|].
  constructor; [exact Hrow | constructor].
Qed.

Lemma eqb_midnight (d now : datetime) :
  Datetime.eqb d (replace_midnight now) = same_day d now && at_midnight d.
Proof.
  unfold Datetime.eqb, same_day, at_midnight, replace_midnight. simpl.
  rewrite !andb_assoc. reflexivity.
Qed.

(** The due query returns the rows whose release date is today's date at
    midnight. *)
Lemma query_released_today (now : datetime) (db : Db.table) :
  Db.query_released (replace_midnight now) db
  = map (fun r => (Db.user_id r, Db.title_id r, Db.title_episode_id r))
        (filter (fun r => same_day (Db.title_release r) now
                          && at_midnight (Db.title_release r)) db).
Proof.
  unfold Db.query_released. f_equal. apply filter_ext.
  intros r. apply eqb_midnight.
Qed.

(** C7, as the code has it: the table declares no uniqueness and [enable]
    does not look for an existing row. Starting from a table with at most
    one row for each user and title, [create_table], [update], [delete],
    [disable] and [notify] keep it so, and [enable] keeps it so when the
    lookup of its key found nothing before the call. *)
Theorem C7_unique_keys_preserved
          (imdb_api : api) (now : datetime) (title_details : Movie -> string)
          (db : Db.table) :
  unique_keys db ->
  unique_keys (fst (Db.create_table db))
  /\ (forall values, unique_keys (Db.update values db))
  /\ (forall u t, unique_keys (fst (Db.delete u t db)))
  /\ (forall u t, unique_keys (snd (disable u t db)))
  /\ unique_keys (snd (notify imdb_api now title_details db))
  /\ (forall u n t,
        Db.query_user_alert u t db = None ->
        unique_keys (snd (enable imdb_api now u n t db))).
Proof.
  intros H. repeat split.
  - exact H.
  - intros [[[e d] u] t]. apply unique_keys_update, H.
  - intros u t. apply unique_keys_delete, H.
  - intros u t. rewrite disable_run. apply (unique_keys_delete u t db H).
  - exact (tick_writes_unique_keys _ _
             (notify_writes imdb_api now title_details db) H).
  - intros u n t Hnone.
    exact (unique_keys_appends_one u t _ _
             (enable_effect imdb_api now u n t db) Hnone H).
Qed.

Lemma C7_unique_keys_preserved_witness :
  unique_keys (snd (enable Demo.api Demo.now "42" "Ann" "tt001"
                           [Demo.movie_row "42" "tt002" Demo.today])).
Proof.
  assert (H : unique_keys [Demo.movie_row "42" "tt002" Demo.today]).
  { unfold unique_keys. simpl. repeat constructor. intros []. }
  exact (proj2 (proj2 (proj2 (proj2 (proj2
           (C7_unique_keys_preserved Demo.api Demo.now Demo.title_details
              [Demo.movie_row "42" "tt002" Demo.today] H)))))
           "42" "Ann" "tt001" eq_refl).
Defined.

(** The claim as written fails: a second [enable] of the same user and
    title appends a second row of the same key. *)
Lemma C7_counterexample :
  unique_keys (snd (enable Demo.api Demo.now "42" "Ann" "tt001" []))
  /\ snd (enable Demo.api Demo.now "42" "Ann" "tt001"
                (snd (enable Demo.api Demo.now "42" "Ann" "tt001" [])))
     = [ Demo.movie_row "42" "tt001" (mkDatetime 2024 6 15 0 0 0 0);
         Demo.movie_row "42" "tt001" (mkDatetime 2024 6 15 0 0 0 0) ]
  /\ ~ unique_keys
         (snd (enable Demo.api Demo.now "42" "Ann" "tt001"
                      (snd (enable Demo.api Demo.now "42" "Ann" "tt001" [])))).
Proof.
  split; [|split].
  - unfold unique_keys. vm_compute. repeat constructor. intros [].
  - vm_compute. reflexivity.
  - unfold unique_keys. intros H. vm_compute in H.
    inversion H as [|k ks Hnotin _]; subst. apply Hnotin. left. reflexivity.
Qed.

(** C10: every release date the engine stores is a day at midnight.
    [enable], on the movie path and on the series path, writes at most one
    row and its date is at midnight; the tick's episode update and the
    whole tick write only dates at midnight. So a table whose dates are
    all at midnight stays so, and on such a table the due query, an exact
    comparison with today at midnight, selects the rows dated today; a
    date that is not at midnight is never selected. *)
Theorem C10_release_dates_at_midnight
          (imdb_api : api) (now : datetime) (title_details : Movie -> string)
          (db : Db.table) :
  (forall u n t, appends_one u t db (snd (enable imdb_api now u n t db)))
  /\ (forall u t current_episode,
        tick_writes db (snd (_update_episode imdb_api now u t
                                             current_episode db)))
  /\ tick_writes db (snd (notify imdb_api now title_details db))
  /\ (all_midnight db ->
      (forall u n t, all_midnight (snd (enable imdb_api now u n t db)))
      /\ (forall u t, all_midnight (snd (disable u t db)))
      /\ all_midnight (snd (notify imdb_api now title_details db))
      /\ (forall r, In r db ->
                    Datetime.eqb (Db.title_release r) (replace_midnight now)
                    = same_day (Db.title_release r) now))
  /\ (forall d, Datetime.eqb d (replace_midnight now) = true ->
                at_midnight d = true).
Proof.
  split; [|split; [|split; [|split]]].
  - intros u n t. apply enable_effect.
  - intros u t current_episode. apply update_episode_writes.
  - apply notify_writes.
  - intros H. repeat split.
    + intros u n t.
      exact (all_midnight_appends_one u t _ _
               (enable_effect imdb_api now u n t db) H).
    + intros u t. rewrite disable_run. apply (all_midnight_delete u t db H).
    + exact (tick_writes_all_midnight _ _
               (notify_writes imdb_api now title_details db) H).
    + intros r Hin. rewrite eqb_midnight.
      rewrite (proj1 (Forall_forall _ _) H r Hin). apply andb_true_r.
  - intros d Hd. rewrite eqb_midnight in Hd.
    apply andb_prop in Hd as [_ Hd]. exact Hd.
Qed.

Lemma C10_release_dates_at_midnight_witness :
  all_midnight
    (snd (notify Demo.api Demo.now Demo.title_details
                 [ Demo.episode_row "8" "tt500" "ep501" Demo.today;
                   Demo.movie_row "1" "tt001" Demo.today ])).
Proof.
  assert (H : all_midnight [ Demo.episode_row "8" "tt500" "ep501" Demo.today;
                             Demo.movie_row "1" "tt001" Demo.today ]).
  { repeat constructor. }
  exact (proj1 (proj2 (proj2
           (proj1 (proj2 (proj2 (proj2
              (C10_release_dates_at_midnight
                 Demo.api Demo.now Demo.title_details _))))
              H)))).
Defined.

(** * Further properties of the store *)

Lemma datetime_eqb_eq (a b : datetime) : Datetime.eqb a b = true <-> a = b.
Proof.
  destruct a as [y m d h mi s us], b as [y' m' d' h' mi' s' us'].
  unfold Datetime.eqb. cbn [year month day hour minute second microsecond].
  rewrite !andb_true_iff, !Z.eqb_eq. split.
  - intros [[[[[[-> ->] ->] ->] ->] ->] ->]. reflexivity.
  - intros H. injection H as -> -> -> -> -> -> ->. repeat split.
Qed.

Lemma datetime_eqb_refl (a : datetime) : Datetime.eqb a a = true.
Proof. now apply datetime_eqb_eq. Qed.

Lemma has_key_of_row (r : Db.row) :
  Db.has_key (Db.user_id r) (Db.title_id r) r = true.
Proof. now apply has_key_iff. Qed.

Lemma query_user_alert_some (u t : string) (db : Db.table) :
  Db.query_user_alert u t db <> None <-> In (u, t) (map Db.key db).
Proof.
  unfold Db.query_user_alert. induction db as [|r db IH]; cbn [filter map].
  - split; [intros H; now elim H | intros []].
  - destruct (Db.has_key u t r) eqn:Hkey.
    + apply has_key_iff in Hkey. split; [now left | discriminate].
    + rewrite IH. split; [now right|].
      intros [Hr | Hin]; [|exact Hin].
      apply has_key_iff in Hr. congruence.
Qed.

(** X1: a row that was inserted is found: the lookup of its key answers,
    with the row's own title name when the key had no row before; the row
    is due on its release date, and its title is in its user's listing. *)
Theorem X1_insert_then_lookup (values : Db.row) (db : Db.table) :
  let db' := fst (Db.insert values db) in
  let u := Db.user_id values in
  let t := Db.title_id values in
  Db.query_user_alert u t db' <> None
  /\ (Db.query_user_alert u t db = None ->
      Db.query_user_alert u t db' = Some (Db.title_name values))
  /\ In (u, t, Db.title_episode_id values)
        (Db.query_released (Db.title_release values) db')
  /\ In t (Db.query_title_id u db').
Proof.
  cbv zeta. cbn [fst Db.insert]. repeat split.
  - apply query_user_alert_some. rewrite map_app. apply in_or_app.
    right. left. reflexivity.
  - intros Hnone. unfold Db.query_user_alert in *.
    rewrite filter_app. cbn [filter]. rewrite has_key_of_row.
    destruct (filter (Db.has_key (Db.user_id values) (Db.title_id values)) db);
      [reflexivity | discriminate].
  - unfold Db.query_released. rewrite filter_app, map_app.
    apply in_or_app. right. cbn [filter]. rewrite datetime_eqb_refl.
    left. reflexivity.
  - unfold Db.query_title_id. rewrite filter_app, map_app.
    apply in_or_app. right. cbn [filter]. rewrite String.eqb_refl.
    left. reflexivity.
Qed.

(** X2: after an update of a key that has a row, the record is due on the
    new date with the new episode id, and on no other date. *)
Theorem X2_update_moves_the_due_date
        (e u t : string) (d : datetime) (db : Db.table) :
  Db.query_user_alert u t db <> None ->
  let db' := Db.update (e, d, u, t) db in
  In (u, t, Some e) (Db.query_released d db')
  /\ (forall d' x, d' <> d -> ~ In (u, t, x) (Db.query_released d' db')).
Proof.
  intros Hsome db'. split.
  - apply query_user_alert_some in Hsome.
    apply in_map_iff in Hsome as (r & Hkey & Hin).
    apply has_key_iff in Hkey.
    pose proof (db_update_present e u t d db r Hin Hkey) as Hnew.
    unfold Db.query_released. apply in_map_iff.
    eexists. split; [|apply filter_In; split; [exact Hnew|]].
    + cbn. apply has_key_iff in Hkey. unfold Db.key in Hkey.
      injection Hkey as -> ->. reflexivity.
    + cbn. apply datetime_eqb_refl.
  - intros d' x Hd' Hin. unfold Db.query_released in Hin.
    apply in_map_iff in Hin as (r & Hr & Hin).
    apply filter_In in Hin as [Hin Hdue].
    injection Hr as Hu Ht _.
    assert (Hkey : Db.has_key u t r = true)
      by (apply has_key_iff; unfold Db.key; congruence).
    destruct (db_update_row e u t d db r Hin Hkey) as [_ Hrel].
    apply datetime_eqb_eq in Hdue. congruence.
Qed.

Lemma X2_update_moves_the_due_date_witness :
  In ("7", "tt300", Some "ep302")
     (Db.query_released (mkDatetime 2024 6 8 0 0 0 0)
        (Db.update ("ep302", mkDatetime 2024 6 8 0 0 0 0, "7", "tt300")
                   [Demo.episode_row "7" "tt300" "ep301" Demo.today])).
Proof.
  refine (proj1 (X2_update_moves_the_due_date
                   "ep302" "7" "tt300" (mkDatetime 2024 6 8 0 0 0 0)
                   [Demo.episode_row "7" "tt300" "ep301" Demo.today] _)).
  vm_compute. discriminate.
Defined.

Lemma update_absent (values : string * datetime * string * string)
      (db : Db.table) :
  Db.query_user_alert (snd (fst values)) (snd values) db = None ->
  Db.update values db = db.
Proof.
  destruct values as [[[e d] u] t]. cbn [fst snd]. intros Hnone.
  apply query_user_alert_none in Hnone. unfold Db.update.
  rewrite <- (map_id db) at 2. apply map_ext_in.
  intros r Hin. destruct (Db.has_key u t r) eqn:Hkey; [|reflexivity].
  apply has_key_iff in Hkey. elim Hnone. rewrite <- Hkey.
  now apply in_map.
Qed.

Lemma delete_absent (u t : string) (db : Db.table) :
  Db.query_user_alert u t db = None -> fst (Db.delete u t db) = db.
Proof.
  intros Hnone. apply query_user_alert_none in Hnone. cbn [fst Db.delete].
  induction db as [|r db IH]; [reflexivity|].
  cbn [filter]. destruct (Db.has_key u t r) eqn:Hkey.
  - apply has_key_iff in Hkey. elim Hnone. left. exact Hkey.
  - cbn [negb]. f_equal. apply IH. intros Hin. apply Hnone. now right.
Qed.

(** X3: an update or a delete of a key that has no row changes nothing. *)
Theorem X3_absent_key_is_a_no_op (u t : string) (db : Db.table) :
  Db.query_user_alert u t db = None ->
  (forall e d, Db.update (e, d, u, t) db = db)
  /\ fst (Db.delete u t db) = db.
Proof.
  intros Hnone. split.
  - intros e d. now apply (update_absent (e, d, u, t)).
  - now apply delete_absent.
Qed.

Lemma X3_absent_key_is_a_no_op_witness :
  fst (Db.delete "9" "tt001" [Demo.movie_row "1" "tt001" Demo.today])
  = [Demo.movie_row "1" "tt001" Demo.today].
Proof.
  exact (proj2 (X3_absent_key_is_a_no_op "9" "tt001"
                  [Demo.movie_row "1" "tt001" Demo.today] eq_refl)).
Defined.

Lemma has_key_other (u t u' t' : string) (r : Db.row) :
  (u', t') <> (u, t) ->
  Db.has_key u t r = true -> Db.has_key u' t' r = false.
Proof.
  intros Hne Hkey. destruct (Db.has_key u' t' r) eqn:Hkey'; [|reflexivity].
  apply has_key_iff in Hkey, Hkey'. congruence.
Qed.

(** X4: insert, update and delete of one key leave the lookup of every
    other key as it was. *)
Theorem X4_other_keys_untouched
        (u t u' t' : string) (db : Db.table) :
  (u', t') <> (u, t) ->
  (forall values,
      Db.key values = (u, t) ->
      Db.query_user_alert u' t' (fst (Db.insert values db))
      = Db.query_user_alert u' t' db)
  /\ (forall e d,
         Db.query_user_alert u' t' (Db.update (e, d, u, t) db)
         = Db.query_user_alert u' t' db)
  /\ Db.query_user_alert u' t' (fst (Db.delete u t db))
     = Db.query_user_alert u' t' db.
Proof.
  intros Hne. repeat split.
  - intros values Hkey. unfold Db.query_user_alert. cbn [fst Db.insert].
    rewrite filter_app. cbn [filter].
    rewrite (has_key_other u t u' t' values Hne)
      by (now apply has_key_iff).
    now rewrite app_nil_r.
  - intros e d. unfold Db.query_user_alert, Db.update.
    induction db as [|r db IH]; [reflexivity|].
    cbn [map filter]. destruct (Db.has_key u t r) eqn:Hkey.
    + pose proof (has_key_other u t u' t' r Hne Hkey) as Hother.
      unfold Db.has_key in *. cbn. unfold Db.has_key in Hother.
      rewrite Hother. exact IH.
    + destruct (Db.has_key u' t' r); [reflexivity | exact IH].
  - unfold Db.query_user_alert. cbn [fst Db.delete].
    induction db as [|r db IH]; [reflexivity|].
    cbn [filter]. destruct (Db.has_key u t r) eqn:Hkey; cbn [negb].
    + rewrite (has_key_other u t u' t' r Hne Hkey). exact IH.
    + cbn [filter]. destruct (Db.has_key u' t' r); [reflexivity | exact IH].
Qed.

Lemma X4_other_keys_untouched_witness :
  Db.query_user_alert "1" "tt001"
    (fst (Db.delete "2" "tt001" [ Demo.movie_row "1" "tt001" Demo.today;
                                  Demo.movie_row "2" "tt001" Demo.today ]))
  = Some (Some "A Film (2024)").
Proof.
  refine (eq_trans
            (proj2 (proj2 (X4_other_keys_untouched "2" "tt001" "1" "tt001"
                             [ Demo.movie_row "1" "tt001" Demo.today;
                               Demo.movie_row "2" "tt001" Demo.today ] _)))
            eq_refl).
  discriminate.
Defined.

Lemma X1_insert_then_lookup_witness :
  Db.query_user_alert "42" "tt001"
    (fst (Db.insert (Demo.movie_row "42" "tt001" Demo.today) []))
  = Some (Some "A Film (2024)").
Proof.
  exact (proj1 (proj2 (X1_insert_then_lookup
                         (Demo.movie_row "42" "tt001" Demo.today) []))
               eq_refl).
Defined.

(** * The listings *)

Lemma query_title_id_in (u t : string) (db : Db.table) :
  In t (Db.query_title_id u db) <-> In (u, t) (map Db.key db).
Proof.
  unfold Db.query_title_id. rewrite !in_map_iff. split.
  - intros (r & <- & Hin). apply filter_In in Hin as [Hin Hu].
    apply String.eqb_eq in Hu. exists r. split; [|exact Hin].
    unfold Db.key. now rewrite Hu.
  - intros (r & Hkey & Hin). unfold Db.key in Hkey.
    injection Hkey as Hu Ht. exists r. split; [exact Ht|].
    apply filter_In. split; [exact Hin|]. now apply String.eqb_eq.
Qed.

Lemma listing_lengths (u : string) (db : Db.table) :
  List.length (Db.query_title_id u db)
  = List.length (Db.query_title_name u db).
Proof.
  unfold Db.query_title_id, Db.query_title_name. now rewrite !length_map.
Qed.

(** X5: the listing of a user's title ids holds exactly the titles whose
    lookup for that user finds a record, and it is as long as the listing
    of the user's title names. *)
Theorem X5_listing_agrees_with_lookup (u : string) (db : Db.table) :
  (forall t, In t (Db.query_title_id u db)
             <-> Db.query_user_alert u t db <> None)
  /\ List.length (Db.query_title_id u db)
     = List.length (Db.query_title_name u db).
Proof.
  split.
  - intros t. rewrite query_title_id_in. symmetry.
    apply query_user_alert_some.
  - apply listing_lengths.
Qed.

Lemma user_filter_update (u : string)
      (values : string * datetime * string * string) (db : Db.table) :
  map Db.title_id (filter (fun r => String.eqb (Db.user_id r) u)
                          (Db.update values db))
  = map Db.title_id (filter (fun r => String.eqb (Db.user_id r) u) db)
  /\ map Db.title_name (filter (fun r => String.eqb (Db.user_id r) u)
                               (Db.update values db))
     = map Db.title_name (filter (fun r => String.eqb (Db.user_id r) u) db).
Proof.
  destruct values as [[[e d] u'] t']. unfold Db.update.
  induction db as [|r db [IHid IHname]]; [split; reflexivity|].
  cbn [map filter].
  destruct (Db.has_key u' t' r); cbn [Db.user_id];
    destruct (String.eqb (Db.user_id r) u);
    cbn [map Db.title_id Db.title_name];
    split; congruence.
Qed.

(** X6: an update leaves every user's listings of ids and names as they
    were; a delete takes the title out of its user's listing of ids and
    leaves the listings of the other users as they were. *)
Theorem X6_listings_under_update_and_delete
        (u t : string) (db : Db.table) :
  (forall values u',
      Db.query_title_id u' (Db.update values db) = Db.query_title_id u' db
      /\ Db.query_title_name u' (Db.update values db)
         = Db.query_title_name u' db)
  /\ Db.query_title_id u (fst (Db.delete u t db))
     = filter (fun x => negb (String.eqb x t)) (Db.query_title_id u db)
  /\ (forall u', u' <> u ->
                 Db.query_title_id u' (fst (Db.delete u t db))
                 = Db.query_title_id u' db
                 /\ Db.query_title_name u' (fst (Db.delete u t db))
                    = Db.query_title_name u' db).
Proof.
  split; [|split].
  - intros values u'. apply user_filter_update.
  - unfold Db.query_title_id. cbn [fst Db.delete].
    induction db as [|r db IH]; [reflexivity|].
    cbn [filter]. unfold Db.has_key at 1.
    destruct (String.eqb (Db.user_id r) u) eqn:Hu; cbn [andb negb].
    + destruct (String.eqb (Db.title_id r) t) eqn:Ht; cbn [negb].
      * cbn [map filter]. rewrite Ht. cbn [negb]. exact IH.
      * cbn [filter map]. rewrite Hu. cbn [map filter]. rewrite Ht.
        cbn [negb]. now rewrite IH.
    + cbn [filter]. rewrite Hu. exact IH.
  - intros u' Hne. unfold Db.query_title_id, Db.query_title_name.
    cbn [fst Db.delete].
    assert (Hsame :
      filter (fun r => String.eqb (Db.user_id r) u')
             (filter (fun r => negb (Db.has_key u t r)) db)
      = filter (fun r => String.eqb (Db.user_id r) u') db).
    { induction db as [|r db IH]; [reflexivity|].
      cbn [filter]. unfold Db.has_key at 1.
      destruct (String.eqb (Db.user_id r) u) eqn:Hu; cbn [andb negb].
      - apply String.eqb_eq in Hu.
        assert (String.eqb (Db.user_id r) u' = false) as Hu'
          by (apply String.eqb_neq; congruence).
        destruct (String.eqb (Db.title_id r) t); cbn [negb filter];
          rewrite Hu'; exact IH.
      - cbn [filter]. destruct (String.eqb (Db.user_id r) u');
          [now rewrite IH | exact IH]. }
    now rewrite Hsame.
Qed.

Lemma X6_listings_under_update_and_delete_witness :
  Db.query_title_id "1"
    (fst (Db.delete "2" "tt001" [ Demo.movie_row "1" "tt001" Demo.today;
                                  Demo.movie_row "2" "tt001" Demo.today ]))
  = ["tt001"].
Proof.
  refine (eq_trans
            (proj1 (proj2 (proj2 (X6_listings_under_update_and_delete
                                    "2" "tt001"
                                    [ Demo.movie_row "1" "tt001" Demo.today;
                                      Demo.movie_row "2" "tt001" Demo.today ]))
                          "1" _))
            eq_refl).
  discriminate.
Defined.

Lemma join_some (sep : string) (items : list (option string)) :
  Listing.join sep items <> None <-> Forall (fun i => i <> None) items.
Proof.
  induction items as [|i items IH].
  - split; [constructor | discriminate].
  - destruct i as [s|].
    + cbn [Listing.join]. destruct items as [|i' items'].
      * split; [repeat constructor; discriminate | discriminate].
      * destruct (Listing.join sep (i' :: items')) as [r|].
        -- split; [|discriminate]. intros _. constructor; [discriminate|].
           apply IH. discriminate.
        -- split; [intros H; now elim H|]. intros H.
           inversion H as [|x xs _ Hrest]; subst. now apply IH.
    + cbn [Listing.join]. split; [intros H; now elim H|].
      intros H. inversion H as [|x xs Hx _]; subst. now elim Hx.
Qed.

(** X7: what [title_name] answers. A user without records gets the "no
    alerts" text; a user one of whose records has no title name gets the
    error text; any other user gets the header followed by the names of
    the user's records, one per line, in the order of the table. The
    table is never written. *)
Theorem X7_title_name_answers (user_id : string) (db : Db.table) :
  let names := Db.query_title_name user_id db in
  snd (Listing.title_name user_id db) = db
  /\ (names = [] ->
      fst (Listing.title_name user_id db) = Ok Listing.no_alerts_message)
  /\ (names <> [] -> Forall (fun i => i <> None) names ->
      exists text,
        Listing.join newline names = Some text
        /\ fst (Listing.title_name user_id db)
           = Ok (Listing.alerts_header ++ text)%string)
  /\ (Exists (fun i => i = None) names ->
      fst (Listing.title_name user_id db) = Ok error_message)
  /\ (fst (Listing.title_name user_id db) = Ok Listing.no_alerts_message
      <-> Db.query_title_id user_id db = []).
Proof.
  cbv zeta. unfold Listing.title_name, Listing.caught, ret. cbn [fst snd].
  split; [reflexivity|]. split; [|split; [|split]].
  - intros ->. reflexivity.
  - intros Hne Hall. apply (proj2 (join_some newline _)) in Hall.
    destruct (Db.query_title_name user_id db) as [|n names];
      [now elim Hne|].
    destruct (Listing.join newline (n :: names)) as [text|];
      [|now elim Hall].
    exists text. split; reflexivity.
  - intros Hex.
    assert (Hnone : Listing.join newline (Db.query_title_name user_id db)
                    = None).
    { destruct (Listing.join newline (Db.query_title_name user_id db))
        as [text|] eqn:Hjoin; [|reflexivity].
      assert (Hall : Forall (fun i => i <> None)
                            (Db.query_title_name user_id db))
        by (apply (join_some newline); rewrite Hjoin; discriminate).
      apply Exists_exists in Hex as (i & Hin & ->).
      elim (proj1 (Forall_forall _ _) Hall None Hin). reflexivity. }
    destruct (Db.query_title_name user_id db) as [|n names];
      [inversion Hex|].
    now rewrite Hnone.
  - pose proof (listing_lengths user_id db) as Hlen.
    destruct (Db.query_title_name user_id db) as [|n names] eqn:Hnames.
    + destruct (Db.query_title_id user_id db); [|discriminate Hlen].
      split; reflexivity.
    + destruct (Db.query_title_id user_id db); [discriminate Hlen|].
      split; [|discriminate].
      destruct (Listing.join newline (n :: names));
        intros H; vm_compute in H; discriminate H.
Qed.

Lemma X7_title_name_answers_witness :
  fst (Listing.title_name "9" [Demo.movie_row "1" "tt001" Demo.today])
  = Ok Listing.no_alerts_message.
Proof.
  exact (proj1 (proj2 (X7_title_name_answers
                         "9" [Demo.movie_row "1" "tt001" Demo.today]))
               eq_refl).
Defined.

(** * Further properties of the subscribe path *)

Ltac other_text :=
  let H := fresh "H" in
  intros H; vm_compute in H; discriminate H.

Lemma movie_path_outcome (imdb_api : api) (now : datetime)
      (user_id user_name title_id : string)
      (title_name : option string) (db : Db.table) :
  Frame.enabled_iff_written user_id user_name title_id db
    (_get_movie_release_date imdb_api now user_id user_name title_id
                             title_name db).
Proof.
  unfold Frame.enabled_iff_written, _get_movie_release_date,
    catch_and_log, bind, call, ret.
  destruct (get_movie_release_info imdb_api title_id) as [[[|r rs]|]|e];
    cbn [fst snd];
    try (right; split; [eexists; split; [reflexivity | other_text]
                       | reflexivity]).
  destruct (usa_release_date (r :: rs)) as [|date0 others];
    [right; split; [eexists; split; [reflexivity | other_text]
                   | reflexivity]|].
  destruct (movie_date date0) as [[release_date|e]|];
    try (right; split; [eexists; split; [reflexivity | other_text]
                       | reflexivity]).
  destruct (gtb release_date now); cbn [fst snd].
  - left. split; [reflexivity|]. eexists. repeat split.
  - right. split; [eexists; split; [reflexivity | other_text]
                  | reflexivity].
Qed.

Lemma episode_loop_outcome (now : datetime)
      (user_id user_name title_id : string) (title_name : option string)
      (current_season len : Z) (items : list (Z * Movie))
      (message : option string) (db : Db.table) :
  message = None \/ message = Some unable_message ->
  Frame.enabled_iff_written user_id user_name title_id db
    (catch_and_log id
       (episode_loop now user_id user_name title_id title_name
                     current_season len items message) db).
Proof.
  revert message. induction items as [|[ep_no ep_data] items IH];
    intros message Hmessage.
  - right. destruct Hmessage as [-> | ->]; cbn;
      (split; [eexists; split; [reflexivity | other_text] | reflexivity]).
  - unfold catch_and_log in *. cbn [episode_loop].
    destruct (episode_date (original_air_date ep_data))
      as [[text [release_date|e]]|].
    + unfold bind, call. destruct (ltb release_date now).
      * destruct (ep_no =? len); [|exact (IH message Hmessage)].
        right. cbn [ret fst snd].
        split; [eexists; split; [reflexivity | other_text] | reflexivity].
      * left. cbn. split; [reflexivity|]. eexists. repeat split.
    + right. cbn.
      split; [eexists; split; [reflexivity | other_text] | reflexivity].
    + apply IH. right. reflexivity.
Qed.

Lemma enable_outcome
        (imdb_api : api) (now : datetime)
        (user_id user_name title_id : string) (db : Db.table) :
  Frame.enabled_iff_written user_id user_name title_id db
    (enable imdb_api now user_id user_name title_id db).
Proof.
  unfold enable, catch_and_log at 1, bind at 1, call at 1.
  destruct (get_movie imdb_api title_id) as [imdb_data|e].
  - assert (Hmovie :
      Frame.enabled_iff_written user_id user_name title_id db
        (let (r, db') :=
           _get_movie_release_date imdb_api now user_id user_name title_id
                                   (long_imdb_title imdb_data) db in
         match r with
         | Ok a => (Ok a, db')
         | Raise _ => (Ok (id error_message), db')
         end)).
    { pose proof (movie_path_outcome imdb_api now user_id user_name title_id
                    (long_imdb_title imdb_data) db) as H.
      destruct (_get_movie_release_date imdb_api now user_id user_name
                  title_id (long_imdb_title imdb_data) db) as [[s|e] db'].
      - exact H.
      - destruct H as [[H _] | [(s & H & _) _]]; discriminate H. }
    destruct (seasons imdb_data) as [[|season more]|]; try exact Hmovie.
    unfold _get_episode_release_date.
    pose proof (episode_loop_outcome now user_id user_name title_id
                  (long_imdb_title imdb_data)) as Hloop.
    unfold catch_and_log in *. unfold bind at 1, call at 1.
    destruct (get_movie_episodes imdb_api title_id)
      as [[[|[current_season latest_episodes] older]|]|e];
      try (right; cbn;
           split; [eexists; split; [reflexivity | other_text]
                  | reflexivity]).
    specialize (Hloop current_season
                      (Z.of_nat (List.length latest_episodes))
                      latest_episodes None db (or_introl eq_refl)).
    destruct (episode_loop now user_id user_name title_id
                (long_imdb_title imdb_data) current_season
                (Z.of_nat (List.length latest_episodes))
                latest_episodes None db) as [[s|e] db']; exact Hloop.
  - right. cbn.
    split; [eexists; split; [reflexivity | other_text] | reflexivity].
Qed.

(** X8: [enable] answers "Alert enabled." exactly when it has written:
    either the answer is that text and the table has one more row, at its
    end, with the caller's user id, user name and title id; or the answer
    is another text and the table is as it was. It never raises. *)
Theorem X8_enabled_iff_written
        (imdb_api : api) (now : datetime)
        (user_id user_name title_id : string) (db : Db.table) :
  Frame.enabled_iff_written user_id user_name title_id db
    (enable imdb_api now user_id user_name title_id db).
Proof. apply enable_outcome. Qed.

Lemma enable_series_run (imdb_api : api) (now : datetime)
      (user_id user_name title_id : string) (db : Db.table)
      (imdb_data : Movie) (season : string) (more_seasons : list string)
      (current_season : Z) (latest_episodes : list (Z * Movie))
      (older : episodes) (s : string) (db' : Db.table) :
  get_movie imdb_api title_id = Ok imdb_data ->
  seasons imdb_data = Some (season :: more_seasons) ->
  get_movie_episodes imdb_api title_id
  = Ok (Some ((current_season, latest_episodes) :: older)) ->
  episode_loop now user_id user_name title_id (long_imdb_title imdb_data)
               current_season (Z.of_nat (List.length latest_episodes))
               latest_episodes None db = (Ok s, db') ->
  enable imdb_api now user_id user_name title_id db = (Ok s, db').
Proof.
  intros Hmovie Hseasons Hepisodes Hloop.
  unfold enable, catch_and_log at 1, bind at 1, call at 1.
  rewrite Hmovie, Hseasons.
  unfold _get_episode_release_date, catch_and_log, bind at 1, call at 1.
  rewrite Hepisodes, Hloop. reflexivity.
Qed.

(** X9: in the series path, when every episode of the current season
    before some episode is passed over (aired and not numbered as the
    last, or without a usable date) and that episode's air date resolves
    to a date that is not before the clock, [enable] subscribes to that
    episode: one row with its id and date, and the success text. Later
    episodes and older seasons play no part. *)
Theorem X9_first_upcoming_episode_is_tracked
        (imdb_api : api) (now : datetime)
        (user_id user_name title_id : string) (db : Db.table)
        (imdb_data : Movie) (season : string) (more_seasons : list string)
        (current_season ep_no : Z) (ep_data : Movie)
        (before after : list (Z * Movie)) (older : episodes)
        (text : string) (release_date : datetime) :
  let latest_episodes := before ++ (ep_no, ep_data) :: after in
  let len := Z.of_nat (List.length latest_episodes) in
  get_movie imdb_api title_id = Ok imdb_data ->
  seasons imdb_data = Some (season :: more_seasons) ->
  get_movie_episodes imdb_api title_id
  = Ok (Some ((current_season, latest_episodes) :: older)) ->
  Forall (fun i => passed_over now len i = true) before ->
  episode_date (original_air_date ep_data) = Some (text, Ok release_date) ->
  ltb release_date now = false ->
  enable imdb_api now user_id user_name title_id db
  = (Ok "Alert enabled.",
     db ++ [Db.mkRow user_id user_name title_id (long_imdb_title imdb_data)
                     (Some (getID ep_data)) release_date]).
Proof.
  intros latest_episodes len. subst latest_episodes len.
  set (len := Z.of_nat (List.length (before ++ (ep_no, ep_data) :: after))).
  intros Hmovie Hseasons Hepisodes Hbefore Hdate Hupcoming.
  apply (enable_series_run imdb_api now user_id user_name title_id db
           imdb_data season more_seasons current_season _ older
           _ _ Hmovie Hseasons Hepisodes).
  fold len.
  destruct (episode_loop_prefix now user_id user_name title_id
              (long_imdb_title imdb_data) current_season len before
              ((ep_no, ep_data) :: after) None db Hbefore) as [message ->].
  cbn [episode_loop]. rewrite Hdate. unfold bind, call.
  rewrite Hupcoming. reflexivity.
Qed.

Lemma X9_first_upcoming_episode_is_tracked_witness :
  enable Demo.api Demo.now "42" "Ann" "tt200" []
  = (Ok "Alert enabled.",
     [Db.mkRow "42" "Ann" "tt200" (Some "A Series (2020- )")
               (Some "ep203") (mkDatetime 2024 6 10 0 0 0 0)]).
Proof.
  apply (X9_first_upcoming_episode_is_tracked
           Demo.api Demo.now "42" "Ann" "tt200" []
           (mkMovie "tt200" (Some "A Series (2020- )")
                    (Some ["1"; "2"]) None None)
           "1" ["2"] 2 3 (Demo.episode "ep203" (Some "10 Jun. 2024") None)
           [ (1, Demo.episode "ep201" (Some "20 May 2024") None);
             (2, Demo.episode "ep202" None None) ]
           []
           [ (1, [ (1, Demo.episode "ep101" (Some "3 Jan. 2023") None) ]) ]
           "10 Jun 2024" (mkDatetime 2024 6 10 0 0 0 0));
    try reflexivity; repeat constructor.
Defined.

(** X10: in the series path, when every episode before some episode is
    passed over and that episode has aired and is numbered with the
    length of the season, [enable] writes nothing and answers
    "Season <key> finale aired <date>", the date as it was parsed (without
    periods). *)
Theorem X10_aired_finale_is_reported
        (imdb_api : api) (now : datetime)
        (user_id user_name title_id : string) (db : Db.table)
        (imdb_data : Movie) (season : string) (more_seasons : list string)
        (current_season ep_no : Z) (ep_data : Movie)
        (before after : list (Z * Movie)) (older : episodes)
        (text : string) (release_date : datetime) :
  let latest_episodes := before ++ (ep_no, ep_data) :: after in
  let len := Z.of_nat (List.length latest_episodes) in
  get_movie imdb_api title_id = Ok imdb_data ->
  seasons imdb_data = Some (season :: more_seasons) ->
  get_movie_episodes imdb_api title_id
  = Ok (Some ((current_season, latest_episodes) :: older)) ->
  Forall (fun i => passed_over now len i = true) before ->
  episode_date (original_air_date ep_data) = Some (text, Ok release_date) ->
  ltb release_date now = true ->
  ep_no = len ->
  enable imdb_api now user_id user_name title_id db
  = (Ok ("Season " ++ str_of_int current_season
         ++ " finale aired " ++ text)%string, db).
Proof.
  intros latest_episodes len. subst latest_episodes len.
  set (len := Z.of_nat (List.length (before ++ (ep_no, ep_data) :: after))).
  intros Hmovie Hseasons Hepisodes Hbefore Hdate Haired Hlast.
  apply (enable_series_run imdb_api now user_id user_name title_id db
           imdb_data season more_seasons current_season _ older
           _ _ Hmovie Hseasons Hepisodes).
  fold len.
  destruct (episode_loop_prefix now user_id user_name title_id
              (long_imdb_title imdb_data) current_season len before
              ((ep_no, ep_data) :: after) None db Hbefore) as [message ->].
  cbn [episode_loop]. rewrite Hdate. unfold bind, call.
  rewrite Haired. rewrite (proj2 (Z.eqb_eq ep_no len) Hlast). reflexivity.
Qed.

Lemma X10_aired_finale_is_reported_witness :
  enable Demo2.api Demo.now "42" "Ann" "tt300" []
  = (Ok "Season 3 finale aired 20 May 2024", []).
Proof.
  apply (X10_aired_finale_is_reported
           Demo2.api Demo.now "42" "Ann" "tt300" []
           (mkMovie "tt300" (Some "Another Series (2019- )")
                    (Some ["3"]) None None)
           "3" [] 3 2 (Demo.episode "e32" (Some "20 May. 2024") None)
           [ (1, Demo.episode "e31" (Some "13 May 2024") None) ]
           [] [] "20 May 2024" (mkDatetime 2024 5 20 0 0 0 0));
    try reflexivity; repeat constructor.
Defined.

Lemma enable_movie_run (imdb_api : api) (now : datetime)
      (user_id user_name title_id : string) (db : Db.table)
      (imdb_data : Movie) :
  get_movie imdb_api title_id = Ok imdb_data ->
  seasons imdb_data = None \/ seasons imdb_data = Some [] ->
  enable imdb_api now user_id user_name title_id db
  = _get_movie_release_date imdb_api now user_id user_name title_id
      (long_imdb_title imdb_data) db.
Proof.
  intros Hmovie Hseasons.
  unfold enable, catch_and_log at 1, bind at 1, call at 1. rewrite Hmovie.
  destruct Hseasons as [-> | ->];
    unfold _get_movie_release_date, catch_and_log;
    match goal with
    | |- context [bind ?m ?f db] => destruct (bind m f db) as [[s|e] db']
    end; reflexivity.
Qed.

Lemma enable_episodes_run (imdb_api : api) (now : datetime)
      (user_id user_name title_id : string) (db : Db.table)
      (imdb_data : Movie) (season : string) (more_seasons : list string) :
  get_movie imdb_api title_id = Ok imdb_data ->
  seasons imdb_data = Some (season :: more_seasons) ->
  enable imdb_api now user_id user_name title_id db
  = _get_episode_release_date imdb_api now user_id user_name title_id
      (long_imdb_title imdb_data) db.
Proof.
  intros Hmovie Hseasons.
  unfold enable, catch_and_log at 1, bind at 1, call at 1.
  rewrite Hmovie, Hseasons.
  unfold _get_episode_release_date, catch_and_log;
    match goal with
    | |- context [bind ?m ?f db] => destruct (bind m f db) as [[s|e] db']
    end; reflexivity.
Qed.

(** X11: the answers of [enable] when data is missing, none of which
    writes. A failed fetch of the title, of its release dates or of its
    episodes gives the error text; a title without seasons and without a
    release list gives "No release date found"; without a USA entry free
    of notes, or with one whose date fails the pattern, "Unable to find
    USA release date"; a title with seasons and without an episode map
    gives "Unable to get series episodes". *)
Theorem X11_answers_on_missing_data
        (imdb_api : api) (now : datetime)
        (user_id user_name title_id : string) (db : Db.table) :
  let answer := enable imdb_api now user_id user_name title_id db in
  (forall e, get_movie imdb_api title_id = Raise e ->
             answer = (Ok error_message, db))
  /\ (forall imdb_data,
        get_movie imdb_api title_id = Ok imdb_data ->
        seasons imdb_data = None \/ seasons imdb_data = Some [] ->
        (forall e, get_movie_release_info imdb_api title_id = Raise e ->
                   answer = (Ok error_message, db))
        /\ (get_movie_release_info imdb_api title_id = Ok None
            \/ get_movie_release_info imdb_api title_id = Ok (Some []) ->
            answer = (Ok "No release date found", db))
        /\ (forall release_dates,
              get_movie_release_info imdb_api title_id
              = Ok (Some release_dates) ->
              release_dates <> [] ->
              match usa_release_date release_dates with
              | [] => True
              | date0 :: _ => Re.matches Re.movie_date_regex date0 = false
              end ->
              answer = (Ok "Unable to find USA release date", db)))
  /\ (forall imdb_data season more_seasons,
        get_movie imdb_api title_id = Ok imdb_data ->
        seasons imdb_data = Some (season :: more_seasons) ->
        (forall e, get_movie_episodes imdb_api title_id = Raise e ->
                   answer = (Ok error_message, db))
        /\ (get_movie_episodes imdb_api title_id = Ok None
            \/ get_movie_episodes imdb_api title_id = Ok (Some []) ->
            answer = (Ok "Unable to get series episodes", db))).
Proof.
  cbv zeta. split; [|split].
  - intros e He. unfold enable, catch_and_log, bind, call.
    rewrite He. reflexivity.
  - intros imdb_data Hmovie Hseasons.
    rewrite (enable_movie_run imdb_api now user_id user_name title_id db
               imdb_data Hmovie Hseasons).
    unfold _get_movie_release_date, catch_and_log, bind, call.
    split; [|split].
    + intros e ->. reflexivity.
    + intros [-> | ->]; reflexivity.
    + intros release_dates -> Hne Husa.
      destruct release_dates as [|r rs]; [now elim Hne|].
      destruct (usa_release_date (r :: rs)) as [|date0 others];
        [reflexivity|].
      unfold movie_date. rewrite Husa. reflexivity.
  - intros imdb_data season more_seasons Hmovie Hseasons.
    rewrite (enable_episodes_run imdb_api now user_id user_name title_id db
               imdb_data season more_seasons Hmovie Hseasons).
    unfold _get_episode_release_date, catch_and_log, bind, call.
    split.
    + intros e ->. reflexivity.
    + intros [-> | ->]; reflexivity.
Qed.

Lemma X11_answers_on_missing_data_witness :
  enable Demo.api Demo.now "42" "Ann" "tt404" [] = (Ok error_message, [])
  /\ enable Demo.api Demo.now "42" "Ann" "tt003" []
     = (Ok "No release date found", [])
  /\ enable Demo2.api Demo.now "42" "Ann" "tt301" []
     = (Ok "Unable to get series episodes", []).
Proof.
  split; [|split].
  - exact (proj1 (X11_answers_on_missing_data
                    Demo.api Demo.now "42" "Ann" "tt404" [])
                 IMDbError eq_refl).
  - exact (proj1 (proj2 (proj1 (proj2 (X11_answers_on_missing_data
                                          Demo.api Demo.now "42" "Ann"
                                          "tt003" []))
                               (mkMovie "tt003" (Some "A Film (2024)")
                                        None None None)
                               eq_refl (or_introl eq_refl)))
                 (or_introl eq_refl)).
  - exact (proj2 (proj2 (proj2 (X11_answers_on_missing_data
                                  Demo2.api Demo.now "42" "Ann" "tt301" []))
                        (mkMovie "tt301" (Some "Another Series (2019- )")
                                 (Some ["3"]) None None)
                        "3" [] eq_refl eq_refl)
                 (or_introl eq_refl)).
Defined.

(** X12: subscribing and then unsubscribing restores the table. When the
    key had no record before, [disable] after [enable] leaves the table
    exactly as it was before [enable], whatever [enable] answered. *)
Theorem X12_enable_then_disable_restores
        (imdb_api : api) (now : datetime)
        (user_id user_name title_id : string) (db : Db.table) :
  Db.query_user_alert user_id title_id db = None ->
  snd (disable user_id title_id
         (snd (enable imdb_api now user_id user_name title_id db)))
  = db.
Proof.
  intros Hnone. rewrite disable_run. cbn [snd].
  pose proof (delete_absent user_id title_id db Hnone) as Hsame.
  cbn [fst Db.delete] in Hsame.
  destruct (enable_outcome imdb_api now user_id user_name title_id db)
    as [(_ & row & -> & Hu & _ & Ht) | [_ ->]]; [|exact Hsame].
  rewrite filter_app, Hsame. cbn [filter].
  rewrite <- Hu, <- Ht, has_key_of_row. cbn [negb]. apply app_nil_r.
Qed.

Lemma X12_enable_then_disable_restores_witness :
  snd (disable "42" "tt001"
         (snd (enable Demo.api Demo.now "42" "Ann" "tt001"
                      [Demo.movie_row "1" "tt001" Demo.today])))
  = [Demo.movie_row "1" "tt001" Demo.today].
Proof.
  exact (X12_enable_then_disable_restores
           Demo.api Demo.now "42" "Ann" "tt001"
           [Demo.movie_row "1" "tt001" Demo.today] eq_refl).
Defined.

(** X13: after [enable] has answered "Alert enabled.", the record is
    there for the rest of the engine: the lookup of the key finds a
    record, [title_id] lists the title for the user, and [title_name]
    no longer answers that the user has no alerts. *)
Theorem X13_enabled_alert_is_listed
        (imdb_api : api) (now : datetime)
        (user_id user_name title_id : string) (db : Db.table) :
  fst (enable imdb_api now user_id user_name title_id db)
  = Ok "Alert enabled." ->
  let db' := snd (enable imdb_api now user_id user_name title_id db) in
  Db.query_user_alert user_id title_id db' <> None
  /\ (exists titles,
         fst (Listing.title_id user_id db') = Ok (inl titles)
         /\ In title_id titles)
  /\ fst (Listing.title_name user_id db') <> Ok Listing.no_alerts_message.
Proof.
  intros Henabled db'. subst db'.
  destruct (enable_outcome imdb_api now user_id user_name title_id db)
    as [(_ & row & Hdb & Hu & _ & Ht) | [(s & Hs & Hne) _]].
  2: { rewrite Hs in Henabled. injection Henabled as ->. now elim Hne. }
  rewrite Hdb.
  assert (Hin : In (user_id, title_id) (map Db.key (db ++ [row]))).
  { rewrite map_app. apply in_or_app. right. left.
    unfold Db.key. now rewrite Hu, Ht. }
  assert (Hlisted : In title_id (Db.query_title_id user_id (db ++ [row])))
    by (now apply query_title_id_in).
  split; [now apply query_user_alert_some|]. split.
  - exists (Db.query_title_id user_id (db ++ [row])).
    split; [reflexivity | exact Hlisted].
  - unfold Listing.title_name, Listing.caught, ret. cbn [fst].
    pose proof (listing_lengths user_id (db ++ [row])) as Hlen.
    destruct (Db.query_title_name user_id (db ++ [row])) as [|n names].
    + destruct (Db.query_title_id user_id (db ++ [row]));
        [inversion Hlisted | discriminate Hlen].
    + destruct (Listing.join newline (n :: names)); other_text.
Qed.

Lemma X13_enabled_alert_is_listed_witness :
  Db.query_user_alert "42" "tt001"
    (snd (enable Demo.api Demo.now "42" "Ann" "tt001" [])) <> None.
Proof.
  exact (proj1 (X13_enabled_alert_is_listed
                  Demo.api Demo.now "42" "Ann" "tt001" [] eq_refl)).
Defined.

(** * Further properties of the daily tick *)

Lemma without_cons (k : string * string) (keys : list (string * string))
      (db : Db.table) :
  Frame.without (k :: keys) db
  = Frame.without keys (fst (Db.delete (fst k) (snd k) db)).
Proof.
  unfold Frame.without. cbn [fst Db.delete existsb].
  induction db as [|r db IH]; [reflexivity|].
  cbn [filter]. destruct (Db.has_key (fst k) (snd k) r); cbn [orb negb].
  - exact IH.
  - cbn [filter].
    destruct (existsb (fun k0 => Db.has_key (fst k0) (snd k0) r) keys);
      cbn [negb]; [exact IH | now rewrite IH].
Qed.

Lemma without_nil (db : Db.table) : Frame.without [] db = db.
Proof.
  unfold Frame.without. cbn [existsb negb].
  induction db as [|r db IH]; [reflexivity|]. cbn [filter]. now rewrite IH.
Qed.

Section MoreTick.

Variable imdb_api : api.
Variable now : datetime.
Variable title_details : Movie -> string.

Let today := replace_midnight now.
Let row_step := notify_row imdb_api now title_details today.
Let loop := notify_loop imdb_api now title_details today.

Let movie_due := Frame.movie_due imdb_api.
Let movie_alert := Frame.movie_alert imdb_api title_details.

Lemma notify_loop_movies (rows : list (string * string * option string))
      (alerts : list alert) (db : Db.table) :
  Forall movie_due rows ->
  exists new,
    loop rows alerts db
    = (Ok (alerts ++ new), Frame.without (map Frame.due_key rows) db)
    /\ Forall2 movie_alert new rows.
Proof.
  intros Hrows. revert alerts db.
  induction Hrows as [|[[u t] e] rows [Hmovie [title_data Hget]] _ IH];
    intros alerts db.
  - exists []. rewrite app_nil_r, without_nil. split; [reflexivity|].
    constructor.
  - cbn [snd fst] in Hmovie, Hget.
    destruct (IH (alerts ++ [(u, Frame.movie_out_message title_details
                                   title_data)])
                 (fst (Db.delete u t db))) as (new & Hloop & Hnew).
    exists ((u, Frame.movie_out_message title_details title_data) :: new).
    split.
    + unfold loop in *. cbn [notify_loop map]. rewrite without_cons.
      cbn [Frame.due_key fst snd].
      assert (Hrow :
        notify_row imdb_api now title_details today (u, t, e) alerts db
        = (Ok (alerts ++ [(u, Frame.movie_out_message title_details
                                 title_data)]),
           fst (Db.delete u t db))).
      { unfold notify_row. rewrite Hmovie. unfold bind, call, db_delete, ret.
        rewrite Hget. reflexivity. }
      rewrite (bind_ok _ _ _ _ _ Hrow), Hloop.
      now rewrite <- app_assoc.
    + constructor; [|exact Hnew]. split; [reflexivity|].
      exists title_data. split; [exact Hget | reflexivity].
Qed.

Lemma none_due_without (keys : list (string * string)) (db : Db.table) :
  (forall r, In r db ->
             Datetime.eqb (Db.title_release r) today = true ->
             existsb (fun k => Db.has_key (fst k) (snd k) r) keys = true) ->
  Db.query_released today (Frame.without keys db) = [].
Proof.
  unfold Db.query_released, Frame.without.
  induction db as [|r db IH]; intros Hall; [reflexivity|].
  cbn [filter].
  destruct (existsb (fun k => Db.has_key (fst k) (snd k) r) keys)
    eqn:Hexists; cbn [negb].
  - apply IH. intros r' Hin. apply Hall. now right.
  - cbn [filter].
    destruct (Datetime.eqb (Db.title_release r) today) eqn:Hdue.
    + rewrite (Hall r (or_introl eq_refl) Hdue) in Hexists.
      discriminate Hexists.
    + apply IH. intros r' Hin. apply Hall. now right.
Qed.

Lemma none_due_left (db : Db.table) :
  Db.query_released today
    (Frame.without (map Frame.due_key (Db.query_released today db)) db)
  = [].
Proof.
  apply none_due_without. intros r Hin Hdue.
  apply existsb_exists. exists (Db.user_id r, Db.title_id r).
  split; [|apply has_key_of_row].
  apply in_map_iff.
  exists (Db.user_id r, Db.title_id r, Db.title_episode_id r).
  split; [reflexivity|].
  unfold Db.query_released. apply in_map_iff. exists r.
  split; [reflexivity|]. apply filter_In. now split.
Qed.

(** X14: a tick whose due records are all movie records, each with a
    title that IMDb returns, answers with one "Movie is out!" alert for
    each due record, in their order and to their users; it removes the
    rows of the keys of the due records and no others, and no record due
    today is left. *)
Theorem X14_movie_records_are_finalised (db : Db.table) :
  Forall movie_due (Db.query_released today db) ->
  exists alerts,
    notify imdb_api now title_details db
    = (Ok (inl alerts),
       Frame.without (map Frame.due_key (Db.query_released today db)) db)
    /\ Forall2 movie_alert alerts (Db.query_released today db)
    /\ Db.query_released today
         (snd (notify imdb_api now title_details db)) = [].
Proof.
  intros Hdue.
  destruct (notify_loop_movies (Db.query_released today db) [] db Hdue)
    as (alerts & Hloop & Halerts).
  exists alerts.
  assert (Hrun :
    notify imdb_api now title_details db
    = (Ok (inl alerts),
       Frame.without (map Frame.due_key (Db.query_released today db)) db)).
  { unfold notify. apply catch_and_log_of_ok.
    rewrite (bind_ok _ _ db db (Db.query_released today db)) by reflexivity.
    rewrite (bind_ok _ _ _ _ _ Hloop). reflexivity. }
  split; [exact Hrun|]. split; [exact Halerts|].
  rewrite Hrun. cbn [snd]. apply none_due_left.
Qed.

(** The loop body on a due series record whose current episode has no
    next-episode link: the rows of the key are removed and the finale
    alert is added. *)
Lemma notify_row_finale
        (user_id title_id episode_id text : string)
        (current_episode : Movie) (current_release_date : datetime)
        (alerts : list alert) (db : Db.table) :
  truthy_str episode_id = true ->
  get_episode imdb_api episode_id = Ok current_episode ->
  original_air_date current_episode = Some text ->
  strptime_d_b_Y (remove_char "," text) = Ok current_release_date ->
  truthy (next_episode current_episode) = false ->
  row_step (user_id, title_id, Some episode_id) alerts db
  = (Ok (alerts ++ [(user_id,
                     Frame.finale_message title_details current_episode)]),
     fst (Db.delete user_id title_id db)).
Proof.
  intros Htruthy Hget Hair Hparse Hnext.
  unfold row_step, notify_row. simpl. rewrite Htruthy.
  rewrite (bind_ok _ _ db db current_episode)
    by (unfold call; now rewrite Hget).
  rewrite Hair.
  rewrite (bind_ok _ _ db db (remove_char "," text)) by reflexivity.
  rewrite (bind_ok _ _ db db current_release_date)
    by (unfold call; now rewrite Hparse).
  assert (Hupdate :
    _update_episode imdb_api now user_id title_id current_episode db
    = (Ok (next_episode current_episode),
       fst (Db.delete user_id title_id db))).
  { unfold _update_episode, catch_and_log, bind, db_delete, ret.
    rewrite Hnext. reflexivity. }
  rewrite (bind_ok _ _ _ _ _ Hupdate). rewrite Hnext. reflexivity.
Qed.

(** The loop body on a due series record whose next episode cannot be
    resolved: the update step answers with the error text and writes
    nothing, and "Episode is out!!" is added exactly when the current
    episode's air date is today. *)
Lemma notify_row_unresolved
        (user_id title_id episode_id next_id text : string)
        (current_episode : Movie) (current_release_date : datetime)
        (alerts : list alert) (db : Db.table) :
  truthy_str episode_id = true ->
  get_episode imdb_api episode_id = Ok current_episode ->
  original_air_date current_episode = Some text ->
  strptime_d_b_Y (remove_char "," text) = Ok current_release_date ->
  next_episode current_episode = Some next_id ->
  truthy_str next_id = true ->
  (exists e, get_episode imdb_api next_id = Raise e)
  \/ (exists next_episode_data e,
         get_episode imdb_api next_id = Ok next_episode_data
         /\ next_episode_date (original_air_date next_episode_data)
            = Some (Raise e)) ->
  _update_episode imdb_api now user_id title_id current_episode db
  = (Ok (Some error_message), db)
  /\ row_step (user_id, title_id, Some episode_id) alerts db
     = (Ok (if Datetime.eqb current_release_date today
            then alerts ++ [(user_id,
                             episode_out_message title_details
                                                 current_episode)]
            else alerts),
        db).
Proof.
  intros Htruthy Hget Hair Hparse Hnext Hnext_truthy Hfault.
  assert (Hupdate :
    _update_episode imdb_api now user_id title_id current_episode db
    = (Ok (Some error_message), db)).
  { unfold _update_episode, catch_and_log, bind, call.
    rewrite Hnext. cbn [truthy]. rewrite Hnext_truthy.
    destruct Hfault as [[e ->] | (next_episode_data & e & -> & ->)];
      reflexivity. }
  split; [exact Hupdate|].
  unfold row_step, notify_row. simpl. rewrite Htruthy.
  rewrite (bind_ok _ _ db db current_episode)
    by (unfold call; now rewrite Hget).
  rewrite Hair.
  rewrite (bind_ok _ _ db db (remove_char "," text)) by reflexivity.
  rewrite (bind_ok _ _ db db current_release_date)
    by (unfold call; now rewrite Hparse).
  rewrite (bind_ok _ _ _ _ _ Hupdate). cbn.
  destruct (Datetime.eqb current_release_date today); reflexivity.
Qed.

End MoreTick.

Lemma X14_movie_records_are_finalised_witness :
  exists alerts,
    notify Demo.api Demo.now Demo.title_details
           [ Demo.movie_row "1" "tt001" Demo.today;
             Demo.movie_row "2" "tt002" (mkDatetime 2024 7 1 0 0 0 0);
             Demo.movie_row "3" "tt001" Demo.today ]
    = (Ok (inl alerts),
       [Demo.movie_row "2" "tt002" (mkDatetime 2024 7 1 0 0 0 0)])
    /\ map fst alerts = ["1"; "3"].
Proof.
  destruct (X14_movie_records_are_finalised
              Demo.api Demo.now Demo.title_details
              [ Demo.movie_row "1" "tt001" Demo.today;
                Demo.movie_row "2" "tt002" (mkDatetime 2024 7 1 0 0 0 0);
                Demo.movie_row "3" "tt001" Demo.today ])
    as (alerts & Hrun & Halerts & _).
  - repeat constructor; eexists; reflexivity.
  - exists alerts. split; [exact Hrun|].
    inversion Halerts as [|a1 r1 l1 l1' [H1 _] Hrest]; subst.
    inversion Hrest as [|a2 r2 l2 l2' [H2 _] Hnil]; subst.
    inversion Hnil; subst. cbn [map]. now rewrite H1, H2.
Defined.

(** * What the tick leaves alone *)

Lemma writes_at_trans (keys : list (string * string))
      (db1 db2 db3 : Db.table) :
  Frame.writes_at keys db1 db2 -> Frame.writes_at keys db2 db3 ->
  Frame.writes_at keys db1 db3.
Proof.
  intros H12 H23.
  induction H12 as [db | e u t d db db' Hk _ IH | u t db db' Hk _ IH].
  - exact H23.
  - exact (Frame.at_update keys e u t d db db3 Hk (IH H23)).
  - exact (Frame.at_delete keys u t db db3 Hk (IH H23)).
Qed.

Lemma writes_at_more (keys keys' : list (string * string))
      (db db' : Db.table) :
  incl keys keys' -> Frame.writes_at keys db db' ->
  Frame.writes_at keys' db db'.
Proof.
  intros Hincl H.
  induction H as [db | e u t d db db' Hk _ IH | u t db db' Hk _ IH].
  - apply Frame.at_nothing.
  - exact (Frame.at_update keys' e u t d db db' (Hincl _ Hk) IH).
  - exact (Frame.at_delete keys' u t db db' (Hincl _ Hk) IH).
Qed.

(** A row whose key is none of the written keys is still there. *)
Lemma writes_at_keeps (keys : list (string * string)) (db db' : Db.table)
      (r : Db.row) :
  Frame.writes_at keys db db' ->
  ~ In (Db.key r) keys -> In r db -> In r db'.
Proof.
  intros H Hout.
  induction H as [db | e u t d db db' Hk _ IH | u t db db' Hk _ IH];
    intros Hin.
  - exact Hin.
  - apply IH. unfold Db.update. apply in_map_iff. exists r.
    split; [|exact Hin].
    destruct (Db.has_key u t r) eqn:Hkey; [|reflexivity].
    apply has_key_iff in Hkey. rewrite Hkey in Hout. now elim Hout.
  - apply IH. cbn [fst Db.delete]. apply filter_In. split; [exact Hin|].
    destruct (Db.has_key u t r) eqn:Hkey; [|reflexivity].
    apply has_key_iff in Hkey. rewrite Hkey in Hout. now elim Hout.
Qed.

Lemma unique_keys_same_row (db : Db.table) (r r' : Db.row) :
  unique_keys db -> In r db -> In r' db -> Db.key r = Db.key r' -> r = r'.
Proof.
  unfold unique_keys. induction db as [|x db IH]; intros Hdb Hr Hr' Hkey;
    [inversion Hr|].
  cbn [map] in Hdb. apply NoDup_cons_iff in Hdb as [Hfresh Hrest].
  destruct Hr as [-> | Hr], Hr' as [-> | Hr'].
  - reflexivity.
  - elim Hfresh. rewrite Hkey. now apply in_map.
  - elim Hfresh. rewrite <- Hkey. now apply in_map.
  - now apply IH.
Qed.

Section TickFrame.

Variable imdb_api : api.
Variable now : datetime.
Variable title_details : Movie -> string.

Let today := replace_midnight now.

Lemma update_episode_writes_at (user_id title_id : string)
      (current_episode : Movie) (db : Db.table) :
  Frame.writes_at [(user_id, title_id)] db
    (snd (_update_episode imdb_api now user_id title_id current_episode db)).
Proof.
  assert (Hk : In (user_id, title_id) [(user_id, title_id)]) by now left.
  unfold _update_episode. rewrite catch_and_log_store.
  destruct (truthy (next_episode current_episode)).
  - unfold bind, call, ret, db_update.
    destruct (get_episode imdb_api _) as [next_episode_data|e];
      [|apply Frame.at_nothing].
    destruct (next_episode_date (original_air_date next_episode_data))
      as [[release_date|e]|].
    + cbn. eapply Frame.at_update; [exact Hk | apply Frame.at_nothing].
    + apply Frame.at_nothing.
    + destruct (add_days now 7) as [next_week_date|e];
        [|apply Frame.at_nothing].
      cbn. eapply Frame.at_update; [exact Hk | apply Frame.at_nothing].
  - unfold bind, db_delete, ret. cbn.
    eapply Frame.at_delete; [exact Hk | apply Frame.at_nothing].
Qed.

Lemma notify_row_writes_at (row : string * string * option string)
      (alerts : list alert) (db : Db.table) :
  Frame.writes_at [Frame.due_key row] db
    (snd (notify_row imdb_api now title_details today row alerts db)).
Proof.
  destruct row as [[user_id title_id] title_episode_id].
  cbn [Frame.due_key fst snd].
  unfold notify_row. destruct (truthy title_episode_id).
  - unfold bind at 1, call at 1.
    destruct (get_episode imdb_api _) as [current_episode|e];
      [|apply Frame.at_nothing].
    unfold bind at 1.
    destruct (original_air_date current_episode) as [text|];
      [|apply Frame.at_nothing].
    unfold ret at 1. unfold bind at 1, call at 1.
    destruct (strptime_d_b_Y (remove_char "," text)) as [d|e];
      [|apply Frame.at_nothing].
    pose proof (update_episode_writes_at user_id title_id current_episode db)
      as Hwrites.
    unfold bind.
    destruct (_update_episode imdb_api now user_id title_id
                              current_episode db) as [[v|e] db'];
      cbn [snd] in *; [|exact Hwrites].
    destruct (negb (truthy v)); [exact Hwrites|].
    destruct (Datetime.eqb d today); exact Hwrites.
  - unfold bind, call, db_delete, ret.
    destruct (get_movie imdb_api title_id) as [title_data|e];
      [|apply Frame.at_nothing].
    cbn. eapply Frame.at_delete; [now left | apply Frame.at_nothing].
Qed.

Lemma notify_loop_writes_at (rows : list (string * string * option string))
      (alerts : list alert) (db : Db.table) :
  Frame.writes_at (map Frame.due_key rows) db
    (snd (notify_loop imdb_api now title_details today rows alerts db)).
Proof.
  revert alerts db. induction rows as [|row rows IH]; intros alerts db.
  - apply Frame.at_nothing.
  - cbn [notify_loop map]. unfold bind.
    pose proof (notify_row_writes_at row alerts db) as Hrow.
    apply (writes_at_more _ (Frame.due_key row :: map Frame.due_key rows))
      in Hrow; [|intros k [<- | []]; now left].
    destruct (notify_row imdb_api now title_details today row alerts db)
      as [[alerts'|e] db']; cbn [snd] in *; [|exact Hrow].
    apply (writes_at_trans _ _ _ _ Hrow).
    apply (writes_at_more (map Frame.due_key rows)); [|apply IH].
    intros k Hk. now right.
Qed.

Lemma notify_writes_at (db : Db.table) :
  Frame.writes_at (map Frame.due_key (Db.query_released today db)) db
    (snd (notify imdb_api now title_details db)).
Proof.
  unfold notify. rewrite catch_and_log_store.
  unfold bind at 1, db_query_released. fold today.
  pose proof (notify_loop_writes_at (Db.query_released today db) [] db) as H.
  unfold bind.
  destruct (notify_loop imdb_api now title_details today
              (Db.query_released today db) [] db)
    as [[alerts|e] db']; exact H.
Qed.

(** X17: the tick leaves alone what is not due. On a table with at most
    one row for each user and title, every row whose release date is not
    today at midnight is still in the table, unchanged, after [notify],
    whatever IMDb answers; so a record dated in the past is never
    processed and stays until it is disabled. *)
Theorem X17_tick_leaves_other_records (db : Db.table) (r : Db.row) :
  unique_keys db ->
  In r db ->
  Datetime.eqb (Db.title_release r) today = false ->
  In r (snd (notify imdb_api now title_details db)).
Proof.
  intros Hunique Hin Hnot_due.
  apply (writes_at_keeps _ db _ r (notify_writes_at db)); [|exact Hin].
  intros Hkey. apply in_map_iff in Hkey as (row & Hrow & Hdue).
  unfold Db.query_released in Hdue.
  apply in_map_iff in Hdue as (r' & <- & Hr').
  apply filter_In in Hr' as [Hr' Hdue].
  cbn [Frame.due_key fst snd] in Hrow.
  assert (r' = r) as -> by (apply (unique_keys_same_row db); auto).
  congruence.
Qed.

Lemma notify_row_alerts (row : string * string * option string)
      (alerts alerts' : list alert) (db db' : Db.table) :
  notify_row imdb_api now title_details today row alerts db
  = (Ok alerts', db') ->
  alerts' = alerts
  \/ exists message, alerts' = alerts ++ [(Frame.due_user row, message)].
Proof.
  destruct row as [[user_id title_id] title_episode_id].
  cbn [Frame.due_user fst]. unfold notify_row.
  destruct (truthy title_episode_id).
  - unfold bind at 1, call at 1.
    destruct (get_episode imdb_api _) as [current_episode|e];
      [|discriminate].
    unfold bind at 1.
    destruct (original_air_date current_episode) as [text|];
      [|discriminate].
    unfold ret at 1. unfold bind at 1, call at 1.
    destruct (strptime_d_b_Y (remove_char "," text)) as [d|e];
      [|discriminate].
    unfold bind.
    destruct (_update_episode imdb_api now user_id title_id
                              current_episode db) as [[v|e] db1];
      [|discriminate].
    destruct (negb (truthy v)); [|destruct (Datetime.eqb d today)];
      unfold ret; intros H; injection H as <- _; eauto.
  - unfold bind, call, db_delete, ret.
    destruct (get_movie imdb_api title_id) as [title_data|e];
      [|discriminate].
    cbn. intros H; injection H as <- _. eauto.
Qed.

Lemma notify_loop_alerts (rows : list (string * string * option string))
      (alerts alerts' : list alert) (db db' : Db.table) :
  notify_loop imdb_api now title_details today rows alerts db
  = (Ok alerts', db') ->
  exists new,
    alerts' = alerts ++ new
    /\ (List.length new <= List.length rows)%nat
    /\ Forall (fun a => In (fst a) (map Frame.due_user rows)) new.
Proof.
  revert alerts db. induction rows as [|row rows IH]; intros alerts db.
  - cbn. intros H; injection H as <- _. exists [].
    rewrite app_nil_r. split; [reflexivity|]. split; [|constructor].
    cbn. lia.
  - cbn [notify_loop]. unfold bind.
    destruct (notify_row imdb_api now title_details today row alerts db)
      as [[alerts1|e] db1] eqn:Hrow; [|discriminate].
    intros Hloop. apply IH in Hloop as (new & -> & Hlen & Hnew).
    assert (Hweak : Forall (fun a => In (fst a)
                                        (map Frame.due_user (row :: rows)))
                           new).
    { apply (Forall_impl _ (P := fun a =>
                                   In (fst a) (map Frame.due_user rows)));
        [|exact Hnew].
      intros a Ha. now right. }
    apply notify_row_alerts in Hrow as [-> | [message ->]].
    + exists new. repeat split; [cbn; lia | exact Hweak].
    + exists ((Frame.due_user row, message) :: new).
      rewrite <- app_assoc. repeat split; [cbn; lia|].
      constructor; [now left | exact Hweak].
Qed.

Lemma notify_alerts (db : Db.table) (alerts : list alert) :
  fst (notify imdb_api now title_details db) = Ok (inl alerts) ->
  (List.length alerts <= List.length (Db.query_released today db))%nat
  /\ Forall (fun a => In (fst a)
                          (map Frame.due_user (Db.query_released today db)))
            alerts.
Proof.
  unfold notify, catch_and_log.
  rewrite (bind_ok _ _ db db (Db.query_released (replace_midnight now) db))
    by reflexivity.
  fold today. unfold bind.
  destruct (notify_loop imdb_api now title_details today
              (Db.query_released today db) [] db)
    as [[alerts'|e] db'] eqn:Hloop; cbn; [|discriminate].
  intros H; injection H as <-.
  apply notify_loop_alerts in Hloop as (new & -> & Hlen & Hnew).
  split; assumption.
Qed.

Lemma notify_error_text (db : Db.table) (text : string) :
  fst (notify imdb_api now title_details db) = Ok (inr text) ->
  text = error_message.
Proof.
  unfold notify, catch_and_log.
  match goal with
  | |- context [bind ?m ?f db] => destruct (bind m f db) as [[r|e] db'] eqn:E
  end; cbn.
  - unfold bind, db_query_released in E.
    destruct (notify_loop _ _ _ _ _ _ _) as [[alerts|e] db1];
      [|discriminate E].
    unfold ret in E. injection E as <- _. discriminate.
  - intros H; injection H as <-. reflexivity.
Qed.

(** X18: the tick sends at most one alert for each due record, and only
    to users of due records: when [notify] answers with a list, the list
    is no longer than the list of due records and every recipient is the
    user of a due record. With nothing due the answer is the empty list
    and the table is as it was. *)
Theorem X18_at_most_one_alert_per_due_record (db : Db.table) :
  (forall alerts,
      fst (notify imdb_api now title_details db) = Ok (inl alerts) ->
      (List.length alerts
       <= List.length (Db.query_released today db))%nat
      /\ Forall (fun a => In (fst a)
                             (map Frame.due_user
                                  (Db.query_released today db)))
                alerts)
  /\ (Db.query_released today db = [] ->
      notify imdb_api now title_details db = (Ok (inl []), db)).
Proof.
  split.
  - intros alerts. apply notify_alerts.
  - intros Hnone. unfold notify, catch_and_log.
    rewrite (bind_ok _ _ db db (Db.query_released (replace_midnight now) db))
      by reflexivity.
    fold today. rewrite Hnone. reflexivity.
Qed.

End TickFrame.

Lemma X17_tick_leaves_other_records_witness :
  In (Demo.movie_row "2" "tt002" (mkDatetime 2024 5 1 0 0 0 0))
     (snd (notify Demo.api Demo.now Demo.title_details
                  [ Demo.movie_row "1" "tt001" Demo.today;
                    Demo.movie_row "2" "tt002"
                                   (mkDatetime 2024 5 1 0 0 0 0) ])).
Proof.
  apply (X17_tick_leaves_other_records Demo.api Demo.now Demo.title_details).
  - unfold unique_keys. cbn. repeat constructor; [|intros []].
    intros [H | []]. discriminate H.
  - right. left. reflexivity.
  - reflexivity.
Defined.

Lemma X18_at_most_one_alert_per_due_record_witness :
  notify Demo.api Demo.now Demo.title_details
         [Demo.movie_row "2" "tt002" (mkDatetime 2024 5 1 0 0 0 0)]
  = (Ok (inl []),
     [Demo.movie_row "2" "tt002" (mkDatetime 2024 5 1 0 0 0 0)]).
Proof.
  exact (proj2 (X18_at_most_one_alert_per_due_record
                  Demo.api Demo.now Demo.title_details
                  [Demo.movie_row "2" "tt002" (mkDatetime 2024 5 1 0 0 0 0)])
               eq_refl).
Defined.

(** * The bot's glue *)

Lemma split_not_nil (sep : ascii) (s : string) : Bot.split sep s <> [].
Proof.
  destruct s as [|c s]; cbn [Bot.split]; [discriminate|].
  destruct (Ascii.eqb c sep); [discriminate|].
  destruct (Bot.split sep s); discriminate.
Qed.

Lemma split_app (sep : ascii) (a b : string) :
  Bot.split sep (a ++ String sep b)%string
  = Bot.split sep a ++ Bot.split sep b.
Proof.
  induction a as [|c a IH]; cbn [append Bot.split].
  - now rewrite Ascii.eqb_refl.
  - destruct (Ascii.eqb c sep); [now rewrite IH|].
    rewrite IH. pose proof (split_not_nil sep a) as Hne.
    destruct (Bot.split sep a) as [|piece pieces]; [now elim Hne|].
    reflexivity.
Qed.

Lemma split_without_sep (sep : ascii) (s : string) :
  Bot.contains (String sep EmptyString) s = false -> Bot.split sep s = [s].
Proof.
  induction s as [|c s IH]; [reflexivity|].
  cbn [Bot.contains Bot.starts_with Bot.split].
  rewrite andb_true_r, Ascii.eqb_sym.
  destruct (Ascii.eqb c sep); [discriminate|]. cbn [orb].
  intros H. now rewrite (IH H).
Qed.

Lemma last_app_not_nil {A : Type} (l l' : list A) (d : A) :
  l' <> [] -> last (l ++ l') d = last l' d.
Proof.
  intros Hne. induction l as [|a l IH]; [reflexivity|].
  cbn [app]. rewrite <- IH. cbn [last].
  destruct (l ++ l') eqn:E; [|reflexivity].
  apply app_eq_nil in E as [_ E]. now elim Hne.
Qed.

(** X19: the title id put into a result id comes back out. Whatever the
    UUID text, [chosen_result] stores for the user the part of the title
    id after its last hyphen: the title id itself when it has no hyphen.
    The choices of the other users stay as they were. *)
Theorem X19_result_id_round_trip
        (uuid4_str title_id : string) (user_id : Z) (data : Bot.user_data) :
  let data' :=
    Bot.chosen_result (Bot.result_id uuid4_str title_id) user_id data in
  data' user_id = Some (last (Bot.split "-" title_id) EmptyString)
  /\ (Bot.contains "-" title_id = false -> data' user_id = Some title_id)
  /\ (forall k, k <> user_id -> data' k = data k).
Proof.
  cbv zeta. unfold Bot.chosen_result, Bot.result_id.
  rewrite Z.eqb_refl.
  change (uuid4_str ++ "-" ++ title_id)%string
    with (uuid4_str ++ String "-" title_id)%string.
  rewrite split_app, (last_app_not_nil _ _ _ (split_not_nil _ _)).
  split; [reflexivity|]. split.
  - intros Hnone. now rewrite (split_without_sep _ _ Hnone).
  - intros k Hk. apply Z.eqb_neq in Hk. now rewrite Hk.
Qed.

Lemma X19_result_id_round_trip_witness :
  Bot.chosen_result
    (Bot.result_id "0b8a7e3a-5c1d-4f6b-9a2e-3d4c5b6a7f80" "0133093")
    42 (fun _ => None) 42
  = Some "0133093".
Proof.
  exact (proj1 (proj2 (X19_result_id_round_trip
                         "0b8a7e3a-5c1d-4f6b-9a2e-3d4c5b6a7f80" "0133093"
                         42 (fun _ => None)))
               eq_refl).
Defined.

Lemma keyboard_of_markup (t : Bot.title) (current_year : Z)
      (user_titles : list string + string) (row : list Bot.button) :
  Bot.create_reply_markup t current_year user_titles = Bot.Keyboard row ->
  (Bot.in_titles (Bot.id t) user_titles = true
   /\ row = [Bot.DisableAlert; Bot.Dismiss])
  \/ (Bot.in_titles (Bot.id t) user_titles = false
      /\ row = [Bot.EnableAlert; Bot.Dismiss]).
Proof.
  unfold Bot.create_reply_markup, Bot.imdb_url_button.
  assert (Hkeyboard :
    (if Bot.in_titles (Bot.id t) user_titles
     then Bot.Keyboard [Bot.DisableAlert; Bot.Dismiss]
     else Bot.Keyboard [Bot.EnableAlert; Bot.Dismiss]) = Bot.Keyboard row ->
    (Bot.in_titles (Bot.id t) user_titles = true
     /\ row = [Bot.DisableAlert; Bot.Dismiss])
    \/ (Bot.in_titles (Bot.id t) user_titles = false
        /\ row = [Bot.EnableAlert; Bot.Dismiss])).
  { destruct (Bot.in_titles (Bot.id t) user_titles);
      intros H; injection H as <-; auto. }
  destruct (Bot.contains "series" (Bot.kind t)).
  - destruct (Bot.end_year t) as [y|]; [|exact Hkeyboard].
    destruct (Bot.truthy_int (Some y)); [discriminate | exact Hkeyboard].
  - destruct (Bot.year t) as [y|]; [|exact Hkeyboard].
    destruct (Bot.truthy_int (Some y) && (y <? current_year));
      [discriminate | exact Hkeyboard].
Qed.

Lemma in_titles_listed (x : string) (titles : list string) :
  Bot.in_titles x (inl titles) = true <-> In x titles.
Proof.
  cbn [Bot.in_titles]. rewrite existsb_exists. split.
  - intros (y & Hin & Heq). apply String.eqb_eq in Heq. now subst.
  - intros Hin. exists x. split; [exact Hin | apply String.eqb_refl].
Qed.

(** X20: the Enable button guards the uniqueness of the keys. When the
    markup computed from the user's listing [title_id] offers "Enable
    alert" for a title, the user has no record for that title, and an
    [enable] from that state keeps at most one row for each user and
    title. No markup offers both Enable and Disable. *)
Theorem X20_enable_button_guards_uniqueness
        (imdb_api : api) (now : datetime)
        (user_id user_name : string) (t : Bot.title) (current_year : Z)
        (db : Db.table) (user_titles : list string + string)
        (row : list Bot.button) :
  fst (Listing.title_id user_id db) = Ok user_titles ->
  Bot.create_reply_markup t current_year user_titles = Bot.Keyboard row ->
  In Bot.EnableAlert row ->
  ~ In Bot.DisableAlert row
  /\ Db.query_user_alert user_id (Bot.id t) db = None
  /\ (unique_keys db ->
      unique_keys (snd (enable imdb_api now user_id user_name
                               (Bot.id t) db))).
Proof.
  intros Htitles Hmarkup Henable.
  cbn in Htitles. injection Htitles as <-.
  apply keyboard_of_markup in Hmarkup as [[_ ->] | [Hout ->]].
  { destruct Henable as [H | [H | []]]; discriminate H. }
  assert (Hnone : Db.query_user_alert user_id (Bot.id t) db = None).
  { apply query_user_alert_none. intros Hin.
    apply query_title_id_in in Hin. apply in_titles_listed in Hin.
    congruence. }
  split; [|split; [exact Hnone|]].
  - intros [H | [H | []]]; discriminate H.
  - intros Hunique.
    exact (unique_keys_appends_one user_id (Bot.id t) _ _
             (enable_effect imdb_api now user_id user_name (Bot.id t) db)
             Hnone Hunique).
Qed.

Lemma X20_enable_button_guards_uniqueness_witness :
  Db.query_user_alert "42" "tt001" [Demo.movie_row "42" "tt002" Demo.today]
  = None.
Proof.
  refine (proj1 (proj2 (X20_enable_button_guards_uniqueness
                          Demo.api Demo.now "42" "Ann"
                          (Bot.mkTitle "movie" None (Some 2024) "tt001") 2024
                          [Demo.movie_row "42" "tt002" Demo.today]
                          (inl ["tt002"]) [Bot.EnableAlert; Bot.Dismiss]
                          eq_refl eq_refl _))).
  left. reflexivity.
Defined.

(** X21: after [enable] has answered "Alert enabled." for a title, the
    markup computed from the user's new listing never offers "Enable
    alert" for that title: it is the IMDb link of an ended series or a
    released movie, or the row with "Disable alert" and "Dismiss". *)
Theorem X21_enabled_title_offers_disable
        (imdb_api : api) (now : datetime)
        (user_id user_name : string) (t : Bot.title) (current_year : Z)
        (db : Db.table) (user_titles : list string + string)
        (row : list Bot.button) :
  fst (enable imdb_api now user_id user_name (Bot.id t) db)
  = Ok "Alert enabled." ->
  fst (Listing.title_id user_id
         (snd (enable imdb_api now user_id user_name (Bot.id t) db)))
  = Ok user_titles ->
  Bot.create_reply_markup t current_year user_titles = Bot.Keyboard row ->
  row = [Bot.DisableAlert; Bot.Dismiss].
Proof.
  intros Henabled Htitles Hmarkup.
  cbn in Htitles. injection Htitles as <-.
  apply keyboard_of_markup in Hmarkup as [[_ ->] | [Hout _]];
    [reflexivity|].
  assert (Hin : Bot.in_titles (Bot.id t)
                  (inl (Db.query_title_id user_id
                          (snd (enable imdb_api now user_id user_name
                                       (Bot.id t) db)))) = true).
  { apply in_titles_listed, query_title_id_in.
    destruct (enable_outcome imdb_api now user_id user_name (Bot.id t) db)
      as [(_ & r & -> & Hu & _ & Ht) | [(s & Hs & Hne) _]].
    - rewrite map_app. apply in_or_app. right. left.
      unfold Db.key. now rewrite Hu, Ht.
    - rewrite Hs in Henabled. injection Henabled as ->. now elim Hne. }
  congruence.
Qed.

Lemma X21_enabled_title_offers_disable_witness :
  [Bot.DisableAlert; Bot.Dismiss] = [Bot.DisableAlert; Bot.Dismiss].
Proof.
  exact (X21_enabled_title_offers_disable
           Demo.api Demo.now "42" "Ann"
           (Bot.mkTitle "movie" None (Some 2024) "tt001") 2024 []
           (inl ["tt001"]) [Bot.DisableAlert; Bot.Dismiss]
           eq_refl eq_refl eq_refl).
Defined.

Section Delivery.

Variable imdb_api : api.
Variable now : datetime.
Variable title_details : Movie -> string.
Variable send_message : string -> string -> bool.

Let sends (a : alert) : bool := send_message (fst a) (snd a).

Lemma send_all_prefix (results : list alert) :
  let '(sent, ending) := Bot.send_all send_message results in
  exists rest,
    results = sent ++ rest
    /\ Forall (fun a => sends a = true) sent
    /\ match rest with
       | [] => ending = Bot.Returned
       | a :: _ => sends a = false /\ ending = Bot.Raised
       end.
Proof.
  induction results as [|[user_id message] results IH].
  - exists []. repeat split. constructor.
  - cbn [Bot.send_all].
    destruct (send_message user_id message) eqn:Hsend.
    + destruct (Bot.send_all send_message results) as [sent ending].
      destruct IH as (rest & -> & Hsent & Hrest).
      exists rest. split; [reflexivity|]. split; [|exact Hrest].
      constructor; [exact Hsend | exact Hsent].
    + exists ((user_id, message) :: results).
      split; [reflexivity|]. split; [constructor|]. split; [exact Hsend|].
      reflexivity.
Qed.

(** X22: what the daily job delivers. When the tick answers with alerts,
    [notify_users] sends them in order and stops at the first send that
    raises: the alerts after it are not sent, and the job ends by raising.
    Every alert sent goes to the user of a record that was due. When the
    tick answers with its error text, nothing is sent and the job ends by
    raising. The table is the one the tick left. *)
Theorem X22_delivery_stops_at_first_failure (db : Db.table) :
  let '(sent, ending, db') :=
    Bot.notify_users imdb_api now title_details send_message db in
  db' = snd (notify imdb_api now title_details db)
  /\ match fst (notify imdb_api now title_details db) with
     | Ok (inl alerts) =>
         exists rest,
           alerts = sent ++ rest
           /\ Forall (fun a => sends a = true) sent
           /\ match rest with
              | [] => ending = Bot.Returned
              | a :: _ => sends a = false /\ ending = Bot.Raised
              end
           /\ Forall (fun a =>
                        In (fst a)
                           (map Frame.due_user
                                (Db.query_released (replace_midnight now)
                                                   db)))
                     sent
     | _ => sent = [] /\ ending = Bot.Raised
     end.
Proof.
  unfold Bot.notify_users.
  pose proof (notify_alerts imdb_api now title_details db) as Hdue.
  pose proof (notify_error_text imdb_api now title_details db) as Htext.
  destruct (notify imdb_api now title_details db) as [[[alerts|text]|e] db'];
    cbn [fst snd] in *.
  - pose proof (send_all_prefix alerts) as Hsent.
    destruct (Bot.send_all send_message alerts) as [sent ending].
    split; [reflexivity|].
    destruct Hsent as (rest & -> & Hsent & Hrest).
    exists rest. repeat split; try assumption.
    destruct (Hdue _ eq_refl) as [_ Hall].
    apply Forall_app in Hall as [Hall _]. exact Hall.
  - rewrite (Htext text eq_refl). cbn. repeat split.
  - repeat split.
Qed.

End Delivery.

Lemma delivery_example_second_send_fails :
  Bot.notify_users Demo.api Demo.now Demo.title_details Demo2.send_message
    [ Demo.movie_row "1" "tt001" Demo.today;
      Demo.movie_row "2" "tt001" Demo.today;
      Demo.movie_row "3" "tt001" Demo.today ]
  = ([("1", Frame.movie_out_message
              Demo.title_details
              (mkMovie "tt001" (Some "A Film (2024)") None None None))],
     Bot.Raised, []).
Proof. vm_compute. reflexivity. Qed.

(** * Dates as IMDb writes them are resolved *)

(** A run of characters of the class, of a length the item allows,
    followed by a text the rest of the pattern matches, is matched. *)
Lemma match_rep_intro (cls : ascii -> bool) (k : string -> bool)
      (run rest : string) (lo hi : nat) :
  Written.all_chars cls run = true ->
  (lo <= String.length run <= hi)%nat ->
  k rest = true ->
  Re.match_rep cls k lo hi (run ++ rest)%string = true.
Proof.
  revert lo hi. induction run as [|c run IH]; intros lo hi Hcls Hlen Hk.
  - cbn [String.length] in Hlen. assert (lo = O) as -> by lia.
    cbn [append]. destruct hi; cbn [Re.match_rep]; [exact Hk|].
    destruct rest; [exact Hk|]. rewrite Hk. apply orb_true_r.
  - cbn [Written.all_chars] in Hcls. apply andb_prop in Hcls as [Hc Hrun].
    cbn [String.length] in Hlen.
    destruct hi as [|hi]; [lia|]. cbn [append Re.match_rep].
    rewrite Hc, (IH (Nat.pred lo) hi Hrun); [reflexivity | lia | exact Hk].
Qed.

Lemma day_text_digits (d : Z) :
  1 <= d <= 31 ->
  Written.all_chars Re.is_digit (str_of_int d) = true
  /\ (1 <= String.length (str_of_int d) <= 2)%nat
  /\ Written.all_chars (fun c => negb (Ascii.eqb c ".")
                                 && negb (Ascii.eqb c ","))
                       (str_of_int d) = true.
Proof.
  intros Hd.
  assert (Hcases : d = 1 \/ d = 2 \/ d = 3 \/ d = 4 \/ d = 5 \/ d = 6
                   \/ d = 7 \/ d = 8 \/ d = 9 \/ d = 10 \/ d = 11 \/ d = 12
                   \/ d = 13 \/ d = 14 \/ d = 15 \/ d = 16 \/ d = 17
                   \/ d = 18 \/ d = 19 \/ d = 20 \/ d = 21 \/ d = 22
                   \/ d = 23 \/ d = 24 \/ d = 25 \/ d = 26 \/ d = 27
                   \/ d = 28 \/ d = 29 \/ d = 30 \/ d = 31) by lia.
  repeat (destruct Hcases as [Hcases | Hcases]); subst d;
    (split; [vm_compute; reflexivity
            | split; [vm_compute; lia | vm_compute; reflexivity]]).
Qed.

Lemma first_some_none {A : Type} (x : option A) : first_some x None = x.
Proof. destruct x; reflexivity. Qed.

(** Of the alternatives of [%d] on a day followed by a blank, only the
    whole day lets a blank follow. *)
Lemma day_then_blank {A : Type} (f : Z -> string -> option A)
      (d : Z) (rest : string) :
  1 <= d <= 31 ->
  first_alt (fun d' => space_plus (f d'))
            (day_alternatives (str_of_int d ++ String " " rest)%string)
  = space_star (f d) rest.
Proof.
  intros Hd.
  assert (Hcases : d = 1 \/ d = 2 \/ d = 3 \/ d = 4 \/ d = 5 \/ d = 6
                   \/ d = 7 \/ d = 8 \/ d = 9 \/ d = 10 \/ d = 11 \/ d = 12
                   \/ d = 13 \/ d = 14 \/ d = 15 \/ d = 16 \/ d = 17
                   \/ d = 18 \/ d = 19 \/ d = 20 \/ d = 21 \/ d = 22
                   \/ d = 23 \/ d = 24 \/ d = 25 \/ d = 26 \/ d = 27
                   \/ d = 28 \/ d = 29 \/ d = 30 \/ d = 31) by lia.
  repeat (destruct Hcases as [Hcases | Hcases]); subst d;
    match goal with
    | |- context [str_of_int ?n] =>
        let s := eval vm_compute in (str_of_int n) in
        change (str_of_int n) with s
    end;
    cbn; rewrite ?first_some_none; reflexivity.
Qed.

Ltac each_month H :=
  repeat (destruct H as [H | H]); subst.

Lemma month_cases (m : Z) :
  1 <= m <= 12 ->
  m = 1 \/ m = 2 \/ m = 3 \/ m = 4 \/ m = 5 \/ m = 6 \/ m = 7 \/ m = 8
  \/ m = 9 \/ m = 10 \/ m = 11 \/ m = 12.
Proof. lia. Qed.

(** A month name is met by its own alternative of [%b] (or [%B]) and by
    no other, whatever follows. *)
Lemma short_month_alternatives (m : Z) (rest : string) :
  1 <= m <= 12 ->
  month_alternatives month_abbrs
    (Written.month_text Written.short_months m ++ rest)%string
  = [(m, rest)].
Proof.
  intros Hm. apply month_cases in Hm. each_month Hm; reflexivity.
Qed.

Lemma long_month_alternatives (m : Z) (rest : string) :
  1 <= m <= 12 ->
  month_alternatives month_names
    (Written.month_text Written.long_months m ++ rest)%string
  = [(m, rest)].
Proof.
  intros Hm. apply month_cases in Hm. each_month Hm; reflexivity.
Qed.

Lemma month_text_chars (names : list string) (m : Z) :
  names = Written.short_months \/ names = Written.long_months ->
  1 <= m <= 12 ->
  let text := Written.month_text names m in
  Written.all_chars Re.is_word text = true
  /\ (3 <= String.length text <= 9)%nat
  /\ Written.all_chars (fun c => negb (Ascii.eqb c ".")
                                 && negb (Ascii.eqb c ",")
                                 && negb (Re.is_space c)) text = true
  /\ text <> EmptyString.
Proof.
  intros [-> | ->] Hm; apply month_cases in Hm; each_month Hm;
    (split; [vm_compute; reflexivity
            | split; [vm_compute; lia
                     | split; [vm_compute; reflexivity | discriminate]]]).
Qed.

Lemma short_month_length (m : Z) :
  1 <= m <= 12 ->
  String.length (Written.month_text Written.short_months m) = 3%nat.
Proof.
  intros Hm. apply month_cases in Hm. each_month Hm; reflexivity.
Qed.

Lemma digit_not_space (c : ascii) :
  Re.is_digit c = true ->
  Re.is_space c = false
  /\ Ascii.eqb c "." = false /\ Ascii.eqb c "," = false
  /\ Re.is_any c = true.
Proof.
  unfold Re.is_digit, Re.is_space, Re.is_any. cbv zeta. intros H.
  apply andb_prop in H as [Hlo Hhi].
  apply Z.leb_le in Hlo, Hhi.
  assert (Hne : forall x, Py.code x < 48 -> Ascii.eqb c x = false).
  { intros x Hx. apply Ascii.eqb_neq. intros ->. lia. }
  repeat split.
  - apply orb_false_intro; apply andb_false_intro2; apply Z.leb_gt; lia.
  - apply Hne. vm_compute. reflexivity.
  - apply Hne. vm_compute. reflexivity.
  - apply negb_true_iff, Z.eqb_neq. lia.
Qed.

Lemma space_star_stops {A : Type} (k : string -> option A) (c : ascii)
      (s : string) :
  Re.is_space c = false -> space_star k (String c s) = k (String c s).
Proof. intros H. cbn [space_star]. now rewrite H. Qed.

Lemma year_digits_written (a b c e : ascii) :
  Re.is_digit a = true -> Re.is_digit b = true ->
  Re.is_digit c = true -> Re.is_digit e = true ->
  year_digits (Written.year_text a b c e)
  = Some (Written.year_value a b c e, EmptyString).
Proof.
  intros Ha Hb Hc He. unfold year_digits, Written.year_text.
  now rewrite Ha, Hb, Hc, He.
Qed.

Lemma all_chars_weaken (p q : ascii -> bool) (s : string) :
  (forall x, p x = true -> q x = true) ->
  Written.all_chars p s = true -> Written.all_chars q s = true.
Proof.
  intros Hpq. induction s as [|x s IH]; cbn; [reflexivity|].
  intros H. apply andb_prop in H as [Hx Hs].
  now rewrite (Hpq x Hx), (IH Hs).
Qed.

Lemma remove_char_app (x : ascii) (s t : string) :
  remove_char x (s ++ t)%string
  = (remove_char x s ++ remove_char x t)%string.
Proof.
  induction s as [|y s IH]; cbn; [reflexivity|].
  destruct (Ascii.eqb y x); cbn; now rewrite IH.
Qed.

Lemma remove_char_absent (x : ascii) (s : string) :
  Written.all_chars (fun y => negb (Ascii.eqb y x)) s = true ->
  remove_char x s = s.
Proof.
  induction s as [|y s IH]; cbn; [reflexivity|].
  intros H. apply andb_prop in H as [Hy Hs].
  apply negb_true_iff in Hy. now rewrite Hy, (IH Hs).
Qed.

Section WrittenDates.

Variables (d m : Z) (a b c e : ascii).

Hypothesis digit_a : Re.is_digit a = true.
Hypothesis digit_b : Re.is_digit b = true.
Hypothesis digit_c : Re.is_digit c = true.
Hypothesis digit_e : Re.is_digit e = true.
Hypothesis in_calendar :
  valid_date (Written.year_value a b c e) m d = true.

Let date : datetime := mkDatetime (Written.year_value a b c e) m d 0 0 0 0.

Lemma written_ranges : 1 <= d <= 31 /\ 1 <= m <= 12.
Proof.
  unfold valid_date in in_calendar.
  repeat (apply andb_prop in in_calendar as [in_calendar ?]).
  repeat match goal with
         | H : (_ <=? _) = true |- _ => apply Z.leb_le in H
         end.
  pose proof (days_in_month_le (Written.year_value a b c e) m). lia.
Qed.

(** The strict parse of a written date *)
Lemma strptime_written (names texts : list string) :
  texts = Written.short_months \/ texts = Written.long_months ->
  (forall rest,
      month_alternatives names (Written.month_text texts m ++ rest)%string
      = [(m, rest)]) ->
  strptime_dmy names
    (Written.written d (Written.month_text texts m) EmptyString a b c e)
  = Ok date.
Proof.
  intros Htexts Hmonth. destruct written_ranges as [Hd Hm].
  destruct (month_text_chars texts m Htexts Hm) as (_ & _ & _ & Hne).
  destruct (digit_not_space a digit_a) as (Hspace & _).
  unfold strptime_dmy, strptime_match, Written.written.
  rewrite (day_then_blank _ d _ Hd).
  assert (Hhead : exists c0 s0,
             Written.month_text texts m = String c0 s0
             /\ Re.is_space c0 = false).
  { destruct Htexts as [-> | ->]; apply month_cases in Hm; each_month Hm;
      eexists; eexists; split; reflexivity. }
  destruct Hhead as (c0 & s0 & Htext & Hc0).
  cbn [append]. rewrite Htext at 1. cbn [append].
  rewrite (space_star_stops _ c0 _ Hc0).
  change (String c0 (s0 ++ String " " (Written.year_text a b c e)))%string
    with (String c0 s0 ++ String " " (Written.year_text a b c e))%string.
  rewrite <- Htext, Hmonth. cbn [first_alt first_some space_plus].
  change (Re.is_space " ") with true. cbv iota.
  unfold Written.year_text at 1. rewrite (space_star_stops _ a _ Hspace).
  fold (Written.year_text a b c e).
  rewrite (year_digits_written a b c e digit_a digit_b digit_c digit_e).
  cbn [first_some]. rewrite in_calendar. reflexivity.
Qed.

Lemma written_truthy (month mark : string) :
  truthy_str (Written.written d month mark a b c e) = true.
Proof.
  destruct (day_text_digits d (proj1 written_ranges)) as (_ & Hlen & _).
  unfold Written.written.
  destruct (str_of_int d); [cbn in Hlen; lia | reflexivity].
Qed.

(** The pattern of the series path and of the tick accepts a written
    date with a short month name and at most one mark after it. *)
Lemma episode_pattern_accepts (mark : string) :
  Written.all_chars Re.is_any mark = true ->
  (String.length mark <= 1)%nat ->
  Re.matches Re.episode_date_regex
    (Written.written d (Written.month_text Written.short_months m) mark
                     a b c e) = true.
Proof.
  intros Hmark Hlen. destruct written_ranges as [_ Hm].
  destruct (day_text_digits d (proj1 written_ranges))
    as (Hday & Hday_len & _).
  destruct (month_text_chars Written.short_months m (or_introl eq_refl) Hm)
    as (Hword & _ & _ & _).
  pose proof (short_month_length m Hm) as Hmonth_len.
  unfold Written.written, Re.episode_date_regex.
  cbn [Re.matches Re.cls Re.lo Re.hi].
  apply match_rep_intro; [exact Hday | exact Hday_len |].
  apply (match_rep_intro Re.is_space _ " "); [reflexivity | cbn; lia |].
  apply match_rep_intro; [exact Hword | lia |].
  apply match_rep_intro; [exact Hmark | lia |].
  apply (match_rep_intro Re.is_space _ " "); [reflexivity | cbn; lia |].
  change (Written.year_text a b c e)
    with (Written.year_text a b c e ++ EmptyString)%string.
  apply match_rep_intro; [|cbn; lia | reflexivity].
  cbn. now rewrite digit_a, digit_b, digit_c, digit_e.
Qed.

(** The pattern of the movie path accepts a written date with a long
    month name. *)
Lemma movie_pattern_accepts :
  Re.matches Re.movie_date_regex
    (Written.written d (Written.month_text Written.long_months m)
                     EmptyString a b c e) = true.
Proof.
  destruct written_ranges as [_ Hm].
  destruct (day_text_digits d (proj1 written_ranges))
    as (Hday & Hday_len & _).
  destruct (month_text_chars Written.long_months m (or_intror eq_refl) Hm)
    as (Hword & Hword_len & _ & _).
  unfold Written.written, Re.movie_date_regex.
  cbn [Re.matches Re.cls Re.lo Re.hi append].
  apply match_rep_intro; [exact Hday | exact Hday_len |].
  apply (match_rep_intro Re.is_space _ " "); [reflexivity | cbn; lia |].
  apply match_rep_intro; [exact Hword | exact Hword_len |].
  apply (match_rep_intro Re.is_space _ " "); [reflexivity | cbn; lia |].
  change (Written.year_text a b c e)
    with (Written.year_text a b c e ++ EmptyString)%string.
  apply match_rep_intro; [|cbn; lia | reflexivity].
  cbn. now rewrite digit_a, digit_b, digit_c, digit_e.
Qed.

(** Removing the period or the comma from a written date removes it
    from the mark and leaves the day, the month and the year *)
Lemma remove_char_written (x : ascii) (texts : list string)
      (mark : string) :
  x = "."%char \/ x = ","%char ->
  texts = Written.short_months \/ texts = Written.long_months ->
  remove_char x
    (Written.written d (Written.month_text texts m) mark a b c e)
  = Written.written d (Written.month_text texts m) (remove_char x mark)
                    a b c e.
Proof.
  intros Hx Htexts. destruct written_ranges as [Hd Hm].
  destruct (day_text_digits d Hd) as (_ & _ & Hday).
  destruct (month_text_chars texts m Htexts Hm) as (_ & _ & Hmonth & _).
  destruct (digit_not_space a digit_a) as (_ & Ha1 & Ha2 & _).
  destruct (digit_not_space b digit_b) as (_ & Hb1 & Hb2 & _).
  destruct (digit_not_space c digit_c) as (_ & Hc1 & Hc2 & _).
  destruct (digit_not_space e digit_e) as (_ & He1 & He2 & _).
  assert (Hday' : Written.all_chars (fun y => negb (Ascii.eqb y x))
                    (str_of_int d) = true).
  { revert Hday. apply all_chars_weaken. intros y Hy.
    apply andb_prop in Hy as [H1 H2]. now destruct Hx as [-> | ->]. }
  assert (Hmonth' : Written.all_chars (fun y => negb (Ascii.eqb y x))
                      (Written.month_text texts m) = true).
  { revert Hmonth. apply all_chars_weaken. intros y Hy.
    apply andb_prop in Hy as [Hy _]. apply andb_prop in Hy as [H1 H2].
    now destruct Hx as [-> | ->]. }
  unfold Written.written.
  rewrite remove_char_app, (remove_char_absent x _ Hday').
  f_equal.
  assert (Hblank : forall t, remove_char x (String " " t)
                             = String " " (remove_char x t)).
  { intros t. now destruct Hx as [-> | ->]. }
  rewrite Hblank. f_equal.
  rewrite !remove_char_app, (remove_char_absent x _ Hmonth'), Hblank.
  do 3 f_equal. unfold Written.year_text. cbn [remove_char].
  destruct Hx as [-> | ->].
  - now rewrite Ha1, Hb1, Hc1, He1.
  - now rewrite Ha2, Hb2, Hc2, He2.
Qed.

(** The strict parse rejects a written date that keeps a mark after the
    month *)
Lemma strptime_written_marked (names texts : list string) (x : ascii) :
  texts = Written.short_months \/ texts = Written.long_months ->
  (forall rest,
      month_alternatives names (Written.month_text texts m ++ rest)%string
      = [(m, rest)]) ->
  Re.is_space x = false ->
  strptime_dmy names
    (Written.written d (Written.month_text texts m) (String x EmptyString)
                     a b c e)
  = Raise ValueError.
Proof.
  intros Htexts Hmonth Hx. destruct written_ranges as [Hd Hm].
  unfold strptime_dmy, strptime_match, Written.written.
  rewrite (day_then_blank _ d _ Hd).
  assert (Hhead : exists c0 s0,
             Written.month_text texts m = String c0 s0
             /\ Re.is_space c0 = false).
  { destruct Htexts as [-> | ->]; apply month_cases in Hm; each_month Hm;
      eexists; eexists; split; reflexivity. }
  destruct Hhead as (c0 & s0 & Htext & Hc0).
  rewrite Htext at 1. cbn [append].
  rewrite (space_star_stops _ c0 _ Hc0).
  change (String c0
            (s0 ++ String x (String " " (Written.year_text a b c e))))%string
    with (String c0 s0
          ++ String x (String " " (Written.year_text a b c e)))%string.
  rewrite <- Htext, Hmonth. cbn [first_alt first_some space_plus].
  rewrite Hx. reflexivity.
Qed.

End WrittenDates.

(** X23: on the series path of a subscription, a calendar date written as
    day, short month name and four-digit year is resolved to that date at
    midnight, whether or not a period follows the month, and the text kept
    is the one without the period; with a comma after the month the text
    passes the check and the strict parse raises. *)
Theorem X23_series_path_reads_written_dates (d m : Z) (a b c e : ascii) :
  Re.is_digit a = true -> Re.is_digit b = true ->
  Re.is_digit c = true -> Re.is_digit e = true ->
  valid_date (Written.year_value a b c e) m d = true ->
  let short := Written.month_text Written.short_months m in
  let plain := Written.written d short EmptyString a b c e in
  let date := mkDatetime (Written.year_value a b c e) m d 0 0 0 0 in
  episode_date (Some plain) = Some (plain, Ok date)
  /\ episode_date (Some (Written.written d short "." a b c e))
     = Some (plain, Ok date)
  /\ episode_date (Some (Written.written d short "," a b c e))
     = Some (Written.written d short "," a b c e, Raise ValueError).
Proof.
  intros Ha Hb Hc He Hdate short plain date. subst short plain date.
  destruct (written_ranges d m a b c e Hdate) as [_ Hm].
  assert (Hparse : strptime_d_b_Y
                     (Written.written
                        d (Written.month_text Written.short_months m)
                        EmptyString a b c e)
                   = Ok (mkDatetime (Written.year_value a b c e)
                                    m d 0 0 0 0)).
  { apply (strptime_written d m a b c e Ha Hb Hc He Hdate
                            month_abbrs Written.short_months);
      [now left | intros rest; now apply short_month_alternatives]. }
  unfold episode_date, usable.
  rewrite !(written_truthy d m a b c e Hdate).
  rewrite !(episode_pattern_accepts d m a b c e Ha Hb Hc He Hdate)
    by (reflexivity || (cbn; lia)).
  cbn [andb]. cbv zeta.
  rewrite !(remove_char_written d m a b c e Ha Hb Hc He Hdate)
    by (now left).
  cbn [remove_char Ascii.eqb Bool.eqb].
  rewrite Hparse. repeat split.
  unfold strptime_d_b_Y.
  now rewrite (strptime_written_marked d m a b c e Hdate
                 month_abbrs Written.short_months ","%char)
    by (try (now left); try reflexivity;
        intros rest; now apply short_month_alternatives).
Qed.

Lemma X23_series_path_reads_written_dates_witness :
  episode_date (Some "20 May 2024")
  = Some ("20 May 2024", Ok (mkDatetime 2024 5 20 0 0 0 0))
  /\ episode_date (Some "20 May. 2024")
     = Some ("20 May 2024", Ok (mkDatetime 2024 5 20 0 0 0 0))
  /\ episode_date (Some "20 May, 2024")
     = Some ("20 May, 2024", Raise ValueError).
Proof.
  exact (X23_series_path_reads_written_dates 20 5 "2" "0" "2" "4"
           eq_refl eq_refl eq_refl eq_refl eq_refl).
Defined.

(** X24: on the tick, the date of the next episode written as day, short
    month name and four-digit year is resolved to that date at midnight,
    whether or not a comma follows the month; with a period after the
    month the text passes the check and the strict parse always raises. *)
Theorem X24_tick_reads_written_dates (d m : Z) (a b c e : ascii) :
  Re.is_digit a = true -> Re.is_digit b = true ->
  Re.is_digit c = true -> Re.is_digit e = true ->
  valid_date (Written.year_value a b c e) m d = true ->
  let short := Written.month_text Written.short_months m in
  let date := mkDatetime (Written.year_value a b c e) m d 0 0 0 0 in
  next_episode_date (Some (Written.written d short EmptyString a b c e))
  = Some (Ok date)
  /\ next_episode_date (Some (Written.written d short "," a b c e))
     = Some (Ok date)
  /\ next_episode_date (Some (Written.written d short "." a b c e))
     = Some (Raise ValueError).
Proof.
  intros Ha Hb Hc He Hdate short date. subst short date.
  destruct (written_ranges d m a b c e Hdate) as [_ Hm].
  assert (Hparse : strptime_d_b_Y
                     (Written.written
                        d (Written.month_text Written.short_months m)
                        EmptyString a b c e)
                   = Ok (mkDatetime (Written.year_value a b c e)
                                    m d 0 0 0 0)).
  { apply (strptime_written d m a b c e Ha Hb Hc He Hdate
                            month_abbrs Written.short_months);
      [now left | intros rest; now apply short_month_alternatives]. }
  unfold next_episode_date, usable.
  rewrite !(written_truthy d m a b c e Hdate).
  rewrite !(episode_pattern_accepts d m a b c e Ha Hb Hc He Hdate)
    by (reflexivity || (cbn; lia)).
  cbn [andb].
  rewrite !(remove_char_written d m a b c e Ha Hb Hc He Hdate)
    by (try (now left); now right).
  cbn [remove_char Ascii.eqb Bool.eqb].
  rewrite Hparse. repeat split.
  unfold strptime_d_b_Y.
  now rewrite (strptime_written_marked d m a b c e Hdate
                 month_abbrs Written.short_months "."%char)
    by (try (now left); try reflexivity;
        intros rest; now apply short_month_alternatives).
Qed.

Lemma X24_tick_reads_written_dates_witness :
  next_episode_date (Some "3 Feb 2025")
  = Some (Ok (mkDatetime 2025 2 3 0 0 0 0))
  /\ next_episode_date (Some "3 Feb, 2025")
     = Some (Ok (mkDatetime 2025 2 3 0 0 0 0))
  /\ next_episode_date (Some "3 Feb. 2025") = Some (Raise ValueError).
Proof.
  exact (X24_tick_reads_written_dates 3 2 "2" "0" "2" "5"
           eq_refl eq_refl eq_refl eq_refl eq_refl).
Defined.

(** X25: on the movie path, a calendar date written as day, long month
    name and four-digit year passes the check and is resolved to that date
    at midnight. *)
Theorem X25_movie_path_reads_written_dates (d m : Z) (a b c e : ascii) :
  Re.is_digit a = true -> Re.is_digit b = true ->
  Re.is_digit c = true -> Re.is_digit e = true ->
  valid_date (Written.year_value a b c e) m d = true ->
  movie_date (Written.written d (Written.month_text Written.long_months m)
                              EmptyString a b c e)
  = Some (Ok (mkDatetime (Written.year_value a b c e) m d 0 0 0 0)).
Proof.
  intros Ha Hb Hc He Hdate.
  destruct (written_ranges d m a b c e Hdate) as [_ Hm].
  unfold movie_date.
  rewrite (movie_pattern_accepts d m a b c e Ha Hb Hc He Hdate).
  unfold strptime_d_B_Y.
  rewrite (strptime_written d m a b c e Ha Hb Hc He Hdate
             month_names Written.long_months);
    [reflexivity | now right
     | intros rest; now apply long_month_alternatives].
Qed.

Lemma X25_movie_path_reads_written_dates_witness :
  movie_date "29 February 2024"
  = Some (Ok (mkDatetime 2024 2 29 0 0 0 0)).
Proof.
  exact (X25_movie_path_reads_written_dates 29 2 "2" "0" "2" "4"
           eq_refl eq_refl eq_refl eq_refl eq_refl).
Defined.

(** * The calendar of [datetime + timedelta] *)

Lemma in_calendar_first_cycle :
  holds_from Calendar.in_calendar_at (Z.to_nat DI400Y) 1 = true.
Proof. vm_compute. reflexivity. Qed.

Lemma days_in_month_period (y m k : Z) :
  days_in_month (y + 400 * k) m = days_in_month y m.
Proof. unfold days_in_month. now rewrite is_leap_period. Qed.

(** The date of an ordinal from 1 to [MAXORDINAL] is a date the
    constructor accepts. *)
Lemma ord2ymd_valid (n : Z) :
  1 <= n <= MAXORDINAL ->
  let '(y, m, d) := ord2ymd n in valid_date y m d = true.
Proof.
  intros Hn.
  assert (Hr : 0 <= (n - 1) mod DI400Y < DI400Y)
    by (apply Z.mod_pos_bound; reflexivity).
  pose proof (ymd2ord_ord2ymd ((n - 1) mod DI400Y + 1)) as Hround.
  pose proof (holds_from_spec Calendar.in_calendar_at (Z.to_nat DI400Y) 1
                in_calendar_first_cycle ((n - 1) mod DI400Y + 1)) as Hbase.
  rewrite Z2Nat.id in Hbase by (unfold DI400Y; lia).
  specialize (Hbase ltac:(lia)).
  rewrite ord2ymd_period.
  unfold Calendar.in_calendar_at in Hbase.
  destruct (ord2ymd ((n - 1) mod DI400Y + 1)) as [[y m] d].
  unfold shift_years, ordinal_of in *.
  repeat (apply andb_prop in Hbase as [Hbase ?]).
  repeat match goal with
         | H : (_ <=? _) = true |- _ => apply Z.leb_le in H
         end.
  unfold valid_date. rewrite days_in_month_period.
  assert (Hq : 0 <= (n - 1) / DI400Y <= 24)
    by (unfold DI400Y, MAXORDINAL in *; Z.div_mod_to_equations; lia).
  assert (Hyear : y + 400 * ((n - 1) / DI400Y) <= 9999).
  { destruct (Z.eq_dec y 400) as [-> | Hy]; [|lia].
    assert ((n - 1) / DI400Y <> 24); [|lia].
    intros Hlast.
    assert (Hlow : 145732 <= ymd2ord 400 m d).
    { unfold ymd2ord, days_before_month.
      pose proof (index_days_before_month_bounds m ltac:(lia)).
      change (days_before_year 400) with 145731.
      destruct ((2 <? m) && is_leap 400); lia. }
    unfold DI400Y, MAXORDINAL in *. Z.div_mod_to_equations. lia. }
  repeat (apply andb_true_intro; split); apply Z.leb_le; lia.
Qed.

(** The sum of a date and a number of days is a date. *)
Lemma add_days_valid (d d' : datetime) (n : Z) :
  add_days d n = Ok d' ->
  valid_date (year d') (month d') (day d') = true.
Proof.
  unfold add_days. cbv zeta.
  destruct ((0 <? toordinal d + n) && (toordinal d + n <=? MAXORDINAL))
    eqn:Hrange; [|discriminate].
  apply andb_prop in Hrange as [Hlo Hhi].
  apply Z.ltb_lt in Hlo. apply Z.leb_le in Hhi.
  pose proof (ord2ymd_valid (toordinal d + n) ltac:(lia)) as H.
  destruct (ord2ymd (toordinal d + n)) as [[y m] dd].
  intros E; injection E as <-. exact H.
Qed.

Lemma days_before_year_succ (y : Z) :
  days_before_year (y + 1) = days_before_year y + Calendar.days_in_year y.
Proof.
  unfold days_before_year, Calendar.days_in_year, is_leap. cbv zeta.
  replace (y + 1 - 1) with y by ring.
  destruct (Z.eqb_spec (y mod 4) 0), (Z.eqb_spec (y mod 100) 0),
    (Z.eqb_spec (y mod 400) 0); cbn [andb orb negb];
    Z.div_mod_to_equations; lia.
Qed.

Lemma days_before_year_later (y y' : Z) :
  y < y' ->
  days_before_year y + Calendar.days_in_year y <= days_before_year y'.
Proof.
  intros H.
  replace y' with (y + 1 + Z.of_nat (Z.to_nat (y' - y - 1))) by lia.
  induction (Z.to_nat (y' - y - 1)) as [|k IH].
  - rewrite Z.add_0_r, days_before_year_succ. lia.
  - replace (y + 1 + Z.of_nat (S k)) with (y + 1 + Z.of_nat k + 1) by lia.
    rewrite days_before_year_succ.
    unfold Calendar.days_in_year at 2.
    destruct (is_leap (y + 1 + Z.of_nat k)); lia.
Qed.

Lemma valid_date_ranges (y m d : Z) :
  valid_date y m d = true ->
  1 <= y <= 9999 /\ 1 <= m <= 12 /\ 1 <= d <= days_in_month y m.
Proof.
  unfold valid_date. intros H.
  repeat (apply andb_prop in H as [H ?]).
  repeat match goal with
         | H : (_ <=? _) = true |- _ => apply Z.leb_le in H
         end.
  lia.
Qed.

Ltac table_entries :=
  repeat match goal with
         | |- context [index ?l ?k] =>
             let v := eval vm_compute in (index l k) in
             change (index l k) with v
         | H : context [index ?l ?k] |- _ =>
             let v := eval vm_compute in (index l k) in
             change (index l k) with v in H
         | |- context [Z.eqb ?a ?b] =>
             let v := eval vm_compute in (Z.eqb a b) in
             match v with
             | true => change (Z.eqb a b) with true
             | false => change (Z.eqb a b) with false
             end
         | H : context [Z.eqb ?a ?b] |- _ =>
             let v := eval vm_compute in (Z.eqb a b) in
             match v with
             | true => change (Z.eqb a b) with true in H
             | false => change (Z.eqb a b) with false in H
             end
         | |- context [Z.ltb ?a ?b] =>
             let v := eval vm_compute in (Z.ltb a b) in
             match v with
             | true => change (Z.ltb a b) with true
             | false => change (Z.ltb a b) with false
             end
         end;
  cbn [andb] in *.

(** The days of a year are numbered apart, from 1 to the length of the
    year. *)
Lemma day_of_year_apart (y m d m' d' : Z) :
  1 <= m <= 12 -> 1 <= d <= days_in_month y m ->
  1 <= m' <= 12 -> 1 <= d' <= days_in_month y m' ->
  1 <= Calendar.day_of_year y m d <= Calendar.days_in_year y
  /\ (Calendar.day_of_year y m d = Calendar.day_of_year y m' d' ->
      m = m' /\ d = d').
Proof.
  unfold Calendar.day_of_year, Calendar.days_in_year, days_before_month,
    days_in_month.
  intros Hm Hd Hm' Hd'.
  apply month_cases in Hm, Hm'.
  destruct (is_leap y); each_month Hm; each_month Hm';
    table_entries; lia.
Qed.

(** Two dates of the calendar with the same ordinal are the same date. *)
Lemma ymd2ord_inj (y m d y' m' d' : Z) :
  valid_date y m d = true -> valid_date y' m' d' = true ->
  ymd2ord y m d = ymd2ord y' m' d' ->
  y = y' /\ m = m' /\ d = d'.
Proof.
  intros H H' Hord.
  apply valid_date_ranges in H as (_ & Hm & Hd).
  apply valid_date_ranges in H' as (_ & Hm' & Hd').
  unfold ymd2ord in Hord.
  pose proof (day_of_year_apart y m d m d Hm Hd Hm Hd) as [Hday _].
  pose proof (day_of_year_apart y' m' d' m' d' Hm' Hd' Hm' Hd')
    as [Hday' _].
  unfold Calendar.day_of_year in Hday, Hday'.
  assert (y = y') as <-.
  { destruct (Z.lt_trichotomy y y') as [Hlt | [Heq | Hgt]];
      [|exact Heq|].
    - pose proof (days_before_year_later y y' Hlt). lia.
    - pose proof (days_before_year_later y' y Hgt). lia. }
  split; [reflexivity|].
  apply (day_of_year_apart y m d m' d' Hm Hd Hm' Hd').
  unfold Calendar.day_of_year. lia.
Qed.

(** A week after a date of the calendar there is one date, at the time of
    day of the first. *)
Lemma add_days_week_unique (d d' other : datetime) :
  add_days (replace_midnight d) 7 = Ok d' ->
  valid_date (year other) (month other) (day other) = true ->
  toordinal other = toordinal (replace_midnight d) + 7 ->
  at_midnight other = true ->
  other = d'.
Proof.
  intros Hweek Hvalid Hord Hmidnight.
  pose proof (add_days_valid _ _ _ Hweek) as Hvalid'.
  pose proof (add_days_ordinal _ _ _ Hweek) as Hord'.
  assert (Hmidnight' : at_midnight d' = true).
  { revert Hweek. unfold add_days. cbv zeta.
    destruct ((0 <? toordinal (replace_midnight d) + 7)
              && (toordinal (replace_midnight d) + 7 <=? MAXORDINAL));
      [|discriminate].
    destruct (ord2ymd (toordinal (replace_midnight d) + 7)) as [[y m] dd].
    intros E; injection E as <-. reflexivity. }
  rewrite <- Hord' in Hord. unfold toordinal in Hord.
  apply (ymd2ord_inj _ _ _ _ _ _ Hvalid Hvalid') in Hord
    as (Hy & Hm & Hd).
  destruct other as [y m dd h mi s us], d' as [y' m' dd' h' mi' s' us'].
  unfold at_midnight in *.
  cbn [year month day hour minute second microsecond] in *.
  repeat (apply andb_prop in Hmidnight as [Hmidnight ?]).
  repeat (apply andb_prop in Hmidnight' as [Hmidnight' ?]).
  repeat match goal with
         | H : (_ =? _) = true |- _ => apply Z.eqb_eq in H
         end.
  congruence.
Qed.

(** * The tick at one due record *)

(** A row whose key is none of the written keys was there before. *)
Lemma writes_at_only (keys : list (string * string)) (db db' : Db.table)
      (r : Db.row) :
  Frame.writes_at keys db db' ->
  ~ In (Db.key r) keys -> In r db' -> In r db.
Proof.
  intros H Hout.
  induction H as [db | e u t d db db' Hk _ IH | u t db db' Hk _ IH];
    intros Hin.
  - exact Hin.
  - apply IH in Hin. unfold Db.update in Hin.
    apply in_map_iff in Hin as (r0 & Hr0 & Hin).
    destruct (Db.has_key u t r0) eqn:Hkey; [|now subst].
    elim Hout. apply has_key_iff in Hkey. subst r.
    unfold Db.key in *. cbn. now rewrite Hkey.
  - apply IH in Hin. cbn [fst Db.delete] in Hin.
    now apply filter_In in Hin.
Qed.

Lemma due_keys_of_table (today : datetime) (db : Db.table) :
  map Frame.due_key (Db.query_released today db)
  = map Db.key
        (filter (fun r => Datetime.eqb (Db.title_release r) today) db).
Proof. unfold Db.query_released. now rewrite map_map. Qed.

(** On a table with one row for each key, a due record has a key of its
    own among the due records. *)
Lemma due_keys_apart (today : datetime) (db : Db.table)
      (before after : list (string * string * option string))
      (row : string * string * option string) :
  unique_keys db ->
  Db.query_released today db = before ++ row :: after ->
  ~ In (Frame.due_key row) (map Frame.due_key before)
  /\ ~ In (Frame.due_key row) (map Frame.due_key after).
Proof.
  intros Hunique Hdue.
  pose proof (unique_keys_filter
                (fun r => Datetime.eqb (Db.title_release r) today) db
                Hunique) as H.
  unfold unique_keys in H.
  rewrite <- due_keys_of_table, Hdue, map_app in H. cbn [map] in H.
  apply NoDup_remove_2 in H.
  split; intros Hin; apply H, in_or_app; auto.
Qed.

Lemma due_row_in_table (today : datetime) (db : Db.table)
      (row : string * string * option string) :
  In row (Db.query_released today db) ->
  exists r, In r db /\ Db.key r = Frame.due_key row.
Proof.
  unfold Db.query_released. intros H.
  apply in_map_iff in H as (r & <- & Hr). apply filter_In in Hr as [Hr _].
  exists r. split; [exact Hr | reflexivity].
Qed.

Section TickAt.

Variable imdb_api : api.
Variable now : datetime.
Variable title_details : Movie -> string.

Let today := replace_midnight now.

(** The alerts gathered so far are only carried along. *)
Lemma notify_row_acc (row : string * string * option string)
      (alerts : list alert) (db : Db.table) :
  notify_row imdb_api now title_details today row alerts db
  = match notify_row imdb_api now title_details today row [] db with
    | (Ok out, db') => (Ok (alerts ++ out), db')
    | (Raise e, db') => (Raise e, db')
    end.
Proof.
  destruct row as [[user_id title_id] title_episode_id].
  unfold notify_row. destruct (truthy title_episode_id).
  - unfold bind, call, ret, raise.
    destruct (get_episode imdb_api _) as [current_episode|e];
      [|reflexivity].
    destruct (original_air_date current_episode) as [text|];
      [|reflexivity].
    destruct (strptime_d_b_Y (remove_char "," text)) as [d|e];
      [|reflexivity].
    destruct (_update_episode imdb_api now user_id title_id
                              current_episode db) as [[v|e] db1];
      [|reflexivity].
    destruct (negb (truthy v)); [reflexivity|].
    destruct (Datetime.eqb d today); [reflexivity|].
    now rewrite app_nil_r.
  - unfold bind, call, ret, db_delete.
    destruct (get_movie imdb_api title_id) as [title_data|e]; reflexivity.
Qed.

Lemma notify_loop_acc (rows : list (string * string * option string))
      (alerts : list alert) (db : Db.table) :
  notify_loop imdb_api now title_details today rows alerts db
  = match notify_loop imdb_api now title_details today rows [] db with
    | (Ok out, db') => (Ok (alerts ++ out), db')
    | (Raise e, db') => (Raise e, db')
    end.
Proof.
  revert alerts db. induction rows as [|row rows IH]; intros alerts db.
  - cbn. now rewrite app_nil_r.
  - cbn [notify_loop]. unfold bind.
    rewrite (notify_row_acc row alerts db).
    destruct (notify_row imdb_api now title_details today row [] db)
      as [[out|e] db1]; [|reflexivity].
    rewrite (IH (alerts ++ out) db1), (IH out db1).
    destruct (notify_loop imdb_api now title_details today rows [] db1)
      as [[out'|e] db2]; [|reflexivity].
    now rewrite app_assoc.
Qed.

(** When the due records before a record are processed without a fault
    and the record is, the tick is the rest of the loop from there. *)
Lemma notify_from_record
      (before after : list (string * string * option string))
      (row : string * string * option string)
      (alerts1 alerts2 : list alert) (db db1 db2 : Db.table) :
  Db.query_released today db = before ++ row :: after ->
  notify_loop imdb_api now title_details today before [] db
  = (Ok alerts1, db1) ->
  notify_row imdb_api now title_details today row alerts1 db1
  = (Ok alerts2, db2) ->
  notify imdb_api now title_details db
  = match notify_loop imdb_api now title_details today after [] db2 with
    | (Ok later, db3) => (Ok (inl (alerts2 ++ later)), db3)
    | (Raise _, db3) => (Ok (inr error_message), db3)
    end.
Proof.
  intros Hdue Hbefore Hrow.
  assert (Hloop :
    notify_loop imdb_api now title_details today
                (before ++ row :: after) [] db
    = notify_loop imdb_api now title_details today after alerts2 db2).
  { unfold today in *. rewrite notify_loop_app.
    rewrite (bind_ok _ _ _ _ _ Hbefore). cbn [notify_loop].
    now rewrite (bind_ok _ _ _ _ _ Hrow). }
  unfold notify, catch_and_log.
  rewrite (bind_ok _ _ db db (Db.query_released (replace_midnight now) db))
    by reflexivity.
  fold today. rewrite Hdue. unfold bind. rewrite Hloop.
  rewrite (notify_loop_acc after alerts2 db2).
  destruct (notify_loop imdb_api now title_details today after [] db2)
    as [[later|e] db3]; reflexivity.
Qed.

(** What such a tick leaves of the rows of the record's key: before the
    record they are those of the table, after it those the record's step
    left. *)
Lemma notify_key_rows
      (before after : list (string * string * option string))
      (row : string * string * option string)
      (alerts1 alerts2 : list alert) (db db1 db2 : Db.table) (r : Db.row) :
  unique_keys db ->
  Db.query_released today db = before ++ row :: after ->
  notify_loop imdb_api now title_details today before [] db
  = (Ok alerts1, db1) ->
  notify_row imdb_api now title_details today row alerts1 db1
  = (Ok alerts2, db2) ->
  Db.key r = Frame.due_key row ->
  (In r db <-> In r db1)
  /\ (In r db2 <-> In r (snd (notify imdb_api now title_details db))).
Proof.
  intros Hunique Hdue Hbefore Hrow Hkey.
  destruct (due_keys_apart today db before after row Hunique Hdue)
    as [Hout_before Hout_after].
  rewrite <- Hkey in Hout_before, Hout_after.
  pose proof (notify_loop_writes_at imdb_api now title_details
                before [] db) as Hhead.
  fold today in Hhead. rewrite Hbefore in Hhead. cbn [snd] in Hhead.
  assert (Htail :
    Frame.writes_at (map Frame.due_key after) db2
      (snd (notify imdb_api now title_details db))).
  { rewrite (notify_from_record before after row alerts1 alerts2 db db1 db2
               Hdue Hbefore Hrow).
    pose proof (notify_loop_writes_at imdb_api now title_details
                  after [] db2) as H.
    fold today in H.
    destruct (notify_loop imdb_api now title_details today after [] db2)
      as [[later|e] db3]; exact H. }
  split; split.
  - exact (writes_at_keeps _ _ _ r Hhead Hout_before).
  - exact (writes_at_only _ _ _ r Hhead Hout_before).
  - exact (writes_at_keeps _ _ _ r Htail Hout_after).
  - exact (writes_at_only _ _ _ r Htail Hout_after).
Qed.

(** The alerts of such a tick, when it completes. *)
Lemma notify_alerts_at_record
      (before after : list (string * string * option string))
      (row : string * string * option string)
      (alerts1 alerts2 alerts : list alert) (db db1 db2 : Db.table) :
  Db.query_released today db = before ++ row :: after ->
  notify_loop imdb_api now title_details today before [] db
  = (Ok alerts1, db1) ->
  notify_row imdb_api now title_details today row alerts1 db1
  = (Ok alerts2, db2) ->
  fst (notify imdb_api now title_details db) = Ok (inl alerts) ->
  exists later,
    notify_loop imdb_api now title_details today after [] db2
    = (Ok later, snd (notify imdb_api now title_details db))
    /\ alerts = alerts2 ++ later.
Proof.
  intros Hdue Hbefore Hrow.
  rewrite (notify_from_record before after row alerts1 alerts2 db db1 db2
             Hdue Hbefore Hrow).
  destruct (notify_loop imdb_api now title_details today after [] db2)
    as [[later|e] db3]; cbn [fst snd]; [|discriminate].
  intros H. injection H as <-. exists later. split; reflexivity.
Qed.

End TickAt.

(** * The tick on a due series record *)

Section TickOnSeries.

Variable imdb_api : api.
Variable now : datetime.
Variable title_details : Movie -> string.

Let today := replace_midnight now.

(** The loop body of the placeholder step returns. *)
Lemma notify_row_placeholder_run
      (user_id title_id episode_id next_id text : string)
      (current_episode next_episode_data : Movie)
      (current_release_date next_week_date : datetime)
      (alerts : list alert) (db : Db.table) :
  truthy_str episode_id = true ->
  get_episode imdb_api episode_id = Ok current_episode ->
  original_air_date current_episode = Some text ->
  strptime_d_b_Y (remove_char "," text) = Ok current_release_date ->
  next_episode current_episode = Some next_id ->
  truthy_str next_id = true ->
  get_episode imdb_api next_id = Ok next_episode_data ->
  usable Re.episode_date_regex (original_air_date next_episode_data) = None ->
  add_days now 7 = Ok next_week_date ->
  exists alerts2,
    notify_row imdb_api now title_details today
               (user_id, title_id, Some episode_id) alerts db
    = (Ok alerts2,
       Db.update (getID current_episode, replace_midnight next_week_date,
                  user_id, title_id) db).
Proof.
  intros Htruthy Hget Hair Hparse Hnext Hnext_truthy Hget_next Hdate Hweek.
  unfold notify_row. simpl. rewrite Htruthy.
  rewrite (bind_ok _ _ db db current_episode)
    by (unfold call; now rewrite Hget).
  rewrite Hair.
  rewrite (bind_ok _ _ db db (remove_char "," text)) by reflexivity.
  rewrite (bind_ok _ _ db db current_release_date)
    by (unfold call; now rewrite Hparse).
  rewrite (bind_ok _ _ _ _ _
             (update_episode_placeholder imdb_api now user_id title_id
                next_id current_episode next_episode_data next_week_date db
                Hnext Hnext_truthy Hget_next Hdate Hweek)).
  simpl.
  destruct (negb (truthy_str (getID current_episode)));
    [|destruct (Datetime.eqb current_release_date today)];
    eexists; reflexivity.
Qed.

(** A due record whose step rewrites the rows of its key: what the tick
    leaves of them, whatever the later records do. *)
Lemma notify_key_rewritten
      (before after : list (string * string * option string))
      (user_id title_id e : string) (title_episode_id : option string)
      (d : datetime) (alerts1 alerts2 : list alert) (db db1 : Db.table) :
  unique_keys db ->
  Db.query_released today db
  = before ++ (user_id, title_id, title_episode_id) :: after ->
  notify_loop imdb_api now title_details today before [] db
  = (Ok alerts1, db1) ->
  notify_row imdb_api now title_details today
             (user_id, title_id, title_episode_id) alerts1 db1
  = (Ok alerts2, Db.update (e, d, user_id, title_id) db1) ->
  (forall r0, In r0 db -> Db.has_key user_id title_id r0 = true ->
              In (Db.mkRow (Db.user_id r0) (Db.user_name r0)
                           (Db.title_id r0) (Db.title_name r0) (Some e) d)
                 (snd (notify imdb_api now title_details db)))
  /\ (forall r, In r (snd (notify imdb_api now title_details db)) ->
                Db.has_key user_id title_id r = true ->
                Db.title_episode_id r = Some e /\ Db.title_release r = d)
  /\ Db.query_user_alert user_id title_id
       (snd (notify imdb_api now title_details db)) <> None.
Proof.
  intros Hunique Hdue Hbefore Hrow.
  pose proof (fun r => notify_key_rows imdb_api now title_details
                         before after _ alerts1 alerts2 db db1 _ r
                         Hunique Hdue Hbefore Hrow) as Hrows.
  unfold Frame.due_key in Hrows. cbn [fst snd] in Hrows.
  assert (Hthere : forall r0,
    In r0 db -> Db.has_key user_id title_id r0 = true ->
    In (Db.mkRow (Db.user_id r0) (Db.user_name r0)
                 (Db.title_id r0) (Db.title_name r0) (Some e) d)
       (snd (notify imdb_api now title_details db))).
  { intros r0 Hin Hkey.
    pose proof (proj1 (has_key_iff _ _ _) Hkey) as Hkey0.
    apply (proj1 (Hrows r0 Hkey0)) in Hin.
    apply (proj2 (Hrows (Db.mkRow (Db.user_id r0) (Db.user_name r0)
                                  (Db.title_id r0) (Db.title_name r0)
                                  (Some e) d)
                        Hkey0)).
    now apply db_update_present. }
  split; [exact Hthere|]. split.
  - intros r Hin Hkey.
    apply (proj2 (Hrows r (proj1 (has_key_iff _ _ _) Hkey))) in Hin.
    exact (db_update_row _ _ _ _ _ _ Hin Hkey).
  - destruct (due_row_in_table today db (user_id, title_id, title_episode_id))
      as (r0 & Hin & Hkey0).
    { rewrite Hdue. apply in_or_app. right. now left. }
    unfold Frame.due_key in Hkey0. cbn [fst snd] in Hkey0.
    apply query_user_alert_some. rewrite <- Hkey0.
    apply in_map_iff. eexists. split; [|apply (Hthere r0 Hin)].
    + reflexivity.
    + now apply has_key_iff.
Qed.

(** C3, as the code has it: the alert of a due series record goes by the
    air date of the current episode, not by the new release date, and a
    fault at another due record ends the tick. On a table with one row
    for each user and title, take a due series record whose current
    episode is fetched with an air date that parses, whose next-episode
    link exists and whose next episode has an air date that resolves, in
    a tick whose due records before it are processed without a fault.
    Then [notify] rewrites the rows of the record's key with the next
    episode's id and date, removes none of them, and the table it leaves
    has them so whatever the later records do; and when the tick
    completes, its alerts are those of the earlier records, then "Episode
    is out!!" for this record exactly when the air date of the current
    episode, fetched again, equals today, then those of the later
    records. *)
Theorem C3_episode_advanced
        (before after : list (string * string * option string))
        (user_id title_id episode_id next_id text : string)
        (current_episode next_episode_data : Movie)
        (current_release_date next_release_date : datetime)
        (alerts1 : list alert) (db db1 : Db.table) :
  unique_keys db ->
  Db.query_released today db
  = before ++ (user_id, title_id, Some episode_id) :: after ->
  notify_loop imdb_api now title_details today before [] db
  = (Ok alerts1, db1) ->
  truthy_str episode_id = true ->
  get_episode imdb_api episode_id = Ok current_episode ->
  original_air_date current_episode = Some text ->
  strptime_d_b_Y (remove_char "," text) = Ok current_release_date ->
  next_episode current_episode = Some next_id ->
  truthy_str next_id = true ->
  get_episode imdb_api next_id = Ok next_episode_data ->
  next_episode_date (original_air_date next_episode_data)
  = Some (Ok next_release_date) ->
  let final := snd (notify imdb_api now title_details db) in
  let mine :=
    if Datetime.eqb current_release_date today
    then [(user_id, episode_out_message title_details current_episode)]
    else [] in
  (forall r0, In r0 db -> Db.has_key user_id title_id r0 = true ->
              In (Db.mkRow (Db.user_id r0) (Db.user_name r0)
                           (Db.title_id r0) (Db.title_name r0)
                           (Some next_id) next_release_date)
                 final)
  /\ (forall r, In r final -> Db.has_key user_id title_id r = true ->
                Db.title_episode_id r = Some next_id
                /\ Db.title_release r = next_release_date)
  /\ Db.query_user_alert user_id title_id final <> None
  /\ (forall alerts,
        fst (notify imdb_api now title_details db) = Ok (inl alerts) ->
        exists later,
          notify_loop imdb_api now title_details today after []
            (Db.update (next_id, next_release_date, user_id, title_id) db1)
          = (Ok later, final)
          /\ alerts = alerts1 ++ mine ++ later).
Proof.
  intros Hunique Hdue Hbefore Htruthy Hget Hair Hparse Hnext Hnext_truthy
         Hget_next Hdate final mine.
  pose proof (proj1 (notify_row_next imdb_api now title_details
                       user_id title_id episode_id next_id text
                       current_episode next_episode_data
                       current_release_date next_release_date alerts1 db1
                       Htruthy Hget Hair Hparse Hnext Hnext_truthy
                       Hget_next Hdate)) as Hrow.
  fold today in Hrow.
  destruct (notify_key_rewritten before after user_id title_id next_id
              (Some episode_id) next_release_date alerts1 _ db db1
              Hunique Hdue Hbefore Hrow) as (Hthere & Honly & Hkept).
  split; [exact Hthere|]. split; [exact Honly|]. split; [exact Hkept|].
  intros alerts Halerts.
  destruct (notify_alerts_at_record imdb_api now title_details
              before after _ alerts1 _ alerts db db1 _
              Hdue Hbefore Hrow Halerts) as (later & Hlater & ->).
  exists later. split; [exact Hlater|].
  subst mine. destruct (Datetime.eqb current_release_date today);
    [now rewrite <- app_assoc | reflexivity].
Qed.


(** X15: on a table with one row for each user and title, take a due
    series record whose current episode is fetched with an air date that
    parses and has no next-episode link, in a tick whose due records
    before it are processed without a fault. Then [notify] removes the
    rows of the record's key, and the table it leaves has none whatever
    the later records do; and when the tick completes, its alerts are
    those of the earlier records, then one "Series finale" alert for the
    record's user, then those of the later records. *)
Theorem X15_finale_ends_the_alert
        (before after : list (string * string * option string))
        (user_id title_id episode_id text : string)
        (current_episode : Movie) (current_release_date : datetime)
        (alerts1 : list alert) (db db1 : Db.table) :
  unique_keys db ->
  Db.query_released today db
  = before ++ (user_id, title_id, Some episode_id) :: after ->
  notify_loop imdb_api now title_details today before [] db
  = (Ok alerts1, db1) ->
  truthy_str episode_id = true ->
  get_episode imdb_api episode_id = Ok current_episode ->
  original_air_date current_episode = Some text ->
  strptime_d_b_Y (remove_char "," text) = Ok current_release_date ->
  truthy (next_episode current_episode) = false ->
  let final := snd (notify imdb_api now title_details db) in
  Db.query_user_alert user_id title_id final = None
  /\ (forall alerts,
        fst (notify imdb_api now title_details db) = Ok (inl alerts) ->
        exists later,
          notify_loop imdb_api now title_details today after []
                      (fst (Db.delete user_id title_id db1))
          = (Ok later, final)
          /\ alerts
             = alerts1
               ++ [(user_id,
                    Frame.finale_message title_details current_episode)]
               ++ later).
Proof.
  intros Hunique Hdue Hbefore Htruthy Hget Hair Hparse Hnext final.
  pose proof (notify_row_finale imdb_api now title_details
                user_id title_id episode_id text current_episode
                current_release_date alerts1 db1
                Htruthy Hget Hair Hparse Hnext) as Hrow.
  fold today in Hrow.
  split.
  - apply query_user_alert_none. intros Hin.
    apply in_map_iff in Hin as (r & Hkey & Hin).
    apply (proj2 (notify_key_rows imdb_api now title_details
                    before after _ alerts1 _ db db1 _ r
                    Hunique Hdue Hbefore Hrow Hkey)) in Hin.
    cbn [fst Db.delete] in Hin. apply filter_In in Hin as [_ Hfilter].
    apply has_key_iff in Hkey. rewrite Hkey in Hfilter.
    discriminate Hfilter.
  - intros alerts Halerts.
    destruct (notify_alerts_at_record imdb_api now title_details
                before after _ alerts1 _ alerts db db1 _
                Hdue Hbefore Hrow Halerts) as (later & Hlater & ->).
    exists later. split; [exact Hlater|]. now rewrite <- app_assoc.
Qed.

(** X16: when the next-episode link exists but the next episode cannot be
    resolved (its fetch raises, or its air date passes the pattern and
    fails the parse), [_update_episode] answers with the error text in
    place of an episode id and writes nothing. On a table with one row
    for each user and title, for such a due series record whose current
    episode is fetched with an air date that parses, in a tick whose due
    records before it are processed without a fault, the table [notify]
    leaves has the rows of the record's key as they were, whatever the
    later records do; and when the tick completes, its alerts are those
    of the earlier records, then "Episode is out!!" for this record
    exactly when the current episode's air date is today, then those of
    the later records. *)
Theorem X16_unresolved_next_episode_leaves_the_record
        (before after : list (string * string * option string))
        (user_id title_id episode_id next_id text : string)
        (current_episode : Movie) (current_release_date : datetime)
        (alerts1 : list alert) (db db1 : Db.table) :
  unique_keys db ->
  Db.query_released today db
  = before ++ (user_id, title_id, Some episode_id) :: after ->
  notify_loop imdb_api now title_details today before [] db
  = (Ok alerts1, db1) ->
  truthy_str episode_id = true ->
  get_episode imdb_api episode_id = Ok current_episode ->
  original_air_date current_episode = Some text ->
  strptime_d_b_Y (remove_char "," text) = Ok current_release_date ->
  next_episode current_episode = Some next_id ->
  truthy_str next_id = true ->
  (exists e, get_episode imdb_api next_id = Raise e)
  \/ (exists next_episode_data e,
         get_episode imdb_api next_id = Ok next_episode_data
         /\ next_episode_date (original_air_date next_episode_data)
            = Some (Raise e)) ->
  let final := snd (notify imdb_api now title_details db) in
  let mine :=
    if Datetime.eqb current_release_date today
    then [(user_id, episode_out_message title_details current_episode)]
    else [] in
  _update_episode imdb_api now user_id title_id current_episode db1
  = (Ok (Some error_message), db1)
  /\ (forall r, Db.key r = (user_id, title_id) ->
                (In r final <-> In r db))
  /\ (forall alerts,
        fst (notify imdb_api now title_details db) = Ok (inl alerts) ->
        exists later,
          notify_loop imdb_api now title_details today after [] db1
          = (Ok later, final)
          /\ alerts = alerts1 ++ mine ++ later).
Proof.
  intros Hunique Hdue Hbefore Htruthy Hget Hair Hparse Hnext Hnext_truthy
         Hfault final mine.
  destruct (notify_row_unresolved imdb_api now title_details
              user_id title_id episode_id next_id text current_episode
              current_release_date alerts1 db1
              Htruthy Hget Hair Hparse Hnext Hnext_truthy Hfault)
    as [Hupdate Hrow].
  fold today in Hrow.
  split; [exact Hupdate|]. split.
  - intros r Hkey.
    destruct (notify_key_rows imdb_api now title_details
                before after _ alerts1 _ db db1 _ r
                Hunique Hdue Hbefore Hrow Hkey) as [Hhead Htail].
    fold final in Htail. rewrite <- Htail. symmetry. exact Hhead.
  - intros alerts Halerts.
    destruct (notify_alerts_at_record imdb_api now title_details
                before after _ alerts1 _ alerts db db1 _
                Hdue Hbefore Hrow Halerts) as (later & Hlater & ->).
    exists later. split; [exact Hlater|].
    subst mine. destruct (Datetime.eqb current_release_date today);
      [now rewrite <- app_assoc | reflexivity].
Qed.

End TickOnSeries.

Ltac keys_apart :=
  unfold unique_keys; cbn;
  repeat (constructor;
          [let H := fresh "H" in
           intros H; repeat (destruct H as [H | H]; [discriminate H|]);
           exact H|]);
  constructor.

Lemma C3_episode_advanced_witness :
  In (Demo.episode_row "7" "tt300" "ep302" (mkDatetime 2024 6 8 0 0 0 0))
     (snd (notify Demo.api Demo.now Demo.title_details
                  (Demo3.tick_table "tt300" "ep301")))
  /\ exists later,
       [ Demo3.movie_out "1" "tt001";
         ("7", episode_out_message
                 Demo.title_details
                 (Demo.episode "ep301" (Some "1 Jun 2024") (Some "ep302")));
         Demo3.movie_out "3" "tt002" ]
       = [Demo3.movie_out "1" "tt001"]
         ++ [("7", episode_out_message
                     Demo.title_details
                     (Demo.episode "ep301" (Some "1 Jun 2024")
                                   (Some "ep302")))]
         ++ later.
Proof.
  assert (Hunique : unique_keys (Demo3.tick_table "tt300" "ep301"))
    by keys_apart.
  destruct (C3_episode_advanced
              Demo.api Demo.now Demo.title_details
              [("1", "tt001", None)] [("3", "tt002", None)]
              "7" "tt300" "ep301" "ep302" "1 Jun 2024"
              (Demo.episode "ep301" (Some "1 Jun 2024") (Some "ep302"))
              (Demo.episode "ep302" (Some "8 Jun 2024") (Some "ep303"))
              (mkDatetime 2024 6 1 0 0 0 0) (mkDatetime 2024 6 8 0 0 0 0)
              [Demo3.movie_out "1" "tt001"]
              (Demo3.tick_table "tt300" "ep301")
              [ Demo.episode_row "7" "tt300" "ep301" Demo.today;
                Demo.movie_row "3" "tt002" Demo.today ]
              Hunique eq_refl eq_refl eq_refl eq_refl eq_refl eq_refl
              eq_refl eq_refl eq_refl eq_refl)
    as (Hthere & _ & _ & Halerts).
  split.
  - exact (Hthere (Demo.episode_row "7" "tt300" "ep301" Demo.today)
                  (or_intror (or_introl eq_refl)) eq_refl).
  - destruct (Halerts
                [ Demo3.movie_out "1" "tt001";
                  ("7", episode_out_message
                          Demo.title_details
                          (Demo.episode "ep301" (Some "1 Jun 2024")
                                        (Some "ep302")));
                  Demo3.movie_out "3" "tt002" ]
                eq_refl) as (later & _ & Heq).
    exists later. exact Heq.
Defined.



Lemma X15_finale_ends_the_alert_witness :
  Db.query_user_alert
    "7" "tt300"
    (snd (notify Demo.api Demo.now Demo.title_details
                 (Demo3.tick_table "tt300" "ep602")))
  = None
  /\ exists later,
       [ Demo3.movie_out "1" "tt001";
         ("7", Frame.finale_message
                 Demo.title_details
                 (Demo.episode "ep602" (Some "15 Jun 2024") None));
         Demo3.movie_out "3" "tt002" ]
       = [Demo3.movie_out "1" "tt001"]
         ++ [("7", Frame.finale_message
                     Demo.title_details
                     (Demo.episode "ep602" (Some "15 Jun 2024") None))]
         ++ later.
Proof.
  assert (Hunique : unique_keys (Demo3.tick_table "tt300" "ep602"))
    by keys_apart.
  destruct (X15_finale_ends_the_alert
              Demo.api Demo.now Demo.title_details
              [("1", "tt001", None)] [("3", "tt002", None)]
              "7" "tt300" "ep602" "15 Jun 2024"
              (Demo.episode "ep602" (Some "15 Jun 2024") None)
              (mkDatetime 2024 6 15 0 0 0 0)
              [Demo3.movie_out "1" "tt001"]
              (Demo3.tick_table "tt300" "ep602")
              [ Demo.episode_row "7" "tt300" "ep602" Demo.today;
                Demo.movie_row "3" "tt002" Demo.today ]
              Hunique eq_refl eq_refl eq_refl eq_refl eq_refl eq_refl
              eq_refl)
    as (Hgone & Halerts).
  split; [exact Hgone|].
  destruct (Halerts
              [ Demo3.movie_out "1" "tt001";
                ("7", Frame.finale_message
                        Demo.title_details
                        (Demo.episode "ep602" (Some "15 Jun 2024") None));
                Demo3.movie_out "3" "tt002" ]
              eq_refl) as (later & _ & Heq).
  exists later. exact Heq.
Defined.

Lemma X16_unresolved_next_episode_leaves_the_record_witness :
  In (Demo.episode_row "7" "tt400" "ep401" Demo.today)
     (snd (notify Demo.api Demo.now Demo.title_details
                  (Demo3.tick_table "tt400" "ep401")))
  /\ exists later,
       [ Demo3.movie_out "1" "tt001";
         ("7", episode_out_message
                 Demo.title_details
                 (Demo.episode "ep401" (Some "1 Jun 2024") (Some "ep402")));
         Demo3.movie_out "3" "tt002" ]
       = [Demo3.movie_out "1" "tt001"]
         ++ [("7", episode_out_message
                     Demo.title_details
                     (Demo.episode "ep401" (Some "1 Jun 2024")
                                   (Some "ep402")))]
         ++ later.
Proof.
  assert (Hunique : unique_keys (Demo3.tick_table "tt400" "ep401"))
    by keys_apart.
  assert (Hfault :
    (exists e, get_episode Demo.api "ep402" = Raise e)
    \/ (exists next_episode_data e,
           get_episode Demo.api "ep402" = Ok next_episode_data
           /\ next_episode_date (original_air_date next_episode_data)
              = Some (Raise e))).
  { right.
    exists (Demo.episode "ep402" (Some "8 Jun. 2024") None), ValueError.
    split; reflexivity. }
  destruct (X16_unresolved_next_episode_leaves_the_record
              Demo.api Demo.now Demo.title_details
              [("1", "tt001", None)] [("3", "tt002", None)]
              "7" "tt400" "ep401" "ep402" "1 Jun 2024"
              (Demo.episode "ep401" (Some "1 Jun 2024") (Some "ep402"))
              (mkDatetime 2024 6 1 0 0 0 0)
              [Demo3.movie_out "1" "tt001"]
              (Demo3.tick_table "tt400" "ep401")
              [ Demo.episode_row "7" "tt400" "ep401" Demo.today;
                Demo.movie_row "3" "tt002" Demo.today ]
              Hunique eq_refl eq_refl eq_refl eq_refl eq_refl eq_refl
              eq_refl eq_refl Hfault)
    as (_ & Hrows & Halerts).
  split.
  - apply (Hrows (Demo.episode_row "7" "tt400" "ep401" Demo.today) eq_refl).
    right. left. reflexivity.
  - destruct (Halerts
                [ Demo3.movie_out "1" "tt001";
                  ("7", episode_out_message
                          Demo.title_details
                          (Demo.episode "ep401" (Some "1 Jun 2024")
                                        (Some "ep402")));
                  Demo3.movie_out "3" "tt002" ]
                eq_refl) as (later & _ & Heq).
    exists later. exact Heq.
Defined.
